(** * Hot-reload supervisor of [demo-editing/hot_reload_server.py]

    A shallow embedding of [HotReloadHandler], [GradioServerManager] and
    [main], and the properties of the restart supervisor stated over it.

    Time is counted in milliseconds ([time.time()] is the field [clock]).
    The operating system is an explicit environment [Env]: it decides what
    each [subprocess.Popen] call produces, how a child answers SIGTERM and
    SIGKILL, and what the [psutil] sweep of the port finds. *)

From Stdlib Require Import ZArith List Ascii String Bool Lia Arith.
Import ListNotations.
Open Scope Z_scope.

(** ** Paths and events *)

(** [str.endswith] *)
Definition endswith (s suf : string) : bool :=
  let n := String.length s in
  let m := String.length suf in
  (m <=? n)%nat && String.eqb (substring (n - m) m s) suf.

(** [needle in s] on strings *)
Fixpoint contains (needle s : string) : bool :=
  prefix needle s
  || match s with
     | EmptyString => false
     | String _ s' => contains needle s'
     end.

(** A watchdog [FileSystemEvent], as far as the handler reads it. *)
Record Event := { is_directory : bool; src_path : string }.

(** ** The environment *)

(** What a child does on SIGTERM: exit after [d] ms, ignore it, or the
    signalling call itself raises. *)
Inductive TermResp := TermExits (d : nat) | TermIgnored | TermRaises.

(** What a child does on SIGKILL: it is reaped after [d] ms; or the
    signalling call raises; or the signal is sent and the child does not go
    (it sits in a system call that cannot be interrupted). *)
Inductive KillResp := KillExits (d : nat) | KillRaises | KillHangs.

(** [lifetime = Some d]: the child exits by itself [d] ms after its launch. *)
Record Behaviour :=
  { lifetime : option nat; on_term : TermResp; on_kill : KillResp }.

Inductive Launch := PopenRaises | Spawns (b : Behaviour).

(** What a call of [proc.kill()] of psutil does: it sends the signal, raises
    one of NoSuchProcess / AccessDenied / ZombieProcess, or raises something
    else. *)
Inductive PsResp := PsKilled | PsGone | PsError.

(** A connection as [proc.info['connections']] lists it: its local port
    ([conn.laddr.port]), and what [proc.kill()] does if the loop calls it
    when it is at this connection. *)
Record Conn := { laddr_port : Z; kill_resp : PsResp }.

(** A process that [psutil.process_iter] yields: its pid and its
    connections, [None] when psutil could not read them. *)
Record PsProc := { ps_pid : nat; connections : option (list Conn) }.

(** A pass of [psutil.process_iter]: the iteration raises, or it yields the
    processes [l] in this order. *)
Inductive Sweep := IterRaises | Holders (l : list PsProc).

Record Env :=
  { popen_plan : nat -> Launch;   (* outcome of the n-th Popen call *)
    sweep_plan : nat -> Sweep }.  (* what the n-th port sweep finds *)

(** A [subprocess.Popen] object. *)
Record Proc := { pid : nat; spawned_at : Z; behaviour : Behaviour }.

(** ** Log lines and actions *)

Inductive Msg :=
| MAdditional (path : string)     (* Additional change detected *)
| MFileChanged (css : bool) (path : string)
| MHandlerRestarting              (* handler: Restarting server... *)
| MRestarting                     (* restart_server: Restarting server... *)
| MStopping | MForceKill | MErrStopping
| MKillingOnPort (port : Z) (ps : nat) | MErrPort
| MStarting | MAvailable | MStarted | MFailedStart | MErrStarting
| MRestarted | MRestartFailed
| MRetry (n : nat) | MMaxRetries
| MStopServer | MStopped
| MServerLine (line : list Z) | MErrMonitor
| MWatching | MRunning | MFailedToStart | MShutdown | MUnexpected.

Inductive Act :=
| APrint (m : Msg)
| ASleep (ms : Z)
| ATerminate (p : nat)
| AWait (p : nat) (timeout : option Z)
| AKill (p : nat)
| APopen (p : nat) (live_before : nat)  (* ghost: live children at the call *)
| APopenFailed
| APsKill (ps : nat)
| AMonitorThread (p : nat)
| AResetThread (due : Z)
| AObserverStart | AObserverStop.

(** ** State *)

Record St := mkSt
  { clock : Z;                  (* time.time() *)
    launches : nat;             (* Popen calls made so far *)
    sweeps : nat;               (* port sweeps made so far *)
    children : list Proc;       (* every child ever launched *)
    reaped : list nat;          (* children that exited on a signal *)
    process : option Proc;      (* GradioServerManager.process *)
    retry_count : nat;          (* GradioServerManager.retry_count *)
    last_reload : Z;            (* HotReloadHandler.last_reload *)
    pending_restart : bool;     (* HotReloadHandler.pending_restart *)
    reset_at : option Z;        (* wake-up time of the reset_pending thread *)
    trace : list Act }.         (* newest action first *)

Definition port : Z := 7861.
Definition max_retries : nat := 3.
Definition reload_delay : Z := 2000.

Definition set_clock (c : Z) (s : St) : St :=
  mkSt c (launches s) (sweeps s) (children s) (reaped s) (process s)
       (retry_count s) (last_reload s) (pending_restart s) (reset_at s) (trace s).
Definition set_launches (n : nat) (s : St) : St :=
  mkSt (clock s) n (sweeps s) (children s) (reaped s) (process s)
       (retry_count s) (last_reload s) (pending_restart s) (reset_at s) (trace s).
Definition set_sweeps (n : nat) (s : St) : St :=
  mkSt (clock s) (launches s) n (children s) (reaped s) (process s)
       (retry_count s) (last_reload s) (pending_restart s) (reset_at s) (trace s).
Definition set_children (l : list Proc) (s : St) : St :=
  mkSt (clock s) (launches s) (sweeps s) l (reaped s) (process s)
       (retry_count s) (last_reload s) (pending_restart s) (reset_at s) (trace s).
Definition set_reaped (l : list nat) (s : St) : St :=
  mkSt (clock s) (launches s) (sweeps s) (children s) l (process s)
       (retry_count s) (last_reload s) (pending_restart s) (reset_at s) (trace s).
Definition set_process (p : option Proc) (s : St) : St :=
  mkSt (clock s) (launches s) (sweeps s) (children s) (reaped s) p
       (retry_count s) (last_reload s) (pending_restart s) (reset_at s) (trace s).
Definition set_retry_count (n : nat) (s : St) : St :=
  mkSt (clock s) (launches s) (sweeps s) (children s) (reaped s) (process s)
       n (last_reload s) (pending_restart s) (reset_at s) (trace s).
Definition set_last_reload (t : Z) (s : St) : St :=
  mkSt (clock s) (launches s) (sweeps s) (children s) (reaped s) (process s)
       (retry_count s) t (pending_restart s) (reset_at s) (trace s).
Definition set_pending_restart (b : bool) (s : St) : St :=
  mkSt (clock s) (launches s) (sweeps s) (children s) (reaped s) (process s)
       (retry_count s) (last_reload s) b (reset_at s) (trace s).
Definition set_reset_at (d : option Z) (s : St) : St :=
  mkSt (clock s) (launches s) (sweeps s) (children s) (reaped s) (process s)
       (retry_count s) (last_reload s) (pending_restart s) d (trace s).
Definition set_trace (t : list Act) (s : St) : St :=
  mkSt (clock s) (launches s) (sweeps s) (children s) (reaped s) (process s)
       (retry_count s) (last_reload s) (pending_restart s) (reset_at s) t.

(** The state of [GradioServerManager()] and [HotReloadHandler(...)] right
    after their constructors, at time [t0]. *)
Definition init (t0 : Z) : St :=
  mkSt t0 0 0 [] [] None 0 0 false None [].

(** ** Exceptions and the monad of the program *)

Inductive Exn := TimeoutExpired | OSError | PsNoSuchProcess | OtherError.

Inductive Res (A : Type) :=
| Ret (a : A)
| Raise (e : Exn)
| Diverge.
Arguments Ret {A} a.
Arguments Raise {A} e.
Arguments Diverge {A}.

Definition M (A : Type) : Type := St -> St * Res A.

Definition ret {A} (a : A) : M A := fun s => (s, Ret a).
Definition raise {A} (e : Exn) : M A := fun s => (s, Raise e).
Definition diverge {A} : M A := fun s => (s, Diverge).

Definition bind {A B} (m : M A) (f : A -> M B) : M B :=
  fun s =>
    match m s with
    | (s', Ret a) => f a s'
    | (s', Raise e) => (s', Raise e)
    | (s', Diverge) => (s', Diverge)
    end.

(** [try: m  except <those e with sel e>: h e] *)
Definition try_except {A} (m : M A) (sel : Exn -> bool) (h : Exn -> M A) : M A :=
  fun s =>
    match m s with
    | (s', Raise e) => if sel e then h e s' else (s', Raise e)
    | r => r
    end.

Declare Scope prog_scope.
Delimit Scope prog_scope with prog.
Notation "x <- m ;; k" := (bind m (fun x => k))
  (at level 100, m at next level, right associativity) : prog_scope.
Notation "m ;; k" := (bind m (fun _ => k))
  (at level 100, right associativity) : prog_scope.
Open Scope prog_scope.

Definition get {A} (f : St -> A) : M A := fun s => (s, Ret (f s)).
Definition modify (f : St -> St) : M unit := fun s => (f s, Ret tt).
Definition emit (a : Act) : M unit := modify (fun s => set_trace (a :: trace s) s).
Definition print (m : Msg) : M unit := emit (APrint m).

(** [time.sleep(ms / 1000)] *)
Definition sleep (ms : Z) : M unit :=
  emit (ASleep ms) ;; modify (fun s => set_clock (clock s + ms) s).

(** ** Platform calls *)

Definition reaped_pid (n : nat) (s : St) : bool := existsb (Nat.eqb n) (reaped s).

(** The moment the child exits by itself, if it does. *)
Definition natural_death (p : Proc) : option Z :=
  match lifetime (behaviour p) with
  | Some d => Some (spawned_at p + Z.of_nat d)
  | None => None
  end.

(** [p.poll() is None] *)
Definition alive (p : Proc) (s : St) : bool :=
  negb (reaped_pid (pid p) s)
  && match natural_death p with
     | Some t => clock s <? t
     | None => true
     end.

Definition poll_is_none (p : Proc) : M bool := get (alive p).

(** The children of this manager that run at the moment. *)
Definition live_children (s : St) : list Proc :=
  filter (fun p => alive p s) (children s).

Definition reap (p : Proc) (at_time : Z) : M unit :=
  modify (fun s => set_clock at_time (set_reaped (pid p :: reaped s) s)).

(** The earlier of a deadline and the child's own exit. *)
Definition exit_time (p : Proc) (t : Z) : Z :=
  match natural_death p with
  | Some n => Z.min n t
  | None => t
  end.

(** [p.terminate()]: [send_signal] polls first and returns when the child
    has already exited. *)
Definition terminate (p : Proc) : M unit :=
  a <- poll_is_none p ;;
  if a then
    match on_term (behaviour p) with
    | TermRaises => raise OSError
    | _ => emit (ATerminate (pid p))
    end
  else ret tt.

(** [p.wait(timeout=t)] after [terminate]. *)
Definition wait_timeout (p : Proc) (t : Z) : M unit :=
  emit (AWait (pid p) (Some t)) ;;
  a <- poll_is_none p ;;
  if a then
    now <- get clock ;;
    let by_signal :=
      match on_term (behaviour p) with
      | TermExits d => Some (now + Z.of_nat d)
      | _ => None
      end in
    let ends :=
      match by_signal with
      | Some e => Some (exit_time p e)
      | None => natural_death p
      end in
    match ends with
    | Some e =>
        if e <=? now + t then reap p e
        else (modify (set_clock (now + t)) ;; raise TimeoutExpired)
    | None => modify (set_clock (now + t)) ;; raise TimeoutExpired
    end
  else ret tt.

(** [p.kill()] *)
Definition kill (p : Proc) : M unit :=
  a <- poll_is_none p ;;
  if a then
    match on_kill (behaviour p) with
    | KillRaises => raise OSError
    | _ => emit (AKill (pid p))
    end
  else ret tt.

(** [p.wait()], no timeout: it is back when the child has exited, on the
    signal or by itself, and blocks for good when the child never does. *)
Definition wait (p : Proc) : M unit :=
  emit (AWait (pid p) None) ;;
  a <- poll_is_none p ;;
  if a then
    now <- get clock ;;
    match on_kill (behaviour p), natural_death p with
    | KillExits d, _ => reap p (exit_time p (now + Z.of_nat d))
    | _, Some n => modify (set_clock n)
    | _, None => diverge
    end
  else ret tt.

Section Program.

Variable env : Env.

(** [subprocess.Popen([sys.executable, demo_path], ...)] *)
Definition Popen : M Proc :=
  n <- get launches ;;
  modify (set_launches (S n)) ;;
  match popen_plan env n with
  | PopenRaises => emit APopenFailed ;; raise OSError
  | Spawns b =>
      now <- get clock ;;
      k <- get (fun s => List.length (live_children s)) ;;
      let p := Build_Proc n now b in
      modify (fun s => set_children (p :: children s) s) ;;
      emit (APopen n k) ;;
      ret p
  end.

(** [proc.kill()] of psutil, on the process [n], answered by [r]. *)
Definition ps_kill (n : nat) (r : PsResp) : M unit :=
  match r with
  | PsKilled => emit (APsKill n)
  | PsGone => raise PsNoSuchProcess
  | PsError => raise OtherError
  end.

(** [proc.info['connections'] or []] *)
Definition conns (p : PsProc) : list Conn :=
  match connections p with
  | Some cs => cs
  | None => []
  end.

Definition is_ps_error (e : Exn) : bool :=
  match e with PsNoSuchProcess => true | _ => false end.

Definition any_exception (e : Exn) : bool := true.

Definition is_timeout (e : Exn) : bool :=
  match e with TimeoutExpired => true | _ => false end.

(** The loop over the connections of the process [n] (lines 171-175): for
    each one on the port the log line, [proc.kill()] and [time.sleep(1)];
    there is no [break], so a process with two connections on the port is
    killed twice. *)
Fixpoint conn_loop (port : Z) (n : nat) (cs : list Conn) : M unit :=
  match cs with
  | [] => ret tt
  | c :: cs' =>
      (if laddr_port c =? port then
         print (MKillingOnPort port n) ;;
         ps_kill n (kill_resp c) ;;
         sleep 1000
       else ret tt) ;;
      conn_loop port n cs'
  end.

(** The loop over the processes (lines 169-177): one of the three psutil
    exceptions ends the connections of that process and the loop goes on
    with the next. *)
Fixpoint sweep_loop (port : Z) (l : list PsProc) : M unit :=
  match l with
  | [] => ret tt
  | p :: l' =>
      try_except
        (conn_loop port (ps_pid p) (conns p))
        is_ps_error (fun _ => ret tt) ;;
      sweep_loop port l'
  end.

(** [GradioServerManager.kill_process_on_port] *)
Definition kill_process_on_port (port : Z) : M unit :=
  try_except
    (n <- get sweeps ;;
     modify (set_sweeps (S n)) ;;
     match sweep_plan env n with
     | IterRaises => raise OtherError
     | Holders l => sweep_loop port l
     end)
    any_exception (fun _ => print MErrPort).

(** [GradioServerManager.start_server] *)
Definition start_server : M bool :=
  try_except
    (kill_process_on_port port ;;
     print MStarting ;;
     print MAvailable ;;
     p <- Popen ;;
     modify (set_process (Some p)) ;;
     emit (AMonitorThread (pid p)) ;;
     sleep 3000 ;;
     a <- poll_is_none p ;;
     if a then
       print MStarted ;;
       modify (set_retry_count 0) ;;
       ret true
     else
       print MFailedStart ;;
       ret false)
    any_exception (fun _ => print MErrStarting ;; ret false).

(** [GradioServerManager.kill_current_process] *)
Definition kill_current_process : M unit :=
  cur <- get process ;;
  match cur with
  | None => ret tt
  | Some p =>
      a <- poll_is_none p ;;
      if a then
        print MStopping ;;
        try_except
          (terminate p ;; wait_timeout p 5000)
          any_exception
          (fun e =>
             if is_timeout e then       (* except subprocess.TimeoutExpired *)
               print MForceKill ;; kill p ;; wait p
             else                       (* except Exception *)
               print MErrStopping)
      else ret tt
  end.

(** The characters [str.rstrip()] strips: the white space of Unicode, by
    code point (tab to carriage return, the separators 1C to 1F, space, NEL,
    the no-break space, the Ogham space mark, the spaces 2000 to 200A, the line
    and paragraph separators, the narrow no-break space, the medium
    mathematical space and the ideographic space). *)
Definition is_space (c : Z) : bool :=
  ((9 <=? c) && (c <=? 13)) || ((28 <=? c) && (c <=? 32))
  || (c =? 133) || (c =? 160) || (c =? 5760)
  || ((8192 <=? c) && (c <=? 8202))
  || (c =? 8232) || (c =? 8233) || (c =? 8239) || (c =? 8287)
  || (c =? 12288).

(** [line.rstrip()], on a [str] given by its code points. *)
Fixpoint rstrip (l : list Z) : list Z :=
  match l with
  | [] => []
  | c :: l' =>
      match rstrip l' with
      | [] => if is_space c then [] else [c]
      | r => c :: r
      end
  end.

(** A result of [self.process.stdout.readline()]: a [str], or an
    exception. *)
Inductive Read := ReadLine (l : list Z) | ReadRaises.

(** The truth value of a [str]. *)
Definition truthy (l : list Z) : bool :=
  match l with
  | [] => false
  | _ => true
  end.

(** The loop over [iter(self.process.stdout.readline, '')]: [reads] are the
    successive results of [readline]; the empty string, which [iter] takes as
    its sentinel, is the end of the output, and so is the end of [reads]. *)
Fixpoint print_lines (reads : list Read) : M unit :=
  match reads with
  | [] => ret tt
  | ReadRaises :: _ => raise OtherError
  | ReadLine l :: rest =>
      if truthy l then
        (if truthy l then print (MServerLine (rstrip l)) else ret tt) ;;
        print_lines rest
      else ret tt
  end.

(** [GradioServerManager.monitor_output], the body of the thread started by
    [start_server]. *)
Definition monitor_output (reads : list Read) : M unit :=
  cur <- get process ;;
  match cur with
  | None => ret tt
  | Some _ =>
      try_except (print_lines reads)
        any_exception (fun _ => print MErrMonitor)
  end.

(** [GradioServerManager.handle_restart_failure]; [again] is the call
    [self.restart_server()]. *)
Definition handle_restart_failure (again : M unit) : M unit :=
  modify (fun s => set_retry_count (S (retry_count s)) s) ;;
  rc <- get retry_count ;;
  if (rc <? max_retries)%nat then
    print (MRetry rc) ;;
    sleep 3000 ;;
    again
  else
    print MMaxRetries ;;
    modify (set_retry_count 0).

(** [GradioServerManager.restart_server]; the recursion through
    [handle_restart_failure] is unfolded [depth] times. *)
Fixpoint restart_server_upto (depth : nat) : M unit :=
  match depth with
  | O => diverge
  | S d =>
      print MRestarting ;;
      kill_current_process ;;
      sleep 2000 ;;
      ok <- start_server ;;
      if ok then print MRestarted
      else
        print MRestartFailed ;;
        handle_restart_failure (restart_server_upto d)
  end.

Definition restart_server : M unit := restart_server_upto max_retries.

(** [GradioServerManager.stop_server] *)
Definition stop_server : M unit :=
  print MStopServer ;;
  kill_current_process ;;
  print MStopped.

(** *** HotReloadHandler *)

(** Which [return] of [_handle_file_change] an event took (ghost result;
    the method itself returns [None]). *)
Inductive Outcome :=
| IgnoredDirectory | IgnoredExtension | IgnoredExcluded
| Debounced | LoggedPending | Accepted.

(** [Path(p).name]: what follows the last slash. *)
Fixpoint path_name_from (acc s : string) : string :=
  match s with
  | EmptyString => acc
  | String c s' =>
      if Ascii.eqb c "/"%char then path_name_from EmptyString s'
      else path_name_from (String.append acc (String c EmptyString)) s'
  end.
Definition path_name (s : string) : string := path_name_from EmptyString s.

(** The thread [reset_pending], started once [restart_server] is back:
    it sleeps one second and clears the flag. *)
Definition start_reset_pending : M unit :=
  now <- get clock ;;
  modify (set_reset_at (Some (now + 1000))) ;;
  emit (AResetThread (now + 1000)).

(** [HotReloadHandler._handle_file_change] *)
Definition _handle_file_change (event : Event) : M Outcome :=
  let path := src_path event in
  if is_directory event then ret IgnoredDirectory
  else if negb (endswith path ".py"%string || endswith path ".css"%string) then
    ret IgnoredExtension
  else if contains "__pycache__"%string path || endswith path ".pyc"%string then
    ret IgnoredExcluded
  else
    current_time <- get clock ;;
    last <- get last_reload ;;
    if current_time - last <? reload_delay then ret Debounced
    else
      pending <- get pending_restart ;;
      if pending then
        print (MAdditional (path_name path)) ;;
        ret LoggedPending
      else
        modify (set_last_reload current_time) ;;
        modify (set_pending_restart true) ;;
        print (MFileChanged (endswith path ".css"%string) (path_name path)) ;;
        print MHandlerRestarting ;;
        restart_server ;;
        start_reset_pending ;;
        ret Accepted.

(** The [reset_pending] thread wakes up when its second is over. *)
Definition reset_pending : M unit :=
  due <- get reset_at ;;
  now <- get clock ;;
  match due with
  | Some d =>
      if d <=? now then
        modify (set_pending_restart false) ;;
        modify (set_reset_at None)
      else ret tt
  | None => ret tt
  end.

(** The observer thread hands the event raised at time [t] to the handler:
    at [t], or as soon as the handler is back from the event before. *)
Definition on_change (t : Z) (event : Event) : M Outcome :=
  modify (fun s => set_clock (Z.max (clock s) t) s) ;;
  reset_pending ;;
  _handle_file_change event.

(** The observer thread over a queue of events; an exception out of the
    handler ends it. *)
Fixpoint run_events (evs : list (Z * Event)) : M (list Outcome) :=
  match evs with
  | [] => ret []
  | (t, e) :: rest =>
      o <- on_change t e ;;
      os <- run_events rest ;;
      ret (o :: os)
  end.

(** *** main *)

(** [try: m finally: f] *)
Definition finally {A} (m : M A) (f : M unit) : M A :=
  fun s =>
    match m s with
    | (s', Ret a) => (f ;; ret a) s'
    | (s', Raise e) => (f ;; raise e) s'
    | (s', Diverge) => (s', Diverge)
    end.

(** The changes [evs], each given with the time in ms that has passed since
    the moment [up], as the events the observer thread hands over. *)
Definition since (up : Z) (evs : list (nat * Event)) : list (Z * Event) :=
  map (fun de => (up + Z.of_nat (fst de), snd de)) evs.

(** [main]; the result is the exit status.  [evs] are the changes the
    watcher reports once [start_server] is back and the main thread sleeps in
    its loop, until the KeyboardInterrupt, each with the time that has passed
    since [start_server] came back.  The observer is started before
    [start_server] is called (line 242): a change reported during the launch
    runs the handler on the observer thread while the main thread is inside
    [start_server].  Such runs are left out: the operations of the manager
    are taken one at a time here. *)
Definition main (evs : list (nat * Event)) : M Z :=
  emit AObserverStart ;;
  finally
    (try_except
       (ok <- start_server ;;
        if ok then
          print MRunning ;;
          up <- get clock ;;
          try_except (run_events (since up evs) ;; ret tt)
            any_exception (fun _ => ret tt) ;;
          print MShutdown ;;
          ret 0
        else
          print MFailedToStart ;;
          ret 1)
       any_exception (fun _ => print MUnexpected ;; ret 1))
    (emit AObserverStop ;; stop_server).

End Program.

(** * Notions used in the statements *)

(** [m] takes every state to one related to it by [R], whatever its result. *)
Definition respects {A} (R : St -> St -> Prop) (m : M A) : Prop :=
  forall s, R s (fst (m s)).

(** The fields of [HotReloadHandler] are untouched. *)
Definition same_handler (s s' : St) : Prop :=
  last_reload s' = last_reload s
  /\ pending_restart s' = pending_restart s
  /\ reset_at s' = reset_at s.

(** Time does not go back. *)
Definition clock_mono (s s' : St) : Prop := clock s <= clock s'.

(** ** The filter of the handler *)

(** Line 41: the path ends in a watched extension. *)
Definition recognized (path : string) : bool :=
  endswith path ".py"%string || endswith path ".css"%string.

(** Line 45: the path is a compiled-cache artifact. *)
Definition excluded (path : string) : bool :=
  contains "__pycache__"%string path || endswith path ".pyc"%string.

(** The [return] an event takes, read off the state: the checks in the
    order of the code (debounce before the pending flag). *)
Definition decision (event : Event) (s : St) : Outcome :=
  if is_directory event then IgnoredDirectory
  else if negb (recognized (src_path event)) then IgnoredExtension
  else if excluded (src_path event) then IgnoredExcluded
  else if clock s - last_reload s <? reload_delay then Debounced
  else if pending_restart s then LoggedPending
  else Accepted.

(** The same checks in the order the specification lists them: the pending
    flag (4) before the debounce interval (5). *)
Definition decision_as_specified (event : Event) (s : St) : Outcome :=
  if is_directory event then IgnoredDirectory
  else if negb (recognized (src_path event)) then IgnoredExtension
  else if excluded (src_path event) then IgnoredExcluded
  else if pending_restart s then LoggedPending
  else if clock s - last_reload s <? reload_delay then Debounced
  else Accepted.

(** What the handler does with an event once the outcome is decided. *)
Definition effect (env : Env) (o : Outcome) (event : Event) : M Outcome :=
  match o with
  | Accepted =>
      now <- get clock ;;
      modify (set_last_reload now) ;;
      modify (set_pending_restart true) ;;
      print (MFileChanged (endswith (src_path event) ".css"%string)
                          (path_name (src_path event))) ;;
      print MHandlerRestarting ;;
      restart_server env ;;
      start_reset_pending ;;
      ret Accepted
  | LoggedPending =>
      print (MAdditional (path_name (src_path event))) ;;
      ret LoggedPending
  | o => ret o
  end.




(** The state in which an accepted event hands over to [restart_server]. *)
Definition accepted_state (event : Event) (s : St) : St :=
  set_trace
    (APrint MHandlerRestarting
     :: APrint (MFileChanged (endswith (src_path event) ".css"%string)
                             (path_name (src_path event)))
     :: trace s)
    (set_pending_restart true (set_last_reload (clock s) s)).

(** ** Sequences of operations *)





(** ** Events in time *)

(** An event that passes the three filters on the event itself. *)
Definition eligible (event : Event) : bool :=
  negb (is_directory event)
  && recognized (src_path event)
  && negb (excluded (src_path event)).

(** What happens before the handler looks at an event raised at [t]: time
    has moved on to [t] at least, and the [reset_pending] thread has run if
    its second is over. *)
Definition before_handler (t : Z) : M unit :=
  modify (fun s => set_clock (Z.max (clock s) t) s) ;;
  reset_pending.

(** The state the handler sees at time [t]. *)
Definition seen_at (t : Z) (s : St) : St := fst (before_handler t s).

(** Restarts triggered by the handler so far (line 69). *)
Definition is_handler_restart (a : Act) : bool :=
  match a with
  | APrint MHandlerRestarting => true
  | _ => false
  end.

Definition handler_restarts (s : St) : nat :=
  List.length (filter is_handler_restart (trace s)).

Definition same_handler_restarts (s s' : St) : Prop :=
  handler_restarts s' = handler_restarts s.

Definition is_accepted (o : Outcome) : bool :=
  match o with
  | Accepted => true
  | _ => false
  end.

(** The handler is past an accepted event of time [t0]: the flag is set,
    the [reset_pending] thread has not run yet, and the restart took its two
    seconds at least. *)
Definition in_flight (t0 : Z) (s : St) : Prop :=
  pending_restart s = true
  /\ last_reload s = t0
  /\ t0 + reload_delay <= clock s
  /\ exists d, reset_at s = Some d /\ clock s < d.

(** ** Relations between states, and conditions on them *)

(** The set of children, the handle and the launch counter are the same;
    children only exit; no launch is logged. *)
Definition still (s s' : St) : Prop :=
  children s' = children s
  /\ process s' = process s
  /\ launches s' = launches s
  /\ incl (reaped s) (reaped s')
  /\ (forall n k, In (APopen n k) (trace s') -> In (APopen n k) (trace s)).

(** [m] comes back: with a value or with an exception. *)
Definition total {A} (m : M A) : Prop := forall s, snd (m s) <> Diverge.

(** [m] comes back with a value. *)
Definition returns {A} (m : M A) : Prop := forall s, exists a, snd (m s) = Ret a.

(** Signalling a child with this behaviour does not raise. *)
Definition signal_safe (b : Behaviour) : Prop :=
  on_term b <> TermRaises /\ exists d, on_kill b = KillExits d.

(** The child behind the manager's handle, if any, can be signalled. *)
Definition current_safe (s : St) : Prop :=
  forall p, process s = Some p -> signal_safe (behaviour p).

(** The child behind the manager's handle, if any, has exited. *)
Definition current_dead (s : St) : Prop :=
  forall p, process s = Some p -> alive p s = false.

(** No child of the manager runs. *)
Definition none_alive (s : St) : Prop :=
  forall p, In p (children s) -> alive p s = false.

(** ** The manager, path by path *)

(** When [wait(timeout=5)] after SIGTERM comes back in time: the moment the
    child is gone, if that is within five seconds of [now]. *)
Definition graceful_end (p : Proc) (now : Z) : option Z :=
  let ends :=
    match on_term (behaviour p) with
    | TermExits d => Some (exit_time p (now + Z.of_nat d))
    | _ => natural_death p
    end in
  match ends with
  | Some e => if e <=? now + 5000 then Some e else None
  | None => None
  end.

(** The actions [l], newest first, put on the trace. *)
Definition log (l : list Act) (s : St) : St := set_trace (l ++ trace s) s.

(** [kill_current_process], path by path. *)
Definition kcp_flat (s : St) : St * Res unit :=
  match process s with
  | None => (s, Ret tt)
  | Some p =>
      if alive p s then
        match on_term (behaviour p) with
        | TermRaises => (log [APrint MErrStopping; APrint MStopping] s, Ret tt)
        | _ =>
            let waited := [AWait (pid p) (Some 5000); ATerminate (pid p); APrint MStopping] in
            match graceful_end p (clock s) with
            | Some e => (set_clock e (set_reaped (pid p :: reaped s) (log waited s)), Ret tt)
            | None =>
                match on_kill (behaviour p) with
                | KillRaises =>
                    (set_clock (clock s + 5000) (log (APrint MForceKill :: waited) s), Raise OSError)
                | KillExits d =>
                    (set_clock (exit_time p (clock s + 5000 + Z.of_nat d))
                       (set_reaped (pid p :: reaped s)
                          (log (AWait (pid p) None :: AKill (pid p) :: APrint MForceKill :: waited) s)),
                     Ret tt)
                | KillHangs =>
                    let s1 :=
                      log (AWait (pid p) None :: AKill (pid p) :: APrint MForceKill :: waited) s in
                    match natural_death p with
                    | Some n => (set_clock n s1, Ret tt)
                    | None => (set_clock (clock s + 5000) s1, Diverge)
                    end
                end
            end
        end
      else (s, Ret tt)
  end.

(** [start_server] from the state the port sweep leaves, outcome by
    outcome. *)
Definition start_server_flat (env : Env) (s0 : St) : St * Res bool :=
  let s1 := log [APrint MAvailable; APrint MStarting] s0 in
  let n := launches s0 in
  match popen_plan env n with
  | PopenRaises =>
      (log [APrint MErrStarting; APopenFailed] (set_launches (S n) s1), Ret false)
  | Spawns b =>
      let p := Build_Proc n (clock s0) b in
      let s2 :=
        set_clock (clock s0 + 3000)
          (log [ASleep 3000; AMonitorThread n;
                APopen n (List.length (live_children s0))]
             (set_process (Some p)
                (set_children (p :: children s0) (set_launches (S n) s1)))) in
      if alive p s2 then (set_retry_count 0 (log [APrint MStarted] s2), Ret true)
      else (log [APrint MFailedStart] s2, Ret false)
  end.

(** [Popen], outcome by outcome. *)
Definition Popen_flat (env : Env) (s : St) : St * Res Proc :=
  let n := launches s in
  match popen_plan env n with
  | PopenRaises => (log [APopenFailed] (set_launches (S n) s), Raise OSError)
  | Spawns b =>
      let p := Build_Proc n (clock s) b in
      (log [APopen n (List.length (live_children s))]
         (set_children (p :: children s) (set_launches (S n) s)),
       Ret p)
  end.

(** ** The invariant of the manager *)

(** Children carry distinct numbers below the launch counter; a child that
    runs is the one behind the manager's handle; every launch so far was made
    with no child running. *)
Record Inv (s : St) : Prop := mkInv
  { inv_pids : forall p, In p (children s) -> (pid p < launches s)%nat;
    inv_nodup : NoDup (map pid (children s));
    inv_tidy : forall p, In p (children s) -> alive p s = true ->
                         process s = Some p;
    inv_popen : forall n k, In (APopen n k) (trace s) -> k = 0%nat }.

(** Every child the environment hands out can be signalled. *)
Definition cooperative (env : Env) : Prop :=
  forall n b, popen_plan env n = Spawns b -> signal_safe b.

(** The retry counter is untouched. *)
Definition same_retry (s s' : St) : Prop := retry_count s' = retry_count s.

(** [handle_restart_failure], branch by branch. *)
Definition handle_restart_failure_flat (again : M unit) (s : St)
  : St * Res unit :=
  let rc := S (retry_count s) in
  if (rc <? max_retries)%nat then
    again (set_clock (clock s + 3000)
             (log [ASleep 3000; APrint (MRetry rc)] (set_retry_count rc s)))
  else
    (set_retry_count 0 (log [APrint MMaxRetries] s), Ret tt).

(** One round of [restart_server]: stop, settle, launch. *)
Definition settled (s1 : St) : St :=
  set_clock (clock s1 + 2000) (log [ASleep 2000] s1).

Definition restart_round (env : Env) (again : M unit) (s : St)
  : St * Res unit :=
  match kill_current_process (log [APrint MRestarting] s) with
  | (s1, Ret _) =>
      match start_server env (settled s1) with
      | (s3, Ret true) => (log [APrint MRestarted] s3, Ret tt)
      | (s3, Ret false) =>
          handle_restart_failure again (log [APrint MRestartFailed] s3)
      | (s3, Raise e) => (s3, Raise e)
      | (s3, Diverge) => (s3, Diverge)
      end
  | (s1, Raise e) => (s1, Raise e)
  | (s1, Diverge) => (s1, Diverge)
  end.

(** ** Launch failures and the retry log *)

(** The n-th launch fails: [Popen] raises, or the child has exited when the
    three seconds of startup grace are over. *)
Definition launch_fails (env : Env) (n : nat) : bool :=
  match popen_plan env n with
  | PopenRaises => true
  | Spawns b =>
      match lifetime b with
      | Some d => Z.of_nat d <=? 3000
      | None => false
      end
  end.

(** The n-th launch gives a child that exits within the startup grace. *)
Definition exits_early (env : Env) (n : nat) : bool :=
  match popen_plan env n with
  | PopenRaises => false
  | Spawns b =>
      match lifetime b with
      | Some d => Z.of_nat d <=? 3000
      | None => false
      end
  end.

(** The actions that tell the retry policy: the start of a round, the
    three-second waits (startup grace and backoff), the retry and the
    abandonment lines. *)
Definition is_retry_act (a : Act) : bool :=
  match a with
  | APrint MRestarting | APrint (MRetry _) | APrint MMaxRetries => true
  | ASleep ms => ms =? 3000
  | _ => false
  end.

Definition retry_view (s : St) : list Act := filter is_retry_act (trace s).

Definition same_view (s s' : St) : Prop := retry_view s' = retry_view s.

(** The manager can stop what is behind its handle: nothing runs there, or
    what runs can be signalled. *)
Definition stoppable (s : St) : Prop := current_dead s \/ current_safe s.

(** ** The time a restart takes *)

(** The longest [kill_current_process] takes when it comes back: five
    seconds for SIGTERM, then what the child needs to go on SIGKILL, or to exit
    by itself when SIGKILL does not end it. *)
Definition kill_cost (s : St) : Z :=
  match process s with
  | Some p =>
      if alive p s then
        5000 + match on_kill (behaviour p) with
               | KillExits d => Z.of_nat d
               | KillRaises => 0
               | KillHangs =>
                   match natural_death p with
                   | Some n => Z.max 0 (n - (clock s + 5000))
                   | None => 0
                   end
               end
      else 0
  | None => 0
  end.

(** The test of line 172. *)
Definition on_port (z : Z) (c : Conn) : bool := laddr_port c =? z.

(** The connections on the port [z] among those of the processes [l]. *)
Fixpoint port_conns (z : Z) (l : list PsProc) : nat :=
  match l with
  | [] => O
  | p :: l' => (List.length (filter (on_port z) (conns p)) + port_conns z l')%nat
  end.

(** The longest the n-th port sweep sleeps: a second for each connection on
    the port. *)
Definition sweep_time_on (z : Z) (env : Env) (n : nat) : Z :=
  match sweep_plan env n with
  | IterRaises => 0
  | Holders l => 1000 * Z.of_nat (port_conns z l)
  end.

Definition sweep_time (env : Env) (n : nat) : Z := sweep_time_on port env n.


Definition same_sweeps (s s' : St) : Prop := sweeps s' = sweeps s.



(** ** Sample environments, events and states *)

(** Every launch raises; the port is free. *)
(** A process with one connection, on the port of the server, for which
    [proc.kill()] answers [r]. *)
Definition holder (n : nat) (r : PsResp) : PsProc :=
  Build_PsProc n (Some [Build_Conn port r]).

Definition env_no_launch : Env :=
  Build_Env (fun _ => PopenRaises) (fun _ => Holders []).

Definition py_event : Event := Build_Event false "app.py".

(** A child that exits on SIGTERM within a tenth of a second. *)
Definition obedient : Behaviour :=
  Build_Behaviour None (TermExits 100) (KillExits 10).

(** A child that ignores SIGTERM. *)
Definition stubborn : Behaviour :=
  Build_Behaviour None TermIgnored (KillExits 10).

(** A child that exits by itself half a second after its launch. *)
Definition crashing : Behaviour :=
  Build_Behaviour (Some 500%nat) (TermExits 100) (KillExits 10).

(** A child that ignores SIGTERM and cannot be sent SIGKILL. *)
Definition unkillable : Behaviour :=
  Build_Behaviour None TermIgnored KillRaises.

(** Every launch gives an obedient child; the port is free. *)
Definition env_good : Env :=
  Build_Env (fun _ => Spawns obedient) (fun _ => Holders []).

(** The first launch gives a stubborn child, the later ones crash; each
    sweep finds two stale processes on the port. *)
Definition env_crashing : Env :=
  Build_Env (fun n => match n with O => Spawns stubborn | _ => Spawns crashing end)
            (fun _ => Holders [holder 4242 PsKilled; holder 4243 PsGone]).

(** Every launch gives a child that crashes during startup. *)
Definition env_all_crash : Env :=
  Build_Env (fun _ => Spawns crashing) (fun _ => Holders []).

(** The only launch gives a child that cannot be stopped. *)
Definition env_unkillable : Env :=
  Build_Env (fun _ => Spawns unkillable) (fun _ => Holders []).

(** The manager right after a successful launch in [env_good]. *)
Definition serving_state : St := fst (start_server env_good (init 0)).

(** The manager right after a successful launch of a child that cannot be
    stopped. *)
Definition unkillable_state : St := fst (start_server env_unkillable (init 0)).

(** The manager right after the launch of a stubborn child, in an
    environment where every later launch crashes. *)
Definition stubborn_state : St := fst (start_server env_crashing (init 0)).

(** A child for which [terminate()] raises. *)
Definition deaf : Behaviour :=
  Build_Behaviour None TermRaises (KillExits 10).

Definition env_deaf : Env :=
  Build_Env (fun _ => Spawns deaf) (fun _ => Holders []).

Definition deaf_state : St := fst (start_server env_deaf (init 0)).

(** The first launch gives a child for which [terminate()] raises, the
    later ones crash during startup; and the manager right after that first
    launch. *)
Definition env_deaf_crashing : Env :=
  Build_Env (fun n => match n with O => Spawns deaf | _ => Spawns crashing end)
            (fun _ => Holders []).

Definition deaf_crashing_state : St :=
  fst (start_server env_deaf_crashing (init 0)).

(** The manager after the change of [app.py] was handled in
    [serving_state]. *)
Definition after_change_state : St :=
  fst (_handle_file_change env_good py_event serving_state).


(** Three changes within a second, the first at 5.0 s. *)
Definition burst_tail_events : list (Z * Event) :=
  [(5300, Build_Event false "ui/style.css");
   (5800, Build_Event false "ui_components.py")].

(** Three changes within a second, the first at 8.2 s: in
    [after_change_state] the restart is back since 8.1 s and the
    [reset_pending] thread wakes up at 9.1 s. *)
Definition late_burst_events : list (Z * Event) :=
  [(8200, py_event);
   (8500, Build_Event false "ui/style.css");
   (8800, Build_Event false "ui_components.py")].







(** A restart is pending; the last accepted event came at 1.0 s, it is
    1.5 s now. *)
Definition pending_state : St :=
  set_pending_restart true (set_last_reload 1000 (init 1500)).

(** ** The port sweep *)

(** The calls of [proc.kill()] the loop makes for the connections [cs] of one
    process, as the answers they get: one for each connection on the port,
    up to the first call that raises. *)
Fixpoint conn_calls (z : Z) (cs : list Conn) : list PsResp :=
  match cs with
  | [] => []
  | c :: cs' =>
      if on_port z c then
        match kill_resp c with
        | PsKilled => PsKilled :: conn_calls z cs'
        | r => [r]
        end
      else conn_calls z cs'
  end.

(** The calls a pass over the processes [l] makes, process after process,
    as long as none of them ends the pass. *)
Fixpoint sweep_calls (z : Z) (l : list PsProc) : list PsResp :=
  match l with
  | [] => []
  | p :: l' => conn_calls z (conns p) ++ sweep_calls z l'
  end.

(** How the calls [l] made for one process end its loop. *)
Fixpoint calls_result (l : list PsResp) : Res unit :=
  match l with
  | [] => Ret tt
  | PsKilled :: rest => calls_result rest
  | PsGone :: _ => Raise PsNoSuchProcess
  | PsError :: _ => Raise OtherError
  end.

(** The first call made for the process [p], if any. *)
Definition first_call (z : Z) (p : PsProc) : option PsResp :=
  hd_error (conn_calls z (conns p)).

(** The process has a connection on the port. *)
Definition holds_port (z : Z) (p : PsProc) : bool :=
  existsb (on_port z) (conns p).

(** Among the calls [l], those that send the signal: the answers [PsKilled]
    before the first error that is not one of the three psutil exceptions. *)
Fixpoint sweep_kills (l : list PsResp) : nat :=
  match l with
  | [] => O
  | PsKilled :: rest => S (sweep_kills rest)
  | PsGone :: rest => sweep_kills rest
  | PsError :: _ => O
  end.

(** The calls [l] meet such an error. *)
Fixpoint sweep_aborts (l : list PsResp) : bool :=
  match l with
  | [] => false
  | PsError :: _ => true
  | _ :: rest => sweep_aborts rest
  end.

Definition is_ps_kill (a : Act) : bool :=
  match a with
  | APsKill _ => true
  | _ => false
  end.

(** Calls of [proc.kill()] that sent the signal so far. *)
Definition ps_kills (s : St) : nat :=
  List.length (filter is_ps_kill (trace s)).

Definition is_port_error (a : Act) : bool :=
  match a with
  | APrint MErrPort => true
  | _ => false
  end.

(** Sweeps that ended in the line [Error checking port]. *)
Definition port_errors (s : St) : nat :=
  List.length (filter is_port_error (trace s)).

Definition is_ps_killed (r : PsResp) : bool :=
  match r with
  | PsKilled => true
  | _ => false
  end.

(** The calls among [l] that psutil answers by sending the signal. *)
Definition killable (l : list PsResp) : nat :=
  List.length (filter is_ps_killed l).

(** One process with two connections on the port of the server and one
    elsewhere, and one process that is not on the port. *)
Definition twice_on_port : list PsProc :=
  [Build_PsProc 4242
     (Some [Build_Conn port PsKilled; Build_Conn 22 PsKilled;
            Build_Conn port PsKilled]);
   Build_PsProc 17 (Some [Build_Conn 8080 PsKilled])].

(** Every pass of [psutil.process_iter] yields the processes [l]. *)
Definition env_with_port (l : list PsProc) : Env :=
  Build_Env (fun _ => Spawns (Build_Behaviour None (TermExits 100) (KillExits 10)))
            (fun _ => Holders l).

(** What the loop over the connections [cs] of the process [n] writes,
    newest first. *)
Fixpoint conn_trace (z : Z) (n : nat) (cs : list Conn) : list Act :=
  match cs with
  | [] => []
  | c :: cs' =>
      if on_port z c then
        match kill_resp c with
        | PsKilled =>
            conn_trace z n cs'
            ++ [ASleep 1000; APsKill n; APrint (MKillingOnPort z n)]
        | _ => [APrint (MKillingOnPort z n)]
        end
      else conn_trace z n cs'
  end.

(** What the pass over the processes [l] writes, newest first. *)
Fixpoint sweep_trace (z : Z) (l : list PsProc) : list Act :=
  match l with
  | [] => []
  | p :: l' =>
      if sweep_aborts (conn_calls z (conns p)) then
        conn_trace z (ps_pid p) (conns p)
      else sweep_trace z l' ++ conn_trace z (ps_pid p) (conns p)
  end.

(** [ms] later, with the actions [l] on the log. *)
Definition advanced (ms : Z) (l : list Act) (s : St) : St :=
  set_clock (clock s + ms) (set_trace (l ++ trace s) s).

(** ** The output of the child *)

(** The lines read before the output ends or a read raises. *)
Fixpoint lines_read (reads : list Read) : list (list Z) :=
  match reads with
  | ReadLine (c :: l) :: rest => (c :: l) :: lines_read rest
  | _ => []
  end.

(** A read raises before the output has ended. *)
Fixpoint read_fails (reads : list Read) : bool :=
  match reads with
  | ReadLine (_ :: _) :: rest => read_fails rest
  | ReadRaises :: _ => true
  | _ => false
  end.

(** The log lines [monitor_output] writes for the lines read, newest
    first. *)
Definition server_log (reads : list Read) : list Act :=
  rev (map (fun l => APrint (MServerLine (rstrip l))) (lines_read reads)).

(** The manager after the burst of three changes was handled in
    [serving_state]. *)
Definition after_burst_state : St :=
  fst (run_events env_good ((5000, py_event) :: burst_tail_events)
         serving_state).

(** ** The debounce test in a run *)

(** The last accepted event is a debounce interval old at least. *)
Definition debounce_over (s : St) : Prop :=
  last_reload s + reload_delay <= clock s.

(** The three [return]s of the filter on the event alone. *)
Definition is_ignored (o : Outcome) : bool :=
  match o with
  | IgnoredDirectory | IgnoredExtension | IgnoredExcluded => true
  | _ => false
  end.

(** The numbers of the child behind the handle and of the children reaped
    so far are below the launch counter: the next launch gets a new one. *)
Definition known_pids (s : St) : Prop :=
  (forall p, process s = Some p -> (pid p < launches s)%nat)
  /\ (forall n, In n (reaped s) -> (n < launches s)%nat).

(** The pending flag is set and no [reset_pending] thread is there to
    clear it. *)
Definition stuck (s : St) : Prop :=
  pending_restart s = true /\ reset_at s = None.

(** Whatever still runs behind the handle is a child for which
    [terminate()] raises: stopping it is an error that line 163 swallows. *)
Definition calm (s : St) : Prop :=
  forall p, process s = Some p -> alive p s = true ->
            on_term (behaviour p) = TermRaises.

(** Nothing but the clock, the sweep counter and the log differs. *)
Definition only_time_and_log (s s' : St) : Prop :=
  launches s' = launches s
  /\ children s' = children s
  /\ reaped s' = reaped s
  /\ process s' = process s
  /\ retry_count s' = retry_count s
  /\ last_reload s' = last_reload s
  /\ pending_restart s' = pending_restart s
  /\ reset_at s' = reset_at s.

(** * Reasoning about programs *)


Section Respects.

Variable R : St -> St -> Prop.
Hypothesis R_refl : forall s, R s s.
Hypothesis R_trans : forall a b c, R a b -> R b c -> R a c.

Lemma respects_ret {A} (a : A) : respects R (ret a).
Proof. intros s; apply R_refl. Qed.

Lemma respects_raise {A} e : respects R (@raise A e).
Proof. intros s; apply R_refl. Qed.

Lemma respects_diverge {A} : respects R (@diverge A).
Proof. intros s; apply R_refl. Qed.

Lemma respects_get {A} (f : St -> A) : respects R (get f).
Proof. intros s; apply R_refl. Qed.

Lemma respects_modify f : (forall s, R s (f s)) -> respects R (modify f).
Proof. intros H s; apply H. Qed.

Lemma respects_bind {A B} (m : M A) (f : A -> M B) :
  respects R m -> (forall a, respects R (f a)) -> respects R (bind m f).
Proof.
  intros Hm Hf s. unfold bind. specialize (Hm s).
  destruct (m s) as [s1 [a | e |]]; simpl in *; auto.
  eapply R_trans; [exact Hm | apply Hf].
Qed.

Lemma respects_try {A} (m : M A) sel h :
  respects R m -> (forall e, respects R (h e)) -> respects R (try_except m sel h).
Proof.
  intros Hm Hh s. unfold try_except. specialize (Hm s).
  destruct (m s) as [s1 [a | e |]]; simpl in *; auto.
  destruct (sel e); simpl; auto.
  eapply R_trans; [exact Hm | apply Hh].
Qed.

Lemma respects_finally {A} (m : M A) f :
  respects R m -> respects R f -> respects R (finally m f).
Proof.
  intros Hm Hf s. unfold finally. specialize (Hm s).
  destruct (m s) as [s1 [a | e |]]; simpl in *; auto;
    (eapply R_trans; [exact Hm |]);
    apply respects_bind; auto; intros; try apply respects_ret;
    apply respects_raise.
Qed.

Lemma respects_if {A} (b : bool) (m1 m2 : M A) :
  respects R m1 -> respects R m2 -> respects R (if b then m1 else m2).
Proof. destruct b; auto. Qed.

End Respects.

Create HintDb frame.

(** Proves [respects R m] for a program [m] built from the combinators,
    given [R] reflexive and transitive and a tactic [leaf] for the state
    updates. *)
Ltac respects_with refl trans leaf :=
  repeat
    match goal with
    | |- respects _ (ret _) => apply (respects_ret _ refl)
    | |- respects _ (raise _) => apply (respects_raise _ refl)
    | |- respects _ diverge => apply (respects_diverge _ refl)
    | |- respects _ (get _) => apply (respects_get _ refl)
    | |- respects _ (modify _) => apply respects_modify; intros; leaf
    | |- respects _ (bind _ _) => apply (respects_bind _ trans); [| intros]
    | |- respects _ (try_except _ _ _) =>
        apply (respects_try _ trans); [| intros]
    | |- respects _ (finally _ _) => apply (respects_finally _ refl trans)
    | |- respects _ (if _ then _ else _) => apply respects_if
    | |- respects _ (match ?x with _ => _ end) => destruct x
    | |- respects _ _ => solve [auto with frame]
    end.

(** ** What the manager leaves alone, and the clock *)


Lemma same_handler_refl s : same_handler s s.
Proof. repeat split. Qed.

Lemma same_handler_trans a b c :
  same_handler a b -> same_handler b c -> same_handler a c.
Proof. unfold same_handler; intuition congruence. Qed.

Lemma clock_mono_refl s : clock_mono s s.
Proof. unfold clock_mono; lia. Qed.

Lemma clock_mono_trans a b c : clock_mono a b -> clock_mono b c -> clock_mono a c.
Proof. unfold clock_mono; lia. Qed.

Ltac handler_leaf := repeat split.
Ltac frame_handler :=
  respects_with same_handler_refl same_handler_trans handler_leaf.

Ltac clock_leaf := unfold clock_mono; simpl; lia.
Ltac frame_clock :=
  respects_with clock_mono_refl clock_mono_trans clock_leaf.

Lemma alive_natural p s n :
  alive p s = true -> natural_death p = Some n -> clock s < n.
Proof.
  unfold alive. intros H E. rewrite E in H.
  apply andb_true_iff in H. destruct H as [_ H]. now apply Z.ltb_lt.
Qed.

Lemma exit_time_le p t : exit_time p t <= t.
Proof. unfold exit_time. destruct (natural_death p); lia. Qed.

Lemma exit_time_ge p s t :
  alive p s = true -> clock s <= t -> clock s <= exit_time p t.
Proof.
  intros Ha Ht. unfold exit_time.
  destruct (natural_death p) eqn:E; [| exact Ht].
  pose proof (alive_natural _ _ _ Ha E). lia.
Qed.

Lemma emit_handler a : respects same_handler (emit a).
Proof. unfold emit; frame_handler. Qed.

Lemma print_handler m : respects same_handler (print m).
Proof. apply emit_handler. Qed.

Lemma sleep_handler ms : respects same_handler (sleep ms).
Proof. unfold sleep, emit; frame_handler. Qed.

Lemma emit_clock a : respects clock_mono (emit a).
Proof. unfold emit; frame_clock. Qed.

Lemma print_clock m : respects clock_mono (print m).
Proof. apply emit_clock. Qed.

Lemma sleep_clock ms : 0 <= ms -> respects clock_mono (sleep ms).
Proof. intros H. unfold sleep, emit; frame_clock. Qed.

Lemma terminate_handler p : respects same_handler (terminate p).
Proof. unfold terminate, poll_is_none, emit; frame_handler. Qed.

Lemma terminate_clock p : respects clock_mono (terminate p).
Proof. unfold terminate, poll_is_none, emit; frame_clock. Qed.

Lemma kill_handler p : respects same_handler (kill p).
Proof. unfold kill, poll_is_none, emit; frame_handler. Qed.

Lemma kill_clock p : respects clock_mono (kill p).
Proof. unfold kill, poll_is_none, emit; frame_clock. Qed.

Lemma wait_timeout_handler p t : respects same_handler (wait_timeout p t).
Proof. unfold wait_timeout, poll_is_none, emit, reap; frame_handler. Qed.

Lemma wait_handler p : respects same_handler (wait p).
Proof. unfold wait, poll_is_none, emit, reap; frame_handler. Qed.

Lemma wait_timeout_clock p t : 0 <= t -> respects clock_mono (wait_timeout p t).
Proof.
  intros Ht s. unfold wait_timeout, poll_is_none, emit, reap, clock_mono.
  cbv [bind get modify ret raise fst snd]. cbn [clock set_trace].
  destruct (alive p _) eqn:Ha; cbn; [| lia].
  assert (Ha' : alive p s = true) by exact Ha.
  destruct (on_term (behaviour p)) as [d | |].
  - pose proof (exit_time_ge p s (clock s + Z.of_nat d) Ha' ltac:(lia)).
    destruct (_ <=? _); cbn; lia.
  - destruct (natural_death p) eqn:E; cbn; [| lia].
    pose proof (alive_natural _ _ _ Ha' E).
    destruct (_ <=? _); cbn; lia.
  - destruct (natural_death p) eqn:E; cbn; [| lia].
    pose proof (alive_natural _ _ _ Ha' E).
    destruct (_ <=? _); cbn; lia.
Qed.

Lemma wait_clock p : respects clock_mono (wait p).
Proof.
  intros s. unfold wait, poll_is_none, emit, reap, clock_mono.
  cbv [bind get modify ret raise diverge fst snd]. cbn [clock set_trace].
  destruct (alive p _) eqn:Ha; cbn; [| lia].
  assert (Ha' : alive p s = true) by exact Ha.
  destruct (on_kill (behaviour p)) as [d | |].
  - cbn. pose proof (exit_time_ge p s (clock s + Z.of_nat d) Ha' ltac:(lia)). lia.
  - destruct (natural_death p) eqn:E; cbn; [| lia].
    pose proof (alive_natural _ _ _ Ha' E). lia.
  - destruct (natural_death p) eqn:E; cbn; [| lia].
    pose proof (alive_natural _ _ _ Ha' E). lia.
Qed.

#[local] Hint Resolve emit_handler print_handler sleep_handler terminate_handler
  kill_handler wait_timeout_handler wait_handler : frame.
#[local] Hint Resolve emit_clock print_clock terminate_clock kill_clock
  wait_clock : frame.
#[local] Hint Extern 1 (respects clock_mono (sleep _)) =>
  apply sleep_clock; lia : frame.
#[local] Hint Extern 1 (respects clock_mono (wait_timeout _ _)) =>
  apply wait_timeout_clock; lia : frame.

Section Frames.

Variable env : Env.

Lemma Popen_handler : respects same_handler (Popen env).
Proof. unfold Popen; frame_handler. Qed.

Lemma Popen_clock : respects clock_mono (Popen env).
Proof. unfold Popen; frame_clock. Qed.

Lemma conn_loop_handler z n cs : respects same_handler (conn_loop z n cs).
Proof. induction cs; cbn [conn_loop]; unfold ps_kill; frame_handler. Qed.

Lemma conn_loop_clock z n cs : respects clock_mono (conn_loop z n cs).
Proof. induction cs; cbn [conn_loop]; unfold ps_kill; frame_clock. Qed.

Hint Resolve conn_loop_handler conn_loop_clock : frame.

Lemma sweep_loop_handler z l : respects same_handler (sweep_loop z l).
Proof. induction l; cbn [sweep_loop]; frame_handler. Qed.

Lemma sweep_loop_clock z l : respects clock_mono (sweep_loop z l).
Proof. induction l; cbn [sweep_loop]; frame_clock. Qed.

Hint Resolve Popen_handler Popen_clock sweep_loop_handler sweep_loop_clock : frame.

Lemma kill_process_on_port_handler z :
  respects same_handler (kill_process_on_port env z).
Proof. unfold kill_process_on_port; frame_handler. Qed.

Lemma kill_process_on_port_clock z :
  respects clock_mono (kill_process_on_port env z).
Proof. unfold kill_process_on_port; frame_clock. Qed.

Hint Resolve kill_process_on_port_handler kill_process_on_port_clock : frame.

Lemma start_server_handler : respects same_handler (start_server env).
Proof. unfold start_server, poll_is_none; frame_handler. Qed.

Lemma start_server_clock : respects clock_mono (start_server env).
Proof. unfold start_server, poll_is_none; frame_clock. Qed.

Lemma kill_current_process_handler : respects same_handler kill_current_process.
Proof. unfold kill_current_process, poll_is_none; frame_handler. Qed.

Lemma kill_current_process_clock : respects clock_mono kill_current_process.
Proof. unfold kill_current_process, poll_is_none; frame_clock. Qed.

Hint Resolve start_server_handler start_server_clock
  kill_current_process_handler kill_current_process_clock : frame.

Lemma handle_restart_failure_handler again :
  respects same_handler again ->
  respects same_handler (handle_restart_failure again).
Proof. intros H. unfold handle_restart_failure; frame_handler. Qed.


Lemma restart_server_upto_handler d :
  respects same_handler (restart_server_upto env d).
Proof.
  induction d; cbn [restart_server_upto]; [frame_handler |].
  pose proof (handle_restart_failure_handler _ IHd). frame_handler.
Qed.


Lemma restart_server_handler : respects same_handler (restart_server env).
Proof. apply restart_server_upto_handler. Qed.




End Frames.

Ltac st_simpl :=
  cbn [fst snd clock launches sweeps children reaped process retry_count
       last_reload pending_restart reset_at trace log app
       set_clock set_launches set_sweeps set_children set_reaped set_process
       set_retry_count set_last_reload set_pending_restart set_reset_at
       set_trace].

Ltac st_simpl_in H :=
  cbn [fst snd clock launches sweeps children reaped process retry_count
       last_reload pending_restart reset_at trace log app
       set_clock set_launches set_sweeps set_children set_reaped set_process
       set_retry_count set_last_reload set_pending_restart set_reset_at
       set_trace] in H.

(** * The change filter *)

Lemma handle_file_change_effect env event s :
  _handle_file_change env event s = effect env (decision event s) event s.
Proof.
  unfold _handle_file_change, decision, recognized, excluded.
  destruct (is_directory event); [reflexivity |].
  destruct (negb _); [reflexivity |].
  destruct (_ || _); [reflexivity |].
  cbv [bind get ret]. 
  destruct (_ <? _); [reflexivity |].
  destruct (pending_restart s); reflexivity.
Qed.

Lemma effect_accepted env event s :
  effect env Accepted event s
  = (restart_server env ;; start_reset_pending ;; ret Accepted)
      (accepted_state event s).
Proof. reflexivity. Qed.

Lemma decision_orders event s :
  decision event s = decision_as_specified event s
  \/ (pending_restart s = true
      /\ clock s - last_reload s < reload_delay
      /\ decision event s = Debounced
      /\ decision_as_specified event s = LoggedPending).
Proof.
  unfold decision, decision_as_specified.
  destruct (is_directory event); auto.
  destruct (negb _); auto.
  destruct (excluded _); auto.
  destruct (Z.ltb_spec (clock s - last_reload s) reload_delay);
    destruct (pending_restart s); auto.
Qed.

(** ** Ignored events *)

Lemma endswith_last s suf :
  endswith s suf = true ->
  (0 < String.length suf)%nat ->
  String.get (String.length s - 1) s
  = String.get (String.length suf - 1) suf.
Proof.
  unfold endswith. intros H Hm.
  apply andb_true_iff in H. destruct H as [Hle Heq].
  apply Nat.leb_le in Hle. apply String.eqb_eq in Heq.
  transitivity
    (String.get (String.length suf - 1)
       (substring (String.length s - String.length suf) (String.length suf) s)).
  - rewrite substring_correct1 by lia. f_equal. lia.
  - now rewrite Heq.
Qed.

Lemma pyc_not_recognized path :
  endswith path ".pyc" = true -> recognized path = false.
Proof.
  intros H. apply endswith_last in H; [| simpl; lia].
  unfold recognized. apply orb_false_iff. split.
  - destruct (endswith path ".py") eqn:E; [| reflexivity].
    apply endswith_last in E; [| simpl; lia].
    rewrite E in H. discriminate.
  - destruct (endswith path ".css") eqn:E; [| reflexivity].
    apply endswith_last in E; [| simpl; lia].
    rewrite E in H. discriminate.
Qed.

Lemma decision_ignored event s :
  is_directory event = true
  \/ endswith (src_path event) ".pyc" = true
  \/ contains "__pycache__" (src_path event) = true ->
  decision event s = IgnoredDirectory
  \/ decision event s = IgnoredExtension
  \/ decision event s = IgnoredExcluded.
Proof.
  unfold decision. intros [H | [H | H]].
  - rewrite H. auto.
  - destruct (is_directory event); auto.
    rewrite (pyc_not_recognized _ H). auto.
  - destruct (is_directory event); auto.
    destruct (negb _); auto.
    unfold excluded. rewrite H. auto.
Qed.

(** C7: a directory event (whatever its extension), and an event whose path
    ends in [.pyc] or contains [__pycache__], returns at once: the state is
    the one before, to the last field (debounce clock, pending flag, process,
    log), so no restart is triggered. *)
Theorem C7_ignored_events env event s :
  is_directory event = true
  \/ endswith (src_path event) ".pyc" = true
  \/ contains "__pycache__" (src_path event) = true ->
  exists o,
    _handle_file_change env event s = (s, Ret o)
    /\ o <> Accepted /\ o <> LoggedPending /\ o <> Debounced.
Proof.
  intros H. rewrite handle_file_change_effect.
  destruct (decision_ignored event s H) as [E | [E | E]]; rewrite E;
    eexists; (split; [reflexivity |]); repeat split; discriminate.
Qed.

Lemma C7_ignored_events_witness :
  exists o,
    _handle_file_change env_no_launch
      (Build_Event true "pkg/__pycache__/mod.py") pending_state
    = (pending_state, Ret o)
    /\ o <> Accepted /\ o <> LoggedPending /\ o <> Debounced.
Proof.
  apply (C7_ignored_events env_no_launch
           (Build_Event true "pkg/__pycache__/mod.py") pending_state).
  left. reflexivity.
Defined.

(** * Termination and exceptions *)

Lemma returns_total {A} (m : M A) : returns m -> total m.
Proof. intros H s. destruct (H s) as [a E]. rewrite E. discriminate. Qed.

Lemma total_ret {A} (a : A) : total (ret a).
Proof. intros s; discriminate. Qed.

Lemma total_raise {A} e : total (@raise A e).
Proof. intros s; discriminate. Qed.

Lemma total_get {A} (f : St -> A) : total (get f).
Proof. intros s; discriminate. Qed.

Lemma total_modify f : total (modify f).
Proof. intros s; discriminate. Qed.

Lemma total_bind {A B} (m : M A) (f : A -> M B) :
  total m -> (forall a, total (f a)) -> total (bind m f).
Proof.
  intros Hm Hf s. unfold bind. specialize (Hm s).
  destruct (m s) as [s1 [a | e |]]; simpl in *;
    [apply Hf | discriminate | congruence].
Qed.

Lemma total_try {A} (m : M A) sel h :
  total m -> (forall e, total (h e)) -> total (try_except m sel h).
Proof.
  intros Hm Hh s. unfold try_except. specialize (Hm s).
  destruct (m s) as [s1 [a | e |]]; simpl in *;
    [discriminate | | exact Hm].
  destruct (sel e); [apply Hh | discriminate].
Qed.

Lemma total_finally {A} (m : M A) f :
  total m -> total f -> total (finally m f).
Proof.
  intros Hm Hf s. unfold finally. specialize (Hm s).
  destruct (m s) as [s1 [a | e |]]; simpl in *; [| | congruence];
    apply total_bind; auto; intros; [apply total_ret | apply total_raise].
Qed.

Lemma total_if {A} (b : bool) (m1 m2 : M A) :
  total m1 -> total m2 -> total (if b then m1 else m2).
Proof. destruct b; auto. Qed.

Lemma returns_ret {A} (a : A) : returns (ret a).
Proof. intros s; eexists; reflexivity. Qed.

Lemma returns_get {A} (f : St -> A) : returns (get f).
Proof. intros s; eexists; reflexivity. Qed.

Lemma returns_modify f : returns (modify f).
Proof. intros s; eexists; reflexivity. Qed.

Lemma returns_bind {A B} (m : M A) (f : A -> M B) :
  returns m -> (forall a, returns (f a)) -> returns (bind m f).
Proof.
  intros Hm Hf s. unfold bind. destruct (Hm s) as [a E].
  destruct (m s) as [s1 r]; simpl in E; subst r. apply Hf.
Qed.

(** A [try] whose handlers catch everything and come back, comes back. *)
Lemma returns_try_all {A} (m : M A) h :
  total m -> (forall e, returns (h e)) -> returns (try_except m any_exception h).
Proof.
  intros Hm Hh s. unfold try_except. specialize (Hm s).
  destruct (m s) as [s1 [a | e |]]; simpl in *;
    [eexists; reflexivity | apply Hh | congruence].
Qed.

Lemma returns_if {A} (b : bool) (m1 m2 : M A) :
  returns m1 -> returns m2 -> returns (if b then m1 else m2).
Proof. destruct b; auto. Qed.

Create HintDb total.

Ltac total_tac :=
  repeat
    match goal with
    | |- total (ret _) => apply total_ret
    | |- total (raise _) => apply total_raise
    | |- total (get _) => apply total_get
    | |- total (modify _) => apply total_modify
    | |- total (bind _ _) => apply total_bind; [| intros]
    | |- total (try_except _ _ _) => apply total_try; [| intros]
    | |- total (finally _ _) => apply total_finally
    | |- total (if _ then _ else _) => apply total_if
    | |- total (match ?x with _ => _ end) => destruct x
    | |- total _ => solve [auto with total]
    end.

Ltac returns_tac :=
  repeat
    match goal with
    | |- returns (ret _) => apply returns_ret
    | |- returns (get _) => apply returns_get
    | |- returns (modify _) => apply returns_modify
    | |- returns (bind _ _) => apply returns_bind; [| intros]
    | |- returns (try_except _ any_exception _) =>
        apply returns_try_all; [total_tac | intros]
    | |- returns (if _ then _ else _) => apply returns_if
    | |- returns (match ?x with _ => _ end) => destruct x
    | |- returns _ => solve [auto with total]
    end.

Lemma returns_emit a : returns (emit a).
Proof. unfold emit; returns_tac. Qed.

Lemma returns_print m : returns (print m).
Proof. apply returns_emit. Qed.

Lemma returns_sleep ms : returns (sleep ms).
Proof. unfold sleep, emit; returns_tac. Qed.

Lemma total_emit a : total (emit a).
Proof. apply returns_total, returns_emit. Qed.

Lemma total_print m : total (print m).
Proof. apply total_emit. Qed.

Lemma total_sleep ms : total (sleep ms).
Proof. apply returns_total, returns_sleep. Qed.

#[local] Hint Resolve returns_emit returns_print returns_sleep
  total_emit total_print total_sleep : total.

Lemma total_terminate p : total (terminate p).
Proof. unfold terminate, poll_is_none; total_tac. Qed.

Lemma total_wait_timeout p t : total (wait_timeout p t).
Proof. unfold wait_timeout, poll_is_none, reap; total_tac. Qed.

Lemma total_kill p : total (kill p).
Proof. unfold kill, poll_is_none; total_tac. Qed.

#[local] Hint Resolve total_terminate total_wait_timeout total_kill : total.

Section Totality.

Variable env : Env.

Lemma total_Popen : total (Popen env).
Proof. unfold Popen; total_tac. Qed.

Lemma total_conn_loop z n cs : total (conn_loop z n cs).
Proof. induction cs; cbn [conn_loop]; unfold ps_kill; total_tac. Qed.

Hint Resolve total_conn_loop : total.

Lemma total_sweep_loop z l : total (sweep_loop z l).
Proof. induction l; cbn [sweep_loop]; total_tac. Qed.

Hint Resolve total_Popen total_sweep_loop : total.

Lemma returns_kill_process_on_port z : returns (kill_process_on_port env z).
Proof. unfold kill_process_on_port; returns_tac. Qed.

Lemma total_kill_process_on_port z : total (kill_process_on_port env z).
Proof. apply returns_total, returns_kill_process_on_port. Qed.

Hint Resolve returns_kill_process_on_port total_kill_process_on_port : total.

(** [start_server] catches whatever the launch raises and answers with a
    boolean. *)
Lemma returns_start_server : returns (start_server env).
Proof. unfold start_server, poll_is_none; returns_tac. Qed.

Lemma total_start_server : total (start_server env).
Proof. apply returns_total, returns_start_server. Qed.

End Totality.

(** * The manager, path by path *)

Lemma alive_later p s s' n :
  reaped s' = reaped s -> alive p s = true ->
  natural_death p = Some n -> clock s' < n -> alive p s' = true.
Proof.
  unfold alive, reaped_pid. intros -> H E Hn. rewrite E in *.
  apply andb_true_iff in H. destruct H as [H _]. rewrite H. simpl.
  now apply Z.ltb_lt.
Qed.

Lemma alive_forever p s s' :
  reaped s' = reaped s -> alive p s = true ->
  natural_death p = None -> alive p s' = true.
Proof.
  unfold alive, reaped_pid. intros -> H E. now rewrite E in *.
Qed.

Lemma alive_after_timeout p s s' :
  alive p s = true -> graceful_end p (clock s) = None ->
  reaped s' = reaped s -> clock s' = clock s + 5000 -> alive p s' = true.
Proof.
  intros Ha Hg Hr Hc.
  destruct (natural_death p) as [n |] eqn:En;
    [| now apply (alive_forever p s)].
  apply (alive_later p s s' n); auto.
  pose proof (alive_natural _ _ _ Ha En) as Hn.
  unfold graceful_end, exit_time in Hg. rewrite En in Hg.
  destruct (on_term (behaviour p)); cbv zeta in Hg;
    match type of Hg with
    | (if ?c then _ else _) = None =>
        destruct c eqn:Hle; [discriminate | apply Z.leb_gt in Hle; lia]
    end.
Qed.

Lemma terminate_wait_flat s p :
  alive p s = true ->
  (terminate p ;; wait_timeout p 5000) s
  = match on_term (behaviour p) with
    | TermRaises => (s, Raise OSError)
    | _ =>
        let s1 := log [AWait (pid p) (Some 5000); ATerminate (pid p)] s in
        match graceful_end p (clock s) with
        | Some e => (set_clock e (set_reaped (pid p :: reaped s) s1), Ret tt)
        | None => (set_clock (clock s + 5000) s1, Raise TimeoutExpired)
        end
    end.
Proof.
  intros Ha.
  cbv [bind terminate wait_timeout get poll_is_none emit modify]. rewrite Ha.
  unfold graceful_end.
  destruct (on_term (behaviour p)) as [d | |] eqn:Ht; [| | reflexivity];
    cbv zeta;
    match goal with
    | |- context [alive p ?st] => change (alive p st) with (alive p s)
    end;
    rewrite Ha; cbn [clock set_trace]; rewrite ?Ht.
  - destruct (_ <=? _); reflexivity.
  - destruct (natural_death p) as [n |]; [| reflexivity].
    destruct (_ <=? _); reflexivity.
Qed.

Lemma forced_kill_flat s p s1 :
  alive p s = true -> graceful_end p (clock s) = None ->
  reaped s1 = reaped s -> clock s1 = clock s + 5000 ->
  (print MForceKill ;; kill p ;; wait p) s1
  = match on_kill (behaviour p) with
    | KillRaises => (log [APrint MForceKill] s1, Raise OSError)
    | KillExits d =>
        (set_clock (exit_time p (clock s1 + Z.of_nat d))
           (set_reaped (pid p :: reaped s1)
              (log [AWait (pid p) None; AKill (pid p); APrint MForceKill] s1)),
         Ret tt)
    | KillHangs =>
        let s2 := log [AWait (pid p) None; AKill (pid p); APrint MForceKill] s1 in
        match natural_death p with
        | Some n => (set_clock n s2, Ret tt)
        | None => (s2, Diverge)
        end
    end.
Proof.
  intros Ha Hg Hr Hc.
  pose proof (alive_after_timeout p s s1 Ha Hg Hr Hc) as Ha1.
  cbv [bind print emit modify kill wait get poll_is_none reap ret raise].
  match goal with
  | |- context [alive p ?st] => change (alive p st) with (alive p s1)
  end.
  rewrite Ha1.
  destruct (on_kill (behaviour p)) as [d | |]; [| reflexivity |];
    match goal with
    | |- context [alive p ?st] => change (alive p st) with (alive p s1)
    end;
    rewrite Ha1; [reflexivity |].
  destruct (natural_death p); reflexivity.
Qed.

Lemma bind_get {A B} (f : St -> A) (k : A -> M B) s :
  bind (get f) k s = k (f s) s.
Proof. reflexivity. Qed.

Lemma bind_modify {B} f (k : unit -> M B) s :
  bind (modify f) k s = k tt (f s).
Proof. reflexivity. Qed.

Lemma bind_emit {B} a (k : unit -> M B) s :
  bind (emit a) k s = k tt (set_trace (a :: trace s) s).
Proof. reflexivity. Qed.

Lemma bind_print {B} m (k : unit -> M B) s :
  bind (print m) k s = k tt (set_trace (APrint m :: trace s) s).
Proof. reflexivity. Qed.

Lemma bind_sleep {B} ms (k : unit -> M B) s :
  bind (sleep ms) k s
  = k tt (set_clock (clock s + ms) (set_trace (ASleep ms :: trace s) s)).
Proof. reflexivity. Qed.

Lemma bind_ret {A B} (a : A) (k : A -> M B) s : bind (ret a) k s = k a s.
Proof. reflexivity. Qed.

Lemma kcp_flat_ok s : kill_current_process s = kcp_flat s.
Proof.
  unfold kill_current_process, kcp_flat, poll_is_none.
  rewrite bind_get.
  destruct (process s) as [p |] eqn:Hp; [| reflexivity].
  rewrite bind_get.
  destruct (alive p s) eqn:Ha; [| reflexivity].
  rewrite bind_print. unfold try_except.
  rewrite terminate_wait_flat by exact Ha.
  cbn [clock set_trace].
  destruct (on_term (behaviour p)) as [d | |] eqn:Ht; [| | reflexivity];
    cbv zeta; destruct (graceful_end p (clock s)) as [e |] eqn:Hg;
    try reflexivity;
    cbn [any_exception is_timeout];
    (rewrite (forced_kill_flat s p); [| exact Ha | exact Hg | reflexivity | reflexivity]);
    destruct (on_kill (behaviour p)); reflexivity.
Qed.

Lemma bind_Ret {A B} (m : M A) (k : A -> M B) s s1 a :
  m s = (s1, Ret a) -> bind m k s = k a s1.
Proof. unfold bind. now intros ->. Qed.

Lemma bind_Raise {A B} (m : M A) (k : A -> M B) s s1 e :
  m s = (s1, Raise e) -> bind m k s = (s1, Raise e).
Proof. unfold bind. now intros ->. Qed.

Lemma Popen_flat_ok env s : Popen env s = Popen_flat env s.
Proof.
  unfold Popen, Popen_flat. rewrite bind_get, bind_modify.
  cbn [launches set_launches]. cbv zeta.
  destruct (popen_plan env (launches s)); reflexivity.
Qed.

Lemma start_server_flat_ok env s :
  start_server env s
  = start_server_flat env (fst (kill_process_on_port env port s)).
Proof.
  unfold start_server, start_server_flat, try_except.
  destruct (returns_kill_process_on_port env port s) as [[] E].
  destruct (kill_process_on_port env port s) as [s0 r] eqn:Ek.
  simpl in E; subst r. cbn [fst].
  rewrite (bind_Ret _ _ _ _ _ Ek).
  rewrite !bind_print.
  match goal with
  | |- context [bind (Popen env) ?k ?st] =>
      pose proof (Popen_flat_ok env st) as EP; unfold Popen_flat in EP;
      cbn [launches set_trace] in EP
  end.
  destruct (popen_plan env (launches s0)) as [| b].
  - rewrite (bind_Raise _ _ _ _ _ EP). reflexivity.
  - cbv zeta in EP. rewrite (bind_Ret _ _ _ _ _ EP).
    rewrite bind_modify, bind_emit, bind_sleep. unfold poll_is_none.
    rewrite bind_get.
    cbv zeta.
    match goal with
    | |- _ = (if ?c2 then _ else _) =>
        match goal with
        | |- context [if ?c1 then _ else _] =>
            lazymatch c1 with
            | c2 => fail
            | _ => change c1 with c2
            end
        end;
        destruct c2
    end; reflexivity.
Qed.

(** ** Steps that launch nothing *)

Lemma still_refl s : still s s.
Proof. unfold still; repeat split; auto using incl_refl. Qed.

Lemma still_trans a b c : still a b -> still b c -> still a c.
Proof.
  unfold still. intros (H1 & H2 & H3 & H4 & H5) (K1 & K2 & K3 & K4 & K5).
  repeat split; try congruence; eauto using incl_tran.
Qed.

Ltac still_leaf :=
  unfold still; cbn;
  repeat split; auto using incl_refl, incl_tl;
  try (intros ? ? [? | ?]; [discriminate | assumption]).
Ltac frame_still := respects_with still_refl still_trans still_leaf.

Lemma emit_still a :
  (forall n k, a <> APopen n k) -> respects still (emit a).
Proof.
  intros Ha s. unfold still; cbn. repeat split; auto using incl_refl.
  intros n k [E | H]; [exfalso; eapply Ha; eauto | exact H].
Qed.

Lemma print_still m : respects still (print m).
Proof. apply emit_still; discriminate. Qed.

Lemma sleep_still ms : respects still (sleep ms).
Proof. unfold sleep, emit; frame_still. Qed.

Lemma terminate_still p : respects still (terminate p).
Proof. unfold terminate, poll_is_none, emit; frame_still. Qed.

Lemma kill_still p : respects still (kill p).
Proof. unfold kill, poll_is_none, emit; frame_still. Qed.

Lemma wait_timeout_still p t : respects still (wait_timeout p t).
Proof. unfold wait_timeout, poll_is_none, emit, reap; frame_still. Qed.

Lemma wait_still p : respects still (wait p).
Proof. unfold wait, poll_is_none, emit, reap; frame_still. Qed.

#[local] Hint Resolve print_still sleep_still terminate_still kill_still
  wait_timeout_still wait_still : frame.

Lemma conn_loop_still z n cs : respects still (conn_loop z n cs).
Proof. induction cs; cbn [conn_loop]; unfold ps_kill, emit; frame_still. Qed.

#[local] Hint Resolve conn_loop_still : frame.

Lemma sweep_loop_still z l : respects still (sweep_loop z l).
Proof. induction l; cbn [sweep_loop]; frame_still. Qed.

#[local] Hint Resolve sweep_loop_still : frame.

Lemma kill_process_on_port_still env z :
  respects still (kill_process_on_port env z).
Proof. unfold kill_process_on_port; frame_still. Qed.

Lemma kill_current_process_still : respects still kill_current_process.
Proof. unfold kill_current_process, poll_is_none; frame_still. Qed.

Lemma stop_server_still : respects still stop_server.
Proof.
  pose proof kill_current_process_still. unfold stop_server; frame_still.
Qed.

(** A child that runs now ran at every earlier moment. *)
Lemma alive_earlier p s s' :
  incl (reaped s) (reaped s') -> clock s <= clock s' ->
  alive p s' = true -> alive p s = true.
Proof.
  unfold alive, reaped_pid. intros Hr Hc H.
  apply andb_true_iff in H. destruct H as [H1 H2].
  apply andb_true_iff. split.
  - apply negb_true_iff in H1. apply negb_true_iff.
    destruct (existsb (Nat.eqb (pid p)) (reaped s)) eqn:E; [| reflexivity].
    apply existsb_exists in E. destruct E as (x & Hx & Ex).
    rewrite <- H1. symmetry. apply existsb_exists. exists x. split; auto.
  - destruct (natural_death p); [| reflexivity].
    apply Z.ltb_lt in H2. apply Z.ltb_lt. lia.
Qed.

Lemma alive_before p s s' :
  still s s' -> clock_mono s s' -> alive p s' = true -> alive p s = true.
Proof.
  intros (_ & _ & _ & Hr & _) Hc. now apply alive_earlier.
Qed.

Lemma none_alive_still s s' :
  still s s' -> clock_mono s s' -> none_alive s -> none_alive s'.
Proof.
  intros Hs Hc H p Hp.
  destruct (alive p s') eqn:E; [| reflexivity].
  apply (alive_before p s s' Hs Hc) in E.
  destruct Hs as (Hch & _). rewrite Hch in Hp. rewrite (H p Hp) in E.
  discriminate.
Qed.

(** ** The invariant *)

Lemma Inv_init t0 : Inv (init t0).
Proof. constructor; cbn; try contradiction. constructor. Qed.

Lemma Inv_still s s' : still s s' -> clock_mono s s' -> Inv s -> Inv s'.
Proof.
  intros Hs Hc [I1 I2 I3 I4].
  pose proof Hs as (Hch & Hpr & Hl & Hr & Ht).
  constructor.
  - intros p Hp. rewrite Hch in Hp. rewrite Hl. auto.
  - now rewrite Hch.
  - intros p Hp Ha. rewrite Hch in Hp. rewrite Hpr.
    apply I3; auto. eapply alive_before; eauto.
  - intros n k H. eapply I4, Ht, H.
Qed.

(** The handler's own fields, the retry counter and log lines do not
    matter to the invariant. *)
Lemma Inv_same s s' :
  clock s' = clock s -> launches s' = launches s ->
  children s' = children s -> reaped s' = reaped s ->
  process s' = process s ->
  (forall n k, In (APopen n k) (trace s') -> In (APopen n k) (trace s)) ->
  Inv s -> Inv s'.
Proof.
  intros Hc Hl Hch Hr Hp Ht. apply Inv_still.
  - unfold still. rewrite Hr. repeat split; auto using incl_refl.
  - unfold clock_mono. lia.
Qed.

Lemma at_most_one_live s : Inv s -> (List.length (live_children s) <= 1)%nat.
Proof.
  intros [_ I2 I3 _]. unfold live_children.
  assert (H : forall p, In p (children s) -> alive p s = true ->
                        process s = Some p) by exact I3.
  clear I3. induction (children s) as [| q l IH]; cbn; [lia |].
  inversion I2 as [| ? ? Hq Hl]; subst.
  destruct (alive q s) eqn:Eq.
  - cbn. enough (filter (fun p => alive p s) l = []) as -> by (cbn; lia).
    destruct (filter (fun p => alive p s) l) as [| r l'] eqn:Ef; [reflexivity |].
    assert (Hr : In r (filter (fun p => alive p s) l)) by (rewrite Ef; now left).
    apply filter_In in Hr. destruct Hr as [Hr Ha].
    assert (process s = Some q) by (apply H; [now left | exact Eq]).
    assert (process s = Some r) by (apply H; [now right | exact Ha]).
    assert (r = q) by congruence. subst r.
    exfalso. apply Hq. now apply in_map.
  - apply IH; auto. intros p Hp. apply H. now right.
Qed.

Lemma none_alive_live s : none_alive s -> live_children s = [].
Proof.
  unfold none_alive, live_children. intros H.
  induction (children s) as [| q l IH]; cbn; [reflexivity |].
  rewrite (H q (or_introl eq_refl)). apply IH. intros p Hp. apply H. now right.
Qed.

(** ** [kill_current_process] *)

Lemma kcp_result s :
  snd (kill_current_process s) = Ret tt
  \/ snd (kill_current_process s) = Raise OSError
  \/ snd (kill_current_process s) = Diverge.
Proof.
  rewrite kcp_flat_ok. unfold kcp_flat.
  destruct (process s) as [p |]; auto.
  destruct (alive p s); auto.
  destruct (on_term (behaviour p)); auto;
    destruct (graceful_end p (clock s)); auto;
    destruct (on_kill (behaviour p)); auto;
    destruct (natural_death p); auto.
Qed.

(** With nothing running behind the handle the call does nothing. *)
Lemma kcp_idle s : current_dead s -> kill_current_process s = (s, Ret tt).
Proof.
  intros H. rewrite kcp_flat_ok. unfold kcp_flat.
  destruct (process s) as [p |] eqn:Hp; [| reflexivity].
  now rewrite (H p Hp).
Qed.

Lemma alive_reaped p s : In (pid p) (reaped s) -> alive p s = false.
Proof.
  intros H. unfold alive, reaped_pid.
  replace (existsb (Nat.eqb (pid p)) (reaped s)) with true; [reflexivity |].
  symmetry. apply existsb_exists. exists (pid p). split; auto.
  apply Nat.eqb_refl.
Qed.

(** A child that can be signalled is gone when the call is back. *)
Lemma kcp_safe s :
  current_safe s ->
  snd (kill_current_process s) = Ret tt
  /\ current_dead (fst (kill_current_process s)).
Proof.
  intros Hs. rewrite kcp_flat_ok. unfold kcp_flat, current_dead.
  destruct (process s) as [p |] eqn:Hp; [| split; [reflexivity |]; cbn; congruence].
  destruct (Hs p Hp) as [Ht [dk Hk]].
  destruct (alive p s) eqn:Ha.
  2:{ split; [reflexivity |]. cbn. intros q Hq. congruence. }
  destruct (on_term (behaviour p)); try congruence;
    destruct (graceful_end p (clock s)); rewrite ?Hk;
    (split; [reflexivity |]); cbn; rewrite Hp; intros q Hq;
    injection Hq as <-; apply alive_reaped; cbn; auto.
Qed.

Lemma kcp_Inv s :
  Inv s -> current_safe s ->
  snd (kill_current_process s) = Ret tt
  /\ Inv (fst (kill_current_process s))
  /\ none_alive (fst (kill_current_process s)).
Proof.
  intros HI Hs. destruct (kcp_safe s Hs) as [Hr Hd].
  pose proof (kill_current_process_still s) as Hst.
  pose proof (kill_current_process_clock s) as Hc.
  pose proof (Inv_still _ _ Hst Hc HI) as HI'.
  split; [exact Hr |]. split; [exact HI' |].
  intros p Hp. destruct (alive p (fst (kill_current_process s))) eqn:E; auto.
  pose proof (inv_tidy _ HI' p Hp E) as Hcur.
  rewrite (Hd p Hcur) in E. discriminate.
Qed.

(** ** [start_server] *)

Lemma start_flat_launches env s0 :
  launches (fst (start_server_flat env s0)) = S (launches s0).
Proof.
  unfold start_server_flat. cbv zeta.
  destruct (popen_plan env (launches s0)); [reflexivity |].
  match goal with |- context [if ?c then _ else _] => destruct c end;
    reflexivity.
Qed.

Lemma start_flat_Inv env s0 :
  Inv s0 -> none_alive s0 -> Inv (fst (start_server_flat env s0)).
Proof.
  intros [I1 I2 I3 I4] Hn. unfold start_server_flat. cbv zeta.
  destruct (popen_plan env (launches s0)) as [| b].
  - constructor; cbn.
    + intros p Hp. specialize (I1 p Hp). lia.
    + exact I2.
    + intros p Hp Ha.
      apply (alive_earlier p s0) in Ha; cbn; [| apply incl_refl | lia].
      rewrite (Hn p Hp) in Ha. discriminate.
    + intros n k [H | [H | [H | [H | H]]]]; try discriminate. eauto.
  - set (p := Build_Proc (launches s0) (clock s0) b).
    assert (Hfresh : ~ In (pid p) (map pid (children s0))).
    { intros H. apply in_map_iff in H. destruct H as (q & Eq & Hq).
      specialize (I1 q Hq). cbn in Eq. lia. }
    assert (Hold : forall q s', In q (children s0) ->
                     reaped s' = reaped s0 -> clock s0 <= clock s' ->
                     alive q s' = true -> False).
    { intros q s' Hq Hr Hc Ha.
      apply (alive_earlier q s0 s') in Ha; [| rewrite Hr; apply incl_refl | exact Hc].
      rewrite (Hn q Hq) in Ha. discriminate. }
    assert (Hk : List.length (live_children s0) = 0%nat)
      by (now rewrite none_alive_live).
    match goal with |- context [if ?c then _ else _] => destruct c end;
      constructor; cbn;
      try (intros q [<- | Hq]; [cbn; lia | specialize (I1 q Hq); lia]);
      try (constructor; assumption);
      try (intros q [<- | Hq] Ha; [reflexivity |];
           exfalso; eapply (Hold q); [exact Hq | | | exact Ha]; cbn;
           [reflexivity | lia]);
      intros n k H;
      repeat (destruct H as [H | H]; [try discriminate |]);
      try (injection H as _ <-; exact Hk); eauto.
Qed.

(** A launch that fails leaves no child running. *)
Lemma start_flat_failed env s0 :
  none_alive s0 ->
  snd (start_server_flat env s0) = Ret false ->
  none_alive (fst (start_server_flat env s0)).
Proof.
  intros Hn. unfold start_server_flat. cbv zeta.
  destruct (popen_plan env (launches s0)) as [| b].
  - intros _ p Hp. cbn in Hp. specialize (Hn p Hp).
    destruct (alive p _) eqn:E; [| reflexivity].
    apply (alive_earlier p s0) in E; cbn; [| apply incl_refl | lia].
    rewrite Hn in E. discriminate.
  - match goal with |- context [if ?c then _ else _] => destruct c eqn:Ea end;
      [discriminate |].
    intros _ q [<- | Hq].
    + exact Ea.
    + destruct (alive q _) eqn:E; [| reflexivity].
      apply (alive_earlier q s0) in E; cbn; [| apply incl_refl | lia].
      rewrite (Hn q Hq) in E. discriminate.
Qed.

Lemma start_flat_retry env s0 :
  (snd (start_server_flat env s0) = Ret true
   /\ retry_count (fst (start_server_flat env s0)) = 0%nat)
  \/ (snd (start_server_flat env s0) = Ret false
      /\ retry_count (fst (start_server_flat env s0)) = retry_count s0).
Proof.
  unfold start_server_flat. cbv zeta.
  destruct (popen_plan env (launches s0)); [right; split; reflexivity |].
  match goal with |- context [if ?c then _ else _] => destruct c end;
    [left | right]; split; reflexivity.
Qed.

Lemma start_flat_safe env s0 :
  cooperative env -> current_safe s0 ->
  current_safe (fst (start_server_flat env s0)).
Proof.
  intros He Hs. unfold start_server_flat. cbv zeta.
  destruct (popen_plan env (launches s0)) as [| b] eqn:Eb; [exact Hs |].
  match goal with |- context [if ?c then _ else _] => destruct c end;
    intros q Hq; cbn in Hq; injection Hq as <-; cbn; eapply He; eauto.
Qed.

(** ** [restart_server], round by round *)

Lemma same_retry_refl s : same_retry s s.
Proof. reflexivity. Qed.

Lemma same_retry_trans a b c : same_retry a b -> same_retry b c -> same_retry a c.
Proof. unfold same_retry; congruence. Qed.

Ltac retry_leaf := reflexivity.
Ltac frame_retry := respects_with same_retry_refl same_retry_trans retry_leaf.

Lemma kill_process_on_port_retry env z :
  respects same_retry (kill_process_on_port env z).
Proof.
  assert (Hconn : forall y n cs, respects same_retry (conn_loop y n cs)).
  { induction cs; cbn [conn_loop]; unfold ps_kill, print, sleep, emit;
      frame_retry. }
  assert (forall y l, respects same_retry (sweep_loop y l)).
  { induction l; cbn [sweep_loop]; frame_retry. }
  unfold kill_process_on_port, print, emit; frame_retry.
Qed.

Lemma kill_current_process_retry : respects same_retry kill_current_process.
Proof.
  unfold kill_current_process, poll_is_none, terminate, wait_timeout, kill,
    wait, reap, print, emit, poll_is_none; frame_retry.
Qed.

Lemma handle_restart_failure_flat_ok again s :
  handle_restart_failure again s = handle_restart_failure_flat again s.
Proof.
  unfold handle_restart_failure, handle_restart_failure_flat.
  rewrite bind_modify, bind_get. cbn [retry_count set_retry_count]. cbv zeta.
  destruct (_ <? _)%nat; reflexivity.
Qed.

Lemma restart_round_ok env d s :
  restart_server_upto env (S d) s
  = restart_round env (restart_server_upto env d) s.
Proof.
  cbn [restart_server_upto]. unfold restart_round. rewrite bind_print.
  unfold bind at 1. unfold log. cbn [app].
  destruct (kill_current_process _) as [s1 [[] | e |]]; try reflexivity.
  rewrite bind_sleep. unfold bind at 1. unfold settled, log. cbn [app].
  match goal with
  | |- match ?a with _ => _ end = match ?b with _ => _ end =>
      change a with b; destruct b as [s3 [[|] | e |]]
  end; reflexivity.
Qed.

Lemma current_safe_same s s' :
  process s' = process s -> current_safe s -> current_safe s'.
Proof. unfold current_safe. intros -> H. exact H. Qed.

(** [Inv] carries over to a state that differs by log lines, elapsed time
    and fields the invariant does not read. *)
Ltac inv_quiet HI :=
  refine (Inv_still _ _ _ _ HI);
  [ unfold still; cbn; repeat split; auto using incl_refl;
    intros ? ? H; repeat (destruct H as [H | H]; [discriminate |]); exact H
  | unfold clock_mono; cbn; lia ].

Ltac none_alive_quiet Hn :=
  refine (none_alive_still _ _ _ _ Hn);
  [ unfold still; cbn; repeat split; auto using incl_refl;
    intros ? ? H; repeat (destruct H as [H | H]; [discriminate |]); exact H
  | unfold clock_mono; cbn; lia ].

Lemma start_server_Inv env s :
  Inv s -> none_alive s ->
  Inv (fst (start_server env s))
  /\ (snd (start_server env s) = Ret false ->
      none_alive (fst (start_server env s)))
  /\ (cooperative env -> current_safe s ->
      current_safe (fst (start_server env s)))
  /\ ((snd (start_server env s) = Ret true
       /\ retry_count (fst (start_server env s)) = 0%nat)
      \/ (snd (start_server env s) = Ret false
          /\ retry_count (fst (start_server env s)) = retry_count s)).
Proof.
  intros HI Hn. rewrite start_server_flat_ok.
  pose proof (kill_process_on_port_still env port s) as Hst.
  pose proof (kill_process_on_port_clock env port s) as Hc.
  pose proof (kill_process_on_port_retry env port s) as Hr.
  set (s0 := fst (kill_process_on_port env port s)) in *.
  pose proof (Inv_still _ _ Hst Hc HI) as HI0.
  pose proof (none_alive_still _ _ Hst Hc Hn) as Hn0.
  split; [now apply start_flat_Inv |].
  split; [now apply start_flat_failed |].
  split.
  - intros He Hs. apply start_flat_safe; auto.
    apply (current_safe_same s); auto. apply Hst.
  - unfold same_retry in Hr. rewrite <- Hr. apply start_flat_retry.
Qed.

(** In a cooperative environment a restart comes back, keeps the invariant
    and leaves the retry counter at zero. *)
Lemma restart_upto_Inv env :
  cooperative env ->
  forall d s,
    (1 <= d)%nat -> (max_retries <= retry_count s + d)%nat ->
    Inv s -> current_safe s ->
    snd (restart_server_upto env d s) = Ret tt
    /\ Inv (fst (restart_server_upto env d s))
    /\ current_safe (fst (restart_server_upto env d s))
    /\ retry_count (fst (restart_server_upto env d s)) = 0%nat.
Proof.
  intros He. induction d as [| d IH]; intros s Hd Hrc HI Hs; [lia |].
  rewrite restart_round_ok. unfold restart_round.
  assert (HIa : Inv (log [APrint MRestarting] s)) by inv_quiet HI.
  assert (Hsa : current_safe (log [APrint MRestarting] s))
    by (apply (current_safe_same s); auto).
  destruct (kcp_Inv _ HIa Hsa) as (Hr & HI1 & Hn1).
  pose proof (kill_current_process_still (log [APrint MRestarting] s)) as Hst1.
  pose proof (kill_current_process_retry (log [APrint MRestarting] s)) as Hrt1.
  destruct (kill_current_process _) as [s1 r1]. cbn [fst snd] in *. subst r1.
  assert (Hs1 : current_safe s1)
    by (apply (current_safe_same (log [APrint MRestarting] s)); auto; apply Hst1).
  assert (HI2 : Inv (settled s1)) by inv_quiet HI1.
  assert (Hn2 : none_alive (settled s1)) by none_alive_quiet Hn1.
  assert (Hs2 : current_safe (settled s1)) by (apply (current_safe_same s1); auto).
  destruct (start_server_Inv env _ HI2 Hn2) as (HI3 & Hn3 & Hs3 & Hret).
  specialize (Hs3 He Hs2).
  destruct (start_server env (settled s1)) as [s3 r3]. cbn [fst snd] in *.
  destruct Hret as [[-> Hz] | [-> Hk]].
  - cbn [fst snd]. split; [reflexivity |].
    split; [inv_quiet HI3 |]. split; [| exact Hz].
    apply (current_safe_same s3); auto.
  - specialize (Hn3 eq_refl).
    rewrite handle_restart_failure_flat_ok. unfold handle_restart_failure_flat.
    cbv zeta. cbn [retry_count log set_trace].
    assert (Hrc3 : retry_count s3 = retry_count s).
    { rewrite Hk. cbn. exact Hrt1. }
    destruct (Nat.ltb_spec (S (retry_count s3)) max_retries) as [Hlt | Hge].
    + apply IH.
      * unfold max_retries in *. lia.
      * cbn. unfold max_retries in *. lia.
      * inv_quiet HI3.
      * apply (current_safe_same s3); auto.
    + cbn [fst snd]. split; [reflexivity |].
      split; [inv_quiet HI3 |]. split; [| reflexivity].
      apply (current_safe_same s3); auto.
Qed.

(** * At most one child *)

Lemma stop_server_Inv s :
  Inv s -> current_safe s ->
  snd (stop_server s) = Ret tt
  /\ Inv (fst (stop_server s))
  /\ current_safe (fst (stop_server s))
  /\ none_alive (fst (stop_server s)).
Proof.
  intros HI Hs. unfold stop_server. rewrite bind_print.
  assert (HIa : Inv (set_trace (APrint MStopServer :: trace s) s)) by inv_quiet HI.
  assert (Hsa : current_safe (set_trace (APrint MStopServer :: trace s) s))
    by (apply (current_safe_same s); auto).
  destruct (kcp_Inv _ HIa Hsa) as (Hr & HI1 & Hn1).
  pose proof (kill_current_process_still
                (set_trace (APrint MStopServer :: trace s) s)) as Hst.
  unfold bind.
  destruct (kill_current_process _) as [s1 r1]. cbn [fst snd] in *. subst r1.
  cbn. split; [reflexivity |]. split; [inv_quiet HI1 |].
  split; [| none_alive_quiet Hn1].
  apply (current_safe_same s); auto. apply Hst.
Qed.

Lemma on_change_Inv env t event s :
  cooperative env -> Inv s -> current_safe s ->
  (exists o, snd (on_change env t event s) = Ret o)
  /\ Inv (fst (on_change env t event s))
  /\ current_safe (fst (on_change env t event s)).
Proof.
  intros He HI Hs. unfold on_change. rewrite bind_modify.
  set (s1 := set_clock (Z.max (clock s) t) s).
  assert (HI1 : Inv s1) by (subst s1; inv_quiet HI).
  assert (Hs1 : current_safe s1) by (apply (current_safe_same s); auto).
  clearbody s1. clear HI Hs s.
  assert (exists s2, forall k : unit -> M Outcome,
             bind reset_pending k s1 = k tt s2
             /\ Inv s2 /\ current_safe s2) as (s2 & H2).
  { unfold reset_pending.
    destruct (reset_at s1) as [d |] eqn:Ed.
    - destruct (d <=? clock s1) eqn:El.
      + exists (set_reset_at None (set_pending_restart false s1)).
        intros k. cbv [bind get]. rewrite Ed, El. split; [reflexivity |].
        split; [inv_quiet HI1 | apply (current_safe_same s1); auto].
      + exists s1. intros k. cbv [bind get]. rewrite Ed, El. auto.
    - exists s1. intros k. cbv [bind get]. rewrite Ed. auto. }
  destruct (H2 (fun _ => _handle_file_change env event)) as (E & HI2 & Hs2).
  rewrite E. clear E H2 HI1 Hs1 s1.
  rewrite handle_file_change_effect.
  destruct (decision event s2);
    try (cbn [effect]; split; [eexists; reflexivity | split; assumption]).
  - cbn [effect]. rewrite bind_print. cbn. split; [eexists; reflexivity |].
    split; [inv_quiet HI2 | apply (current_safe_same s2); auto].
  - rewrite effect_accepted.
    assert (HIa : Inv (accepted_state event s2)) by inv_quiet HI2.
    assert (Hsa : current_safe (accepted_state event s2))
      by (apply (current_safe_same s2); auto).
    destruct (restart_upto_Inv env He max_retries (accepted_state event s2))
      as (Hr & HI3 & Hs3 & _); auto; try (unfold max_retries; lia).
    destruct (restart_server_upto env max_retries _) as [s3 r3] eqn:E.
    cbn [fst snd] in *. subst r3.
    unfold restart_server. rewrite (bind_Ret _ _ _ _ _ E).
    cbv [start_reset_pending bind get modify emit ret].
    cbn [fst snd]. split; [eexists; reflexivity |].
    split; [inv_quiet HI3 | apply (current_safe_same s3); auto].
Qed.



Lemma none_alive_init t0 : none_alive (init t0).
Proof. intros p H. contradiction. Qed.


Lemma cooperative_env_good : cooperative env_good.
Proof.
  intros n b E. injection E as <-. split; [discriminate | now exists 10%nat].
Qed.



(** * Failed launches and retries *)

Lemma same_view_refl s : same_view s s.
Proof. reflexivity. Qed.

Lemma same_view_trans a b c : same_view a b -> same_view b c -> same_view a c.
Proof. unfold same_view; congruence. Qed.

Ltac view_leaf := reflexivity.
Ltac frame_view := respects_with same_view_refl same_view_trans view_leaf.

Lemma kill_process_on_port_view env z :
  respects same_view (kill_process_on_port env z).
Proof.
  assert (Hconn : forall y n cs, respects same_view (conn_loop y n cs)).
  { induction cs; cbn [conn_loop]; unfold ps_kill, print, sleep, emit;
      frame_view. }
  assert (forall y l, respects same_view (sweep_loop y l)).
  { induction l; cbn [sweep_loop]; frame_view. }
  unfold kill_process_on_port, print, emit; frame_view.
Qed.

Lemma kill_current_process_view : respects same_view kill_current_process.
Proof.
  unfold kill_current_process, poll_is_none, terminate, wait_timeout, kill,
    wait, reap, print, emit, poll_is_none; frame_view.
Qed.

Lemma kcp_stoppable s :
  stoppable s ->
  snd (kill_current_process s) = Ret tt
  /\ current_dead (fst (kill_current_process s)).
Proof.
  intros [Hd | Hs]; [| now apply kcp_safe].
  rewrite (kcp_idle s Hd). auto.
Qed.

Lemma current_dead_later s s' :
  process s' = process s -> incl (reaped s) (reaped s') -> clock s <= clock s' ->
  current_dead s -> current_dead s'.
Proof.
  intros Hp Hr Hc Hd p E. rewrite Hp in E.
  destruct (alive p s') eqn:Ea; [| reflexivity].
  apply (alive_earlier p s s' Hr Hc) in Ea. rewrite (Hd p E) in Ea.
  discriminate.
Qed.

Lemma start_flat_fails env s0 :
  launch_fails env (launches s0) = true ->
  snd (start_server_flat env s0) = Ret false.
Proof.
  unfold launch_fails, start_server_flat. cbv zeta.
  destruct (popen_plan env (launches s0)) as [| b]; [reflexivity |].
  destruct (lifetime b) as [d |] eqn:El; [| discriminate].
  intros H. apply Z.leb_le in H.
  match goal with |- context [if ?c then _ else _] => destruct c eqn:Ea end;
    [| reflexivity].
  exfalso. unfold alive, natural_death in Ea. cbn in Ea. rewrite El in Ea.
  apply andb_true_iff in Ea. destruct Ea as [_ Ea]. apply Z.ltb_lt in Ea. lia.
Qed.

Lemma start_flat_dead env s0 :
  current_dead s0 ->
  snd (start_server_flat env s0) = Ret false ->
  current_dead (fst (start_server_flat env s0)).
Proof.
  intros Hd. unfold start_server_flat. cbv zeta.
  destruct (popen_plan env (launches s0)) as [| b].
  - intros _. apply (current_dead_later s0); cbn; auto using incl_refl. lia.
  - match goal with |- context [if ?c then _ else _] => destruct c eqn:Ea end;
      [discriminate |].
    intros _ q Hq. cbn in Hq. injection Hq as <-. exact Ea.
Qed.

Lemma exits_early_fails env n : exits_early env n = true -> launch_fails env n = true.
Proof.
  unfold exits_early, launch_fails. destruct (popen_plan env n); [discriminate | auto].
Qed.

Lemma start_flat_view env s0 :
  exits_early env (launches s0) = true ->
  retry_view (fst (start_server_flat env s0)) = ASleep 3000 :: retry_view s0.
Proof.
  intros He. pose proof (start_flat_fails env s0 (exits_early_fails _ _ He)) as Hf.
  revert He Hf. unfold exits_early, start_server_flat. cbv zeta.
  destruct (popen_plan env (launches s0)) as [| b]; [discriminate |].
  intros _.
  match goal with |- context [if ?c then _ else _] => destruct c end;
    [discriminate |].
  reflexivity.
Qed.

Lemma Inv_dead_none_alive s : Inv s -> current_dead s -> none_alive s.
Proof.
  intros HI Hd p Hp. destruct (alive p s) eqn:E; [| reflexivity].
  rewrite (Hd p (inv_tidy _ HI p Hp E)) in E. discriminate.
Qed.

(** A round of [restart_server] whose launch fails: the child behind the
    handle is stopped, one launch is made, and the round hands over to
    [handle_restart_failure]. *)
Lemma failed_round env again s :
  stoppable s ->
  launch_fails env (launches s) = true ->
  exists s3,
    restart_round env again s = handle_restart_failure again s3
    /\ launches s3 = S (launches s)
    /\ retry_count s3 = retry_count s
    /\ current_dead s3
    /\ same_handler s s3
    /\ clock s + 2000 <= clock s3
    /\ (Inv s -> Inv s3 /\ none_alive s3)
    /\ (exits_early env (launches s) = true ->
        retry_view s3 = ASleep 3000 :: APrint MRestarting :: retry_view s).
Proof.
  intros Hst Hf. unfold restart_round.
  set (sa := log [APrint MRestarting] s).
  assert (Hsta : stoppable sa).
  { destruct Hst as [Hd | Hs]; [left | right].
    - apply (current_dead_later s); cbn; auto using incl_refl. lia.
    - apply (current_safe_same s); auto. }
  destruct (kcp_stoppable sa Hsta) as [Hr Hd1].
  pose proof (kill_current_process_still sa) as Hs1.
  pose proof (kill_current_process_clock sa) as Hc1.
  pose proof (kill_current_process_retry sa) as Hrt1.
  pose proof (kill_current_process_handler sa) as Hh1.
  pose proof (kill_current_process_view sa) as Hv1.
  destruct (kill_current_process sa) as [s1 r1]. cbn [fst snd] in *. subst r1.
  set (s2 := settled s1).
  rewrite start_server_flat_ok.
  pose proof (kill_process_on_port_still env port s2) as Hs0.
  pose proof (kill_process_on_port_clock env port s2) as Hc0.
  pose proof (kill_process_on_port_retry env port s2) as Hrt0.
  pose proof (kill_process_on_port_handler env port s2) as Hh0.
  pose proof (kill_process_on_port_view env port s2) as Hv0.
  set (s0 := fst (kill_process_on_port env port s2)) in *.
  assert (Hl0 : launches s0 = launches s).
  { destruct Hs0 as (_ & _ & -> & _). cbn.
    destruct Hs1 as (_ & _ & -> & _). reflexivity. }
  assert (Hd0 : current_dead s0).
  { apply (current_dead_later s2); try apply Hs0; [apply Hc0 |].
    apply (current_dead_later s1); cbn; auto using incl_refl. lia. }
  rewrite <- Hl0 in Hf.
  pose proof (start_flat_fails env s0 Hf) as Hfail.
  pose proof (start_flat_launches env s0) as Hl3.
  pose proof (start_flat_dead env s0 Hd0 Hfail) as Hd3.
  pose proof (start_server_handler env s2) as Hh3.
  pose proof (start_server_clock env s2) as Hc3.
  rewrite start_server_flat_ok in Hh3, Hc3. fold s0 in Hh3, Hc3.
  destruct (start_flat_retry env s0) as [[E _] | [_ Hrt3]]; [congruence |].
  assert (HInv : Inv s -> Inv (fst (start_server_flat env s0))
                          /\ none_alive (fst (start_server_flat env s0))).
  { intros HI.
    assert (HIa : Inv sa) by (subst sa; inv_quiet HI).
    pose proof (Inv_still _ _ Hs1 Hc1 HIa) as HI1.
    assert (HI2 : Inv s2) by (subst s2; inv_quiet HI1).
    pose proof (Inv_still _ _ Hs0 Hc0 HI2) as HI0.
    pose proof (Inv_dead_none_alive _ HI0 Hd0) as Hn0.
    split; [now apply start_flat_Inv | now apply start_flat_failed]. }
  assert (Hview : exits_early env (launches s) = true ->
                  retry_view (fst (start_server_flat env s0))
                  = ASleep 3000 :: APrint MRestarting :: retry_view s).
  { intros He. rewrite <- Hl0 in He. rewrite (start_flat_view env s0 He).
    unfold same_view in Hv0, Hv1. rewrite Hv0.
    change (retry_view s2) with (retry_view s1). rewrite Hv1. reflexivity. }
  destruct (start_server_flat env s0) as [s3 r3]. cbn [fst snd] in *. subst r3.
  exists (log [APrint MRestartFailed] s3).
  split; [reflexivity |].
  split; [cbn; congruence |].
  split.
  { cbn. rewrite Hrt3. unfold same_retry in *. rewrite Hrt0. cbn. exact Hrt1. }
  split.
  { apply (current_dead_later s3); cbn; auto using incl_refl. lia. }
  split.
  { apply (same_handler_trans _ s3); [| repeat split].
    apply (same_handler_trans _ s2); [| exact Hh3].
    apply (same_handler_trans _ s1); [| repeat split].
    apply (same_handler_trans _ sa); [repeat split | exact Hh1]. }
  split.
  { unfold clock_mono in *. cbn in *. lia. }
  split.
  { intros HI. destruct (HInv HI) as [HI3 Hn3].
    split; [inv_quiet HI3 | none_alive_quiet Hn3]. }
  intros He. rewrite <- (Hview He). reflexivity.
Qed.

(** The state in which [handle_restart_failure] calls [restart_server]
    again. *)
Lemma retry_state_facts s3 rc :
  current_dead s3 ->
  let s4 := set_clock (clock s3 + 3000)
              (log [ASleep 3000; APrint (MRetry rc)] (set_retry_count rc s3)) in
  stoppable s4
  /\ launches s4 = launches s3
  /\ retry_count s4 = rc
  /\ same_handler s3 s4
  /\ clock s4 = clock s3 + 3000
  /\ (Inv s3 -> Inv s4)
  /\ retry_view s4 = ASleep 3000 :: APrint (MRetry rc) :: retry_view s3.
Proof.
  intros Hd s4. subst s4.
  split. { left. apply (current_dead_later s3); cbn; auto using incl_refl. lia. }
  split; [reflexivity |]. split; [reflexivity |].
  split; [repeat split |]. split; [reflexivity |].
  split; [intros HI; inv_quiet HI | reflexivity].
Qed.

(** Three launches in a row fail: three rounds, then abandonment. *)
Lemma three_failures env s :
  retry_count s = 0%nat ->
  stoppable s ->
  launch_fails env (launches s) = true ->
  launch_fails env (S (launches s)) = true ->
  launch_fails env (S (S (launches s))) = true ->
  exists s',
    restart_server env s = (s', Ret tt)
    /\ launches s' = (launches s + 3)%nat
    /\ retry_count s' = 0%nat
    /\ current_dead s'
    /\ same_handler s s'
    /\ (exists tr, trace s' = APrint MMaxRetries :: tr)
    /\ (Inv s -> Inv s' /\ none_alive s')
    /\ (exits_early env (launches s) = true ->
        exits_early env (S (launches s)) = true ->
        exits_early env (S (S (launches s))) = true ->
        retry_view s'
        = [APrint MMaxRetries; ASleep 3000; APrint MRestarting;
           ASleep 3000; APrint (MRetry 2); ASleep 3000; APrint MRestarting;
           ASleep 3000; APrint (MRetry 1); ASleep 3000; APrint MRestarting]
          ++ retry_view s).
Proof.
  intros Hrc Hst F1 F2 F3. unfold restart_server, max_retries.
  (* first round *)
  rewrite restart_round_ok.
  destruct (failed_round env (restart_server_upto env 2) s Hst F1)
    as (a3 & -> & La & Ra & Da & Ha & _ & Ia & Va).
  rewrite handle_restart_failure_flat_ok. unfold handle_restart_failure_flat.
  rewrite Ra, Hrc. cbv zeta. cbn [Nat.ltb Nat.leb max_retries].
  destruct (retry_state_facts a3 1 Da) as (Sa & La4 & Ra4 & Ha4 & _ & Ia4 & Va4).
  set (a4 := set_clock (clock a3 + 3000) _) in *.
  (* second round *)
  rewrite restart_round_ok.
  rewrite <- La, <- La4 in F2, F3.
  destruct (failed_round env (restart_server_upto env 1) a4 Sa F2)
    as (b3 & -> & Lb & Rb & Db & Hb & _ & Ib & Vb).
  rewrite handle_restart_failure_flat_ok. unfold handle_restart_failure_flat.
  rewrite Rb, Ra4. cbv zeta. cbn [Nat.ltb Nat.leb max_retries].
  destruct (retry_state_facts b3 2 Db) as (Sb & Lb4 & Rb4 & Hb4 & _ & Ib4 & Vb4).
  set (b4 := set_clock (clock b3 + 3000) _) in *.
  (* third round *)
  rewrite restart_round_ok.
  rewrite <- Lb, <- Lb4 in F3.
  destruct (failed_round env (restart_server_upto env 0) b4 Sb F3)
    as (c3 & -> & Lc & Rc & Dc & Hc & _ & Ic & Vc).
  rewrite handle_restart_failure_flat_ok. unfold handle_restart_failure_flat.
  rewrite Rc, Rb4. cbv zeta. cbn [Nat.ltb Nat.leb max_retries].
  eexists. split; [reflexivity |].
  split; [cbn; lia |]. split; [reflexivity |].
  split. { apply (current_dead_later c3); cbn; auto using incl_refl. lia. }
  split.
  { apply (same_handler_trans _ c3); [| repeat split].
    apply (same_handler_trans _ b4); [| exact Hc].
    apply (same_handler_trans _ b3); [| exact Hb4].
    apply (same_handler_trans _ a4); [| exact Hb].
    apply (same_handler_trans _ a3); [exact Ha | exact Ha4]. }
  split; [eexists; reflexivity |].
  split.
  { intros HI. destruct (Ia HI) as [HIa _].
    destruct (Ib (Ia4 HIa)) as [HIb _].
    destruct (Ic (Ib4 HIb)) as [HIc Hnc].
    split; [inv_quiet HIc | none_alive_quiet Hnc]. }
  intros E1 E2 E3.
  rewrite <- La, <- La4 in E2, E3. rewrite <- Lb, <- Lb4 in E3.
  change (retry_view (set_retry_count 0 (log [APrint MMaxRetries] c3)))
    with (APrint MMaxRetries :: retry_view c3).
  rewrite (Vc E3), Vb4, (Vb E2), Va4, (Va E1). reflexivity.
Qed.

(** ** What a restart gives back, in any environment *)

Lemma restart_upto_result env d :
  forall s,
    (snd (restart_server_upto env d s) = Ret tt ->
     retry_count (fst (restart_server_upto env d s)) = 0%nat
     /\ clock s + 2000 <= clock (fst (restart_server_upto env d s)))
    /\ (forall e, snd (restart_server_upto env d s) = Raise e -> e = OSError).
Proof.
  induction d as [| d IH]; intros s.
  { cbn. repeat split; discriminate. }
  rewrite restart_round_ok. unfold restart_round.
  set (sa := log [APrint MRestarting] s).
  pose proof (kcp_result sa) as Hk.
  pose proof (kill_current_process_clock sa) as Hc1.
  pose proof (kill_current_process_retry sa) as Hr1.
  destruct (kill_current_process sa) as [s1 r1]. cbn [fst snd] in *.
  destruct Hk as [-> | [-> | ->]].
  2:{ cbn. repeat split; try discriminate. intros e E. congruence. }
  2:{ cbn. repeat split; discriminate. }
  pose proof (start_server_clock env (settled s1)) as Hc3.
  rewrite start_server_flat_ok in *.
  pose proof (kill_process_on_port_retry env port (settled s1)) as Hr0.
  set (s0 := fst (kill_process_on_port env port (settled s1))) in *.
  destruct (start_flat_retry env s0) as [[E Hz] | [E Hrt]];
    destruct (start_server_flat env s0) as [s3 r3]; cbn [fst snd] in *; subst r3.
  - cbn. repeat split; try discriminate; auto.
    unfold clock_mono in *. cbn in *. lia.
  - rewrite handle_restart_failure_flat_ok. unfold handle_restart_failure_flat.
    cbv zeta. cbn [retry_count log set_trace].
    assert (Hrc : retry_count s3 = retry_count s).
    { rewrite Hrt. unfold same_retry in *. rewrite Hr0. cbn. exact Hr1. }
    destruct (Nat.ltb_spec (S (retry_count s3)) max_retries) as [Hlt | Hge].
    + match goal with
      | |- context [restart_server_upto env d ?st] =>
          destruct (IH st) as (T2 & T3)
      end.
      cbn [retry_count set_clock set_trace set_retry_count clock log app] in T2.
      unfold max_retries in *.
      split; [| exact T3].
      intros H. destruct (T2 H) as [Z1 Z2]. split; [exact Z1 |].
      unfold clock_mono in *. cbn in *. lia.
    + cbn. repeat split; try discriminate.
      unfold clock_mono in *. cbn in *. lia.
Qed.

(** * Stopping *)

Lemma stop_idle s :
  current_dead s ->
  stop_server s = (log [APrint MStopped; APrint MStopServer] s, Ret tt).
Proof.
  intros Hd. unfold stop_server. rewrite bind_print.
  assert (E : kill_current_process (set_trace (APrint MStopServer :: trace s) s)
              = (set_trace (APrint MStopServer :: trace s) s, Ret tt))
    by (apply kcp_idle; exact Hd).
  rewrite (bind_Ret _ _ _ _ _ E). reflexivity.
Qed.


Lemma current_safe_serving : current_safe serving_state.
Proof.
  intros p E. vm_compute in E. injection E as <-.
  split; [discriminate | now exists 10%nat].
Qed.



(** * Exceptions out of the supervisor *)

(** [start_server] lets no exception out, whatever the platform does. *)
Lemma start_server_never_raises env s :
  exists b, snd (start_server env s) = Ret b.
Proof. apply returns_start_server. Qed.

(** The output thread lets no exception out either. *)
Lemma monitor_output_returns reads : returns (monitor_output reads).
Proof.
  assert (H : total (print_lines reads)).
  { induction reads as [| [l |] rest IH]; cbn [print_lines]; total_tac. }
  unfold monitor_output. returns_tac.
Qed.

(** An exception leaves [kill_current_process] on one path only: the child
    runs, the five seconds after SIGTERM run out, and [kill()] raises. *)
Lemma kcp_raises_iff s :
  (exists e, snd (kill_current_process s) = Raise e)
  <-> exists p,
      process s = Some p /\ alive p s = true
      /\ on_term (behaviour p) <> TermRaises
      /\ graceful_end p (clock s) = None
      /\ on_kill (behaviour p) = KillRaises.
Proof.
  rewrite kcp_flat_ok. unfold kcp_flat. split.
  - intros [e H]. destruct (process s) as [p |]; [| discriminate].
    exists p. destruct (alive p s); [| discriminate].
    destruct (on_term (behaviour p)); try discriminate;
      destruct (graceful_end p (clock s)); try discriminate;
      destruct (on_kill (behaviour p)); try discriminate;
      try (cbv zeta in H; destruct (natural_death p); discriminate);
      repeat split; discriminate.
  - intros (p & -> & -> & Ht & -> & ->).
    destruct (on_term (behaviour p)); try congruence; eexists; reflexivity.
Qed.

(** C8 fails on the forced-kill path: the child ignores SIGTERM for five
    seconds and [kill()] raises.  The call sits in the handler of
    [TimeoutExpired], which no [except] clause covers, so the exception leaves
    [kill_current_process], and with it [stop_server], [restart_server], the
    change handler and [main].  The same error out of [terminate()] is caught
    by [except Exception] and logged. *)
Theorem C8_forced_kill_escapes :
  snd (kill_current_process unkillable_state) = Raise OSError
  /\ snd (stop_server unkillable_state) = Raise OSError
  /\ snd (restart_server env_unkillable unkillable_state) = Raise OSError
  /\ snd (on_change env_unkillable 10000 py_event unkillable_state)
     = Raise OSError
  /\ snd (main env_unkillable [] (init 0)) = Raise OSError
  /\ kill_current_process deaf_state
     = (log [APrint MErrStopping; APrint MStopping] deaf_state, Ret tt).
Proof. repeat split; vm_compute; reflexivity. Qed.

(** * The launch of [main] *)

Lemma start_flat_view_fails env s0 :
  launch_fails env (launches s0) = true ->
  retry_view (fst (start_server_flat env s0))
  = (if exits_early env (launches s0) then [ASleep 3000] else [])
    ++ retry_view s0.
Proof.
  intros Hf. pose proof (start_flat_fails env s0 Hf) as Hr. revert Hf Hr.
  unfold launch_fails, exits_early, start_server_flat. cbv zeta.
  destruct (popen_plan env (launches s0)) as [| b]; [reflexivity |].
  destruct (lifetime b) as [d |]; [| discriminate]. intros ->.
  match goal with |- context [if ?c then _ else _] => destruct c end;
    [discriminate | reflexivity].
Qed.

(** A failed first launch ends [main]: one launch, exit status 1. *)
Lemma main_failed_start env evs t0 :
  launch_fails env 0 = true ->
  exists s1,
    main env evs (init t0) = (s1, Ret 1)
    /\ launches s1 = 1%nat
    /\ none_alive s1
    /\ retry_view s1 = if exits_early env 0 then [ASleep 3000] else [].
Proof.
  intros Hf. unfold main. rewrite bind_emit.
  set (sa := set_trace (AObserverStart :: trace (init t0)) (init t0)).
  assert (HIa : Inv sa) by (subst sa; inv_quiet (Inv_init t0)).
  assert (Hna : none_alive sa) by (intros p H; contradiction).
  assert (Hda : current_dead sa) by (intros p H; discriminate).
  unfold finally, try_except.
  pose proof (start_server_flat_ok env sa) as Ess.
  pose proof (kill_process_on_port_still env port sa) as Hs0.
  pose proof (kill_process_on_port_clock env port sa) as Hc0.
  pose proof (kill_process_on_port_view env port sa) as Hv0.
  set (s0 := fst (kill_process_on_port env port sa)) in *.
  assert (Hl0 : launches s0 = 0%nat) by (destruct Hs0 as (_ & _ & -> & _); reflexivity).
  pose proof (Inv_still _ _ Hs0 Hc0 HIa) as HI0.
  pose proof (none_alive_still _ _ Hs0 Hc0 Hna) as Hn0.
  assert (Hd0 : current_dead s0).
  { apply (current_dead_later sa); try apply Hs0; auto. }
  rewrite <- Hl0 in Hf.
  pose proof (start_flat_fails env s0 Hf) as Hfail.
  pose proof (start_flat_launches env s0) as Hl3.
  pose proof (start_flat_dead env s0 Hd0 Hfail) as Hd3.
  pose proof (start_flat_Inv env s0 HI0 Hn0) as HI3.
  pose proof (start_flat_failed env s0 Hn0 Hfail) as Hn3.
  pose proof (start_flat_view_fails env s0 Hf) as Hv3.
  destruct (start_server_flat env s0) as [s3 r3] eqn:E.
  cbn [fst snd] in *. subst r3.
  rewrite (bind_Ret _ _ _ _ _ Ess).
  rewrite bind_print. cbv beta iota delta [ret].
  match goal with
  | |- context [bind (bind (emit AObserverStop) _) _ ?st] =>
      assert (Hst : (emit AObserverStop ;; stop_server) st
                    = (log [APrint MStopped; APrint MStopServer]
                         (set_trace (AObserverStop :: trace st) st), Ret tt))
  end.
  { rewrite bind_emit. apply stop_idle.
    apply (current_dead_later s3); cbn; auto using incl_refl. lia. }
  rewrite (bind_Ret _ _ _ _ _ Hst).
  eexists. split; [reflexivity |].
  split; [cbn; lia |]. split; [none_alive_quiet Hn3 |].
  change (retry_view s3 = if exits_early env 0 then [ASleep 3000] else []).
  rewrite Hv3, Hl0. unfold same_view in Hv0. rewrite Hv0.
  apply app_nil_r.
Qed.

(** * The retry policy *)

(** C4 (as amended): on the restart path, from a consistent state of the
    manager with the retry counter at zero and with the child behind the
    handle gone or able to be signalled, three launches in a row whose child
    exits within the startup grace make three rounds: a launch and three
    seconds of grace each, a retry line and three seconds of backoff between
    them, then the abandonment line; the restart comes back, the counter is
    zero again and no child runs.  On the start path there is no retry: a
    first launch that fails ends [main] with exit status 1 after that one
    launch, with no child running. *)
Theorem C4_retry_policy env s :
  retry_count s = 0%nat ->
  stoppable s ->
  Inv s ->
  exits_early env (launches s) = true ->
  exits_early env (S (launches s)) = true ->
  exits_early env (S (S (launches s))) = true ->
  (exists s',
      restart_server env s = (s', Ret tt)
      /\ launches s' = (launches s + 3)%nat
      /\ retry_view s'
         = [APrint MMaxRetries; ASleep 3000; APrint MRestarting;
            ASleep 3000; APrint (MRetry 2); ASleep 3000; APrint MRestarting;
            ASleep 3000; APrint (MRetry 1); ASleep 3000; APrint MRestarting]
           ++ retry_view s
      /\ (exists tr, trace s' = APrint MMaxRetries :: tr)
      /\ retry_count s' = 0%nat
      /\ none_alive s')
  /\ (forall evs t0,
         launch_fails env 0 = true ->
         exists s1,
           main env evs (init t0) = (s1, Ret 1)
           /\ launches s1 = 1%nat
           /\ none_alive s1
           /\ retry_view s1 = if exits_early env 0 then [ASleep 3000] else []).
Proof.
  intros Hrc Hst HI E1 E2 E3. split.
  - destruct (three_failures env s Hrc Hst)
      as (s' & Hr & Hl & Hz & _ & _ & Htr & HInv & Hv);
      auto using exits_early_fails.
    exists s'. repeat split; auto. now apply HInv.
  - intros evs t0. apply main_failed_start.
Qed.

Lemma Inv_stubborn_state : Inv stubborn_state.
Proof.
  apply (start_server_Inv env_crashing (init 0));
    [apply Inv_init | apply none_alive_init].
Qed.

Lemma stoppable_stubborn_state : stoppable stubborn_state.
Proof.
  right. intros p E. vm_compute in E. injection E as <-.
  split; [discriminate | now exists 10%nat].
Qed.

Lemma C4_retry_policy_witness :
  exists s',
    restart_server env_crashing stubborn_state = (s', Ret tt)
    /\ launches s' = (launches stubborn_state + 3)%nat
    /\ retry_view s'
       = [APrint MMaxRetries; ASleep 3000; APrint MRestarting;
          ASleep 3000; APrint (MRetry 2); ASleep 3000; APrint MRestarting;
          ASleep 3000; APrint (MRetry 1); ASleep 3000; APrint MRestarting]
         ++ retry_view stubborn_state
    /\ (exists tr, trace s' = APrint MMaxRetries :: tr)
    /\ retry_count s' = 0%nat
    /\ none_alive s'.
Proof.
  apply (C4_retry_policy env_crashing stubborn_state);
    [ reflexivity | exact stoppable_stubborn_state | exact Inv_stubborn_state
    | reflexivity | reflexivity | reflexivity ].
Defined.

(** C4, the claim as listed, fails on the start path: with every launch
    failing, [main] makes one launch, logs no retry and no abandonment, and
    exits with status 1; it does not go on to three launches.  It also fails
    on the restart path when the running child cannot be stopped: with a child
    for which [terminate()] raises, three failing launches are made beside it
    and the abandonment is reported with that child still running. *)
Lemma C4_start_is_not_retried :
  launch_fails env_all_crash 0 = true
  /\ launch_fails env_all_crash 1 = true
  /\ launch_fails env_all_crash 2 = true
  /\ snd (main env_all_crash [] (init 0)) = Ret 1
  /\ launches (fst (main env_all_crash [] (init 0))) = 1%nat
  /\ launches (fst (main env_all_crash [] (init 0))) <> 3%nat
  /\ retry_view (fst (main env_all_crash [] (init 0))) = [ASleep 3000]
  /\ snd (restart_server env_deaf_crashing deaf_crashing_state) = Ret tt
  /\ launches (fst (restart_server env_deaf_crashing deaf_crashing_state))
     = 4%nat
  /\ hd_error (trace (fst (restart_server env_deaf_crashing
                             deaf_crashing_state)))
     = Some (APrint MMaxRetries)
  /\ List.length
       (live_children (fst (restart_server env_deaf_crashing
                              deaf_crashing_state)))
     = 1%nat.
Proof.
  repeat split; try reflexivity; try (vm_compute; reflexivity).
  vm_compute. discriminate.
Qed.

(** C10: [restart_server] comes back with the retry counter at zero, after a
    success as after an abandonment, and so does a successful
    [start_server].  So after a restart that was abandoned, three further
    failing launches make the next restart go through three launches again
    before it abandons. *)
Theorem C10_retry_budget_restored env s :
  retry_count s = 0%nat ->
  stoppable s ->
  (forall i, (i < 6)%nat -> launch_fails env (launches s + i) = true) ->
  (exists s1 s2,
      restart_server env s = (s1, Ret tt)
      /\ (exists tr, trace s1 = APrint MMaxRetries :: tr)
      /\ retry_count s1 = 0%nat
      /\ launches s1 = (launches s + 3)%nat
      /\ restart_server env s1 = (s2, Ret tt)
      /\ (exists tr, trace s2 = APrint MMaxRetries :: tr)
      /\ retry_count s2 = 0%nat
      /\ launches s2 = (launches s1 + 3)%nat)
  /\ (forall s0 s0', restart_server env s0 = (s0', Ret tt) ->
                     retry_count s0' = 0%nat)
  /\ (forall s0, snd (start_server env s0) = Ret true ->
                 retry_count (fst (start_server env s0)) = 0%nat).
Proof.
  intros Hrc Hst Hf. split; [| split].
  - destruct (three_failures env s Hrc Hst)
      as (s1 & Hr1 & Hl1 & Hz1 & Hd1 & _ & Htr1 & _).
    { rewrite <- (Nat.add_0_r (launches s)). apply Hf. lia. }
    { replace (S (launches s)) with (launches s + 1)%nat by lia. apply Hf. lia. }
    { replace (S (S (launches s))) with (launches s + 2)%nat by lia. apply Hf. lia. }
    destruct (three_failures env s1 Hz1 (or_introl Hd1))
      as (s2 & Hr2 & Hl2 & Hz2 & _ & _ & Htr2 & _).
    { rewrite Hl1. apply Hf. lia. }
    { rewrite Hl1. replace (S (launches s + 3)) with (launches s + 4)%nat by lia.
      apply Hf. lia. }
    { rewrite Hl1. replace (S (S (launches s + 3))) with (launches s + 5)%nat by lia.
      apply Hf. lia. }
    exists s1, s2. repeat split; auto.
  - intros s0 s0' E.
    pose proof (restart_upto_result env max_retries s0) as (H & _).
    unfold restart_server in E. rewrite E in H. now apply H.
  - intros s0. rewrite start_server_flat_ok.
    destruct (start_flat_retry env (fst (kill_process_on_port env port s0)))
      as [[_ Hz] | [E _]]; [auto | congruence].
Qed.

Lemma C10_retry_budget_restored_witness :
  exists s1 s2,
    restart_server env_all_crash (init 0) = (s1, Ret tt)
    /\ (exists tr, trace s1 = APrint MMaxRetries :: tr)
    /\ retry_count s1 = 0%nat
    /\ launches s1 = (launches (init 0) + 3)%nat
    /\ restart_server env_all_crash s1 = (s2, Ret tt)
    /\ (exists tr, trace s2 = APrint MMaxRetries :: tr)
    /\ retry_count s2 = 0%nat
    /\ launches s2 = (launches s1 + 3)%nat.
Proof.
  apply (C10_retry_budget_restored env_all_crash (init 0)).
  - reflexivity.
  - left. intros p E. discriminate.
  - intros i _. reflexivity.
Defined.

(** * The pending flag *)

Lemma on_change_before env t event s :
  on_change env t event s = _handle_file_change env event (seen_at t s)
  /\ snd (before_handler t s) = Ret tt.
Proof.
  unfold on_change, seen_at, before_handler, reset_pending.
  cbv [bind modify get ret].
  destruct (reset_at _) as [d |]; [destruct (d <=? _) |]; split; reflexivity.
Qed.

Lemma seen_at_facts t s :
  clock (seen_at t s) = Z.max (clock s) t
  /\ last_reload (seen_at t s) = last_reload s
  /\ process (seen_at t s) = process s
  /\ trace (seen_at t s) = trace s
  /\ pending_restart (seen_at t s)
     = match reset_at s with
       | Some d => if d <=? Z.max (clock s) t then false else pending_restart s
       | None => pending_restart s
       end
  /\ reset_at (seen_at t s)
     = match reset_at s with
       | Some d => if d <=? Z.max (clock s) t then None else Some d
       | None => None
       end.
Proof.
  unfold seen_at, before_handler, reset_pending.
  cbv [bind modify get ret]. cbn [reset_at clock set_clock].
  destruct (reset_at s) as [d |] eqn:E; [destruct (d <=? _) |];
    cbn [fst]; st_simpl; rewrite ?E; repeat split.
Qed.

Lemma decision_eligible event s :
  eligible event = true ->
  decision event s
  = if clock s - last_reload s <? reload_delay then Debounced
    else if pending_restart s then LoggedPending else Accepted.
Proof.
  unfold eligible, decision. intros H.
  apply andb_true_iff in H. destruct H as [H H3].
  apply andb_true_iff in H. destruct H as [H1 H2].
  apply negb_true_iff in H1. apply negb_true_iff in H3.
  now rewrite H1, H2, H3.
Qed.

(** What an accepted event leaves behind. *)
Lemma accepted_result env event s s' :
  _handle_file_change env event s = (s', Ret Accepted) ->
  decision event s = Accepted
  /\ exists s3,
      restart_server env (accepted_state event s) = (s3, Ret tt)
      /\ s' = set_trace (AResetThread (clock s3 + 1000) :: trace s3)
                (set_reset_at (Some (clock s3 + 1000)) s3).
Proof.
  rewrite handle_file_change_effect.
  destruct (decision event s) eqn:Ed;
    try (cbn [effect]; intros H; injection H as _ H; discriminate).
  rewrite effect_accepted.
  intros H. split; [reflexivity |].
  destruct (restart_server env (accepted_state event s)) as [s3 [[] | e |]] eqn:E.
  - rewrite (bind_Ret _ _ _ _ _ E) in H. exists s3. split; [reflexivity |].
    cbv [start_reset_pending bind get modify emit ret] in H.
    now injection H as <-.
  - rewrite (bind_Raise _ _ _ _ _ E) in H. discriminate.
  - unfold bind in H. rewrite E in H. discriminate.
Qed.

(** C9: once an event is accepted, the pending flag is set in the state
    that is handed to [restart_server]; [restart_server] leaves the flag as it
    is; when the handler is back the flag is still set and the
    [reset_pending] thread is due exactly one second after the return of
    [restart_server], whether the launch succeeded or was abandoned.  An
    eligible event seen before that moment is only logged; one seen at that
    moment or later is accepted. *)
Theorem C9_pending_flag env event s s' :
  _handle_file_change env event s = (s', Ret Accepted) ->
  pending_restart (accepted_state event s) = true
  /\ _handle_file_change env event s
     = (restart_server env ;; start_reset_pending ;; ret Accepted)
         (accepted_state event s)
  /\ pending_restart (fst (restart_server env (accepted_state event s))) = true
  /\ snd (restart_server env (accepted_state event s)) = Ret tt
  /\ pending_restart s' = true
  /\ reset_at s'
     = Some (clock (fst (restart_server env (accepted_state event s))) + 1000)
  /\ clock s' = clock (fst (restart_server env (accepted_state event s)))
  /\ (forall t event2,
         eligible event2 = true ->
         (clock s' <= t < clock s' + 1000 ->
          decision event2 (seen_at t s') = LoggedPending)
         /\ (clock s' + 1000 <= t ->
             decision event2 (seen_at t s') = Accepted)).
Proof.
  intros H. destruct (accepted_result env event s s' H) as (Ed & s3 & E3 & ->).
  pose proof (restart_server_handler env (accepted_state event s)) as (Hl & Hp & _).
  pose proof (restart_upto_result env max_retries (accepted_state event s))
    as (Hres & _).
  unfold restart_server in *. rewrite E3 in *. cbn [fst snd] in *.
  destruct (Hres eq_refl) as [_ Hclk]. cbn in Hclk, Hl, Hp.
  split; [reflexivity |].
  split; [rewrite handle_file_change_effect, Ed; apply effect_accepted |].
  split; [exact Hp |]. split; [reflexivity |].
  split; [exact Hp |]. split; [reflexivity |]. split; [reflexivity |].
  intros t event2 He.
  rewrite (decision_eligible _ _ He).
  destruct (seen_at_facts t
              (set_trace (AResetThread (clock s3 + 1000) :: trace s3)
                 (set_reset_at (Some (clock s3 + 1000)) s3)))
    as (Hc & Hlr & _ & _ & Hpd & _).
  rewrite Hc, Hlr, Hpd. cbn [clock last_reload reset_at pending_restart
                              set_trace set_reset_at].
  rewrite Hl, Hp.
  split; intros Ht.
  - destruct (Z.ltb_spec (Z.max (clock s3) t - clock s) reload_delay);
      [unfold reload_delay in *; lia |].
    destruct (Z.leb_spec (clock s3 + 1000) (Z.max (clock s3) t)); [lia |].
    reflexivity.
  - destruct (Z.ltb_spec (Z.max (clock s3) t - clock s) reload_delay);
      [unfold reload_delay in *; lia |].
    destruct (Z.leb_spec (clock s3 + 1000) (Z.max (clock s3) t)); [| lia].
    reflexivity.
Qed.

Lemma C9_pending_flag_witness :
  _handle_file_change env_good py_event serving_state
  = (after_change_state, Ret Accepted)
  /\ pending_restart after_change_state = true
  /\ reset_at after_change_state = Some (clock after_change_state + 1000).
Proof.
  assert (H : _handle_file_change env_good py_event serving_state
              = (after_change_state, Ret Accepted)) by (vm_compute; reflexivity).
  split; [exact H |].
  destruct (C9_pending_flag env_good py_event serving_state after_change_state H)
    as (_ & _ & _ & _ & Hp & Hr & Hc & _).
  split; [exact Hp |]. rewrite Hc. exact Hr.
Defined.

(** * How long a restart takes *)

Lemma same_sweeps_refl s : same_sweeps s s.
Proof. reflexivity. Qed.

Lemma same_sweeps_trans a b c :
  same_sweeps a b -> same_sweeps b c -> same_sweeps a c.
Proof. unfold same_sweeps; congruence. Qed.

Ltac frame_sweeps :=
  respects_with same_sweeps_refl same_sweeps_trans ltac:(reflexivity).

Lemma kill_current_process_sweeps : respects same_sweeps kill_current_process.
Proof.
  unfold kill_current_process, poll_is_none, terminate, wait_timeout, kill,
    wait, reap, print, emit, poll_is_none; frame_sweeps.
Qed.

Lemma bind_unfold {A B} (m : M A) (k : A -> M B) s :
  bind m k s
  = match m s with
    | (s', Ret a) => k a s'
    | (s', Raise e) => (s', Raise e)
    | (s', Diverge) => (s', Diverge)
    end.
Proof. reflexivity. Qed.

(** ** The port sweep, exactly *)

Lemma advanced_zero l s : advanced 0 l s = set_trace (l ++ trace s) s.
Proof.
  destruct s. unfold advanced, set_clock, set_trace. st_simpl. f_equal. lia.
Qed.

Lemma advanced_advanced a l b m s :
  advanced a l (advanced b m s) = advanced (b + a) (l ++ m) s.
Proof.
  destruct s. unfold advanced, set_clock, set_trace. st_simpl.
  f_equal; [lia | apply app_assoc].
Qed.

Lemma advanced_eq a b l s : a = b -> advanced a l s = advanced b l s.
Proof. now intros ->. Qed.

Lemma conn_step_killed z n c cs s :
  (laddr_port c =? z) = true -> kill_resp c = PsKilled ->
  conn_loop z n (c :: cs) s
  = conn_loop z n cs
      (advanced 1000 [ASleep 1000; APsKill n; APrint (MKillingOnPort z n)] s).
Proof. intros E1 E2. cbn [conn_loop]. rewrite E1, E2. reflexivity. Qed.

Lemma conn_step_raises z n c cs s :
  (laddr_port c =? z) = true -> kill_resp c <> PsKilled ->
  conn_loop z n (c :: cs) s
  = (set_trace (APrint (MKillingOnPort z n) :: trace s) s,
     calls_result [kill_resp c]).
Proof.
  intros E1 E2. cbn [conn_loop]. rewrite E1.
  destruct (kill_resp c); [congruence | reflexivity | reflexivity].
Qed.

Lemma conn_step_other z n c cs s :
  (laddr_port c =? z) = false -> conn_loop z n (c :: cs) s = conn_loop z n cs s.
Proof. intros E1. cbn [conn_loop]. rewrite E1. reflexivity. Qed.

Lemma conn_loop_exact z n cs :
  forall s,
    conn_loop z n cs s
    = (advanced (1000 * Z.of_nat (sweep_kills (conn_calls z cs)))
         (conn_trace z n cs) s,
       calls_result (conn_calls z cs)).
Proof.
  induction cs as [| c cs IH]; intros s.
  - cbn. now rewrite advanced_zero, <- (advanced_zero [] s), advanced_zero;
      destruct s.
  - cbn [conn_calls conn_trace]. unfold on_port.
    destruct (laddr_port c =? z) eqn:E1.
    + destruct (kill_resp c) eqn:E2.
      * rewrite (conn_step_killed z n c cs s E1 E2), IH, advanced_advanced.
        cbn [sweep_kills calls_result]. f_equal.
        apply advanced_eq. lia.
      * rewrite conn_step_raises by (auto; congruence). rewrite E2.
        cbn [sweep_kills calls_result]. f_equal.
        now rewrite advanced_zero.
      * rewrite conn_step_raises by (auto; congruence). rewrite E2.
        cbn [sweep_kills calls_result]. f_equal.
        now rewrite advanced_zero.
    + rewrite conn_step_other by exact E1. apply IH.
Qed.

(** The calls made for one process end with the first that raises. *)
Lemma conn_calls_shape z cs :
  (sweep_aborts (conn_calls z cs) = true
   /\ calls_result (conn_calls z cs) = Raise OtherError
   /\ forall r,
       sweep_kills (conn_calls z cs ++ r) = sweep_kills (conn_calls z cs)
       /\ sweep_aborts (conn_calls z cs ++ r) = true)
  \/ (sweep_aborts (conn_calls z cs) = false
      /\ (calls_result (conn_calls z cs) = Ret tt
          \/ calls_result (conn_calls z cs) = Raise PsNoSuchProcess)
      /\ forall r,
          sweep_kills (conn_calls z cs ++ r)
          = (sweep_kills (conn_calls z cs) + sweep_kills r)%nat
          /\ sweep_aborts (conn_calls z cs ++ r) = sweep_aborts r).
Proof.
  induction cs as [| c cs IH]; [right; cbn; auto |].
  cbn [conn_calls]. destruct (on_port z c); [| exact IH].
  destruct (kill_resp c).
  - cbn [sweep_aborts calls_result sweep_kills app].
    destruct IH as [(Ha & Hr & Hk) | (Ha & Hr & Hk)]; [left | right];
      (split; [exact Ha |]); (split; [exact Hr |]);
      intros r; destruct (Hk r) as [K1 K2]; split; [lia | exact K2 | lia | exact K2].
  - right. cbn. auto.
  - left. cbn. auto.
Qed.

Lemma sweep_loop_exact z l :
  forall s,
    sweep_loop z l s
    = (advanced (1000 * Z.of_nat (sweep_kills (sweep_calls z l)))
         (sweep_trace z l) s,
       if sweep_aborts (sweep_calls z l) then Raise OtherError else Ret tt).
Proof.
  induction l as [| p l IH]; intros s.
  - cbn. rewrite advanced_zero. now destruct s.
  - cbn [sweep_loop sweep_calls sweep_trace].
    rewrite bind_unfold. unfold try_except. rewrite conn_loop_exact.
    destruct (conn_calls_shape z (conns p)) as [(Ha & Hr & Hk) | (Ha & Hr & Hk)];
      destruct (Hk (sweep_calls z l)) as [K1 K2]; rewrite Ha, K1, K2.
    + rewrite Hr. reflexivity.
    + assert (E : (let (s', r) :=
                     match calls_result (conn_calls z (conns p)) with
                     | Raise e =>
                         if is_ps_error e
                         then ret tt
                                (advanced
                                   (1000 * Z.of_nat
                                             (sweep_kills (conn_calls z (conns p))))
                                   (conn_trace z (ps_pid p) (conns p)) s)
                         else
                           (advanced
                              (1000 * Z.of_nat
                                        (sweep_kills (conn_calls z (conns p))))
                              (conn_trace z (ps_pid p) (conns p)) s, Raise e)
                     | r0 =>
                         (advanced
                            (1000 * Z.of_nat
                                      (sweep_kills (conn_calls z (conns p))))
                            (conn_trace z (ps_pid p) (conns p)) s, r0)
                     end in
                   (s', r))
                  = (advanced
                       (1000 * Z.of_nat (sweep_kills (conn_calls z (conns p))))
                       (conn_trace z (ps_pid p) (conns p)) s, Ret tt)).
      { destruct Hr as [-> | ->]; reflexivity. }
      match goal with
      | |- match ?m with _ => _ end = _ =>
          replace m with
            (advanced (1000 * Z.of_nat (sweep_kills (conn_calls z (conns p))))
               (conn_trace z (ps_pid p) (conns p)) s, @Ret unit tt)
            by (destruct Hr as [-> | ->]; reflexivity)
      end.
      rewrite IH, advanced_advanced. f_equal. apply advanced_eq. lia.
Qed.

(** [kill_process_on_port], outcome by outcome. *)
Lemma kill_process_on_port_exact env z s :
  kill_process_on_port env z s
  = (match sweep_plan env (sweeps s) with
     | IterRaises =>
         set_trace (APrint MErrPort :: trace (set_sweeps (S (sweeps s)) s))
           (set_sweeps (S (sweeps s)) s)
     | Holders l =>
         advanced (1000 * Z.of_nat (sweep_kills (sweep_calls z l)))
           ((if sweep_aborts (sweep_calls z l) then [APrint MErrPort] else [])
            ++ sweep_trace z l)
           (set_sweeps (S (sweeps s)) s)
     end, Ret tt).
Proof.
  unfold kill_process_on_port, try_except.
  rewrite bind_get, bind_modify. cbn [sweeps set_sweeps].
  destruct (sweep_plan env (sweeps s)) as [| l]; [reflexivity |].
  rewrite sweep_loop_exact.
  destruct (sweep_aborts (sweep_calls z l)); [| reflexivity].
  cbn [any_exception]. unfold print, emit, modify, advanced. reflexivity.
Qed.

Lemma sweep_kills_le_calls l : (sweep_kills l <= List.length l)%nat.
Proof.
  induction l as [| r l IH]; [cbn; lia |].
  destruct r; cbn [sweep_kills List.length]; lia.
Qed.

Lemma conn_calls_le z cs :
  (List.length (conn_calls z cs) <= List.length (filter (on_port z) cs))%nat.
Proof.
  induction cs as [| c cs IH]; [cbn; lia |].
  cbn [conn_calls filter]. destruct (on_port z c); [| exact IH].
  destruct (kill_resp c); cbn [List.length]; lia.
Qed.

Lemma sweep_calls_le z l :
  (List.length (sweep_calls z l) <= port_conns z l)%nat.
Proof.
  induction l as [| p l IH]; [cbn; lia |].
  cbn [sweep_calls port_conns]. rewrite length_app.
  pose proof (conn_calls_le z (conns p)). lia.
Qed.

Lemma kill_process_on_port_time env z s :
  sweeps (fst (kill_process_on_port env z s)) = S (sweeps s)
  /\ clock (fst (kill_process_on_port env z s))
     <= clock s + sweep_time_on z env (sweeps s).
Proof.
  rewrite kill_process_on_port_exact. unfold sweep_time_on.
  destruct (sweep_plan env (sweeps s)) as [| l]; cbn [fst].
  - cbn. split; [reflexivity | lia].
  - unfold advanced. st_simpl. split; [reflexivity |].
    pose proof (sweep_kills_le_calls (sweep_calls z l)).
    pose proof (sweep_calls_le z l). lia.
Qed.

Lemma kill_process_on_port_bound env s :
  sweeps (fst (kill_process_on_port env port s)) = S (sweeps s)
  /\ clock (fst (kill_process_on_port env port s))
     <= clock s + sweep_time env (sweeps s).
Proof. apply kill_process_on_port_time. Qed.

Lemma kcp_clock_bound s :
  clock (fst (kill_current_process s)) <= clock s + kill_cost s.
Proof.
  rewrite kcp_flat_ok. unfold kcp_flat, kill_cost.
  destruct (process s) as [p |]; [| st_simpl; lia].
  destruct (alive p s) eqn:Ha; [| st_simpl; lia].
  assert (Hg : forall e, graceful_end p (clock s) = Some e -> e <= clock s + 5000).
  { unfold graceful_end. intros e.
    destruct (match on_term (behaviour p) with
              | TermExits d => _ | _ => _ end) as [e' |]; [| discriminate].
    destruct (Z.leb_spec e' (clock s + 5000)); [| discriminate].
    intros He. injection He as <-. lia. }
  destruct (on_term (behaviour p)) as [dt | |];
    destruct (graceful_end p (clock s)) as [e |] eqn:Eg;
    try specialize (Hg e eq_refl);
    destruct (on_kill (behaviour p)) as [dk | |];
    try destruct (natural_death p) as [n |];
    st_simpl;
    try pose proof (exit_time_le p (clock s + 5000 + Z.of_nat dk));
    lia.
Qed.

Lemma start_flat_clock env s0 :
  clock (fst (start_server_flat env s0)) <= clock s0 + 3000
  /\ sweeps (fst (start_server_flat env s0)) = sweeps s0.
Proof.
  unfold start_server_flat. cbv zeta.
  destruct (popen_plan env (launches s0)); [st_simpl; split; [lia | reflexivity] |].
  match goal with |- context [if ?c then _ else _] => destruct c end;
    st_simpl; split; (lia || reflexivity).
Qed.







(** * The restart sequence *)



(** * Bursts of events *)

Lemma same_hr_refl s : same_handler_restarts s s.
Proof. reflexivity. Qed.

Lemma same_hr_trans a b c :
  same_handler_restarts a b -> same_handler_restarts b c ->
  same_handler_restarts a c.
Proof. unfold same_handler_restarts; congruence. Qed.

Ltac frame_hr := respects_with same_hr_refl same_hr_trans ltac:(reflexivity).

Lemma kill_process_on_port_hr env z :
  respects same_handler_restarts (kill_process_on_port env z).
Proof.
  assert (Hconn : forall y n cs, respects same_handler_restarts (conn_loop y n cs)).
  { induction cs; cbn [conn_loop]; unfold ps_kill, print, sleep, emit;
      frame_hr. }
  assert (forall y l, respects same_handler_restarts (sweep_loop y l)).
  { induction l; cbn [sweep_loop]; frame_hr. }
  unfold kill_process_on_port, print, emit; frame_hr.
Qed.

Lemma kill_current_process_hr : respects same_handler_restarts kill_current_process.
Proof.
  unfold kill_current_process, poll_is_none, terminate, wait_timeout, kill,
    wait, reap, print, emit, poll_is_none; frame_hr.
Qed.

Lemma start_server_hr env : respects same_handler_restarts (start_server env).
Proof.
  pose proof (kill_process_on_port_hr env port).
  unfold start_server, Popen, poll_is_none, print, sleep, emit; frame_hr.
Qed.

Lemma restart_server_upto_hr env d :
  respects same_handler_restarts (restart_server_upto env d).
Proof.
  pose proof (start_server_hr env). pose proof kill_current_process_hr.
  induction d; cbn [restart_server_upto];
    unfold handle_restart_failure, print, sleep, emit; frame_hr.
Qed.

Lemma seen_at_hr t s : handler_restarts (seen_at t s) = handler_restarts s.
Proof.
  unfold handler_restarts. destruct (seen_at_facts t s) as (_ & _ & _ & -> & _ & _).
  reflexivity.
Qed.

(** Each returned event adds one restart if it was accepted, none
    otherwise. *)
Lemma handle_file_change_count env event s s' o :
  _handle_file_change env event s = (s', Ret o) ->
  handler_restarts s'
  = (handler_restarts s + if is_accepted o then 1 else 0)%nat.
Proof.
  intros H. pose proof H as H0.
  rewrite handle_file_change_effect in H0.
  destruct (decision event s) eqn:Ed;
    try (cbn [effect] in H0; injection H0 as <- <-; cbn; lia).
  { cbn [effect] in H0. rewrite bind_print in H0. injection H0 as <- <-.
    unfold handler_restarts. st_simpl. cbn [filter is_handler_restart is_accepted].
    lia. }
  rewrite effect_accepted in H0.
  assert (o = Accepted).
  { destruct (restart_server env (accepted_state event s)) as [s3 [[] | e |]] eqn:E;
      [ rewrite (bind_Ret _ _ _ _ _ E) in H0; injection H0 as _ <-; reflexivity
      | rewrite (bind_Raise _ _ _ _ _ E) in H0; discriminate
      | rewrite bind_unfold, E in H0; discriminate ]. }
  subst o. destruct (accepted_result env event s s' H) as (_ & s3 & E3 & ->).
  pose proof (restart_server_upto_hr env max_retries (accepted_state event s)) as Hhr.
  unfold restart_server in E3. rewrite E3 in Hhr.
  unfold same_handler_restarts in Hhr. cbn [fst] in Hhr.
  change (handler_restarts s3 = (handler_restarts s + 1)%nat).
  rewrite Hhr. unfold handler_restarts, accepted_state. cbn. lia.
Qed.

Lemma run_events_count env :
  forall evs s s' os,
    run_events env evs s = (s', Ret os) ->
    handler_restarts s'
    = (handler_restarts s + List.length (filter is_accepted os))%nat.
Proof.
  induction evs as [| [t e] evs IH]; intros s s' os H.
  - cbn in H. injection H as <- <-. cbn. lia.
  - cbn [run_events] in H. rewrite bind_unfold in H.
    destruct (on_change_before env t e s) as [Eo _].
    destruct (on_change env t e s) as [s1 [o | x |]] eqn:E1; try discriminate.
    rewrite bind_unfold in H.
    destruct (run_events env evs s1) as [s2 [os2 | x |]] eqn:E2; try discriminate.
    injection H as <- <-.
    rewrite (IH _ _ _ E2).
    symmetry in Eo. rewrite (handle_file_change_count _ _ _ _ _ Eo), seen_at_hr.
    cbn [filter]. destruct (is_accepted o); cbn [List.length]; lia.
Qed.

(** While a restart is in flight, events raised within the debounce
    interval of the accepted one are logged and change nothing else. *)
Lemma burst_tail env t0 :
  forall rest s,
    in_flight t0 s ->
    Forall (fun te => eligible (snd te) = true
                      /\ fst te < t0 + reload_delay) rest ->
    exists s',
      run_events env rest s
      = (s', Ret (repeat LoggedPending (List.length rest)))
      /\ in_flight t0 s'
      /\ clock s' = clock s
      /\ reset_at s' = reset_at s
      /\ process s' = process s.
Proof.
  induction rest as [| [t e] rest IH]; intros s Hin Hall.
  - exists s. cbn. auto.
  - inversion Hall as [| ? ? [He Ht] Hall']; subst. cbn [fst snd] in *.
    destruct Hin as (Hp & Hl & Hc & d & Hd & Hlt).
    destruct (seen_at_facts t s) as (Sc & Sl & Sp & St' & Spd & Hra).
    rewrite Hd in Spd, Hra.
    assert (Hmax : Z.max (clock s) t = clock s) by lia.
    rewrite Hmax in *.
    destruct (Z.leb_spec d (clock s)); [lia |].
    assert (Hdec : decision e (seen_at t s) = LoggedPending).
    { rewrite (decision_eligible _ _ He), Sc, Sl, Spd, Hp, Hl.
      destruct (Z.ltb_spec (clock s - t0) reload_delay); [lia | reflexivity]. }
    cbn [run_events List.length repeat].
    destruct (on_change_before env t e s) as [Eo _].
    rewrite handle_file_change_effect, Hdec in Eo. cbn [effect] in Eo.
    rewrite bind_print in Eo. unfold ret in Eo.
    rewrite (bind_Ret _ _ _ _ _ Eo).
    match type of Eo with _ = (?s1, _) =>
      destruct (IH s1) as (s' & Er & Hin' & Hc' & Hr' & Hp'); [| exact Hall' |]
    end.
    + repeat split; st_simpl; try congruence; try lia.
      exists d. st_simpl. split; [congruence | lia].
    + exists s'. rewrite (bind_Ret _ _ _ _ _ Er).
      split; [reflexivity |]. split; [exact Hin' |].
      st_simpl_in Hc'. st_simpl_in Hr'. st_simpl_in Hp'.
      repeat split; congruence.
Qed.

Lemma seen_at_reaped t s : reaped (seen_at t s) = reaped s.
Proof.
  unfold seen_at, before_handler, reset_pending.
  cbv [bind modify get ret]. cbn [reset_at clock set_clock].
  destruct (reset_at s) as [d |] eqn:E; [destruct (d <=? _) |]; reflexivity.
Qed.

Lemma filter_accepted_logged n :
  filter is_accepted (repeat LoggedPending n) = [].
Proof. induction n; cbn; auto. Qed.

Lemma stoppable_later s s' :
  process s' = process s -> incl (reaped s) (reaped s') -> clock s <= clock s' ->
  stoppable s -> stoppable s'.
Proof.
  intros Hp Hr Hc [Hd | Hs]; [left | right].
  - now apply (current_dead_later s).
  - now apply (current_safe_same s).
Qed.

(** ** No bound that holds for every child *)



(** * Further properties of the code *)

(** ** The port sweep *)

Lemma only_time_and_log_refl s : only_time_and_log s s.
Proof. repeat split. Qed.

Lemma only_time_and_log_trans a b c :
  only_time_and_log a b -> only_time_and_log b c -> only_time_and_log a c.
Proof. unfold only_time_and_log. intuition congruence. Qed.

Ltac frame_otl :=
  respects_with only_time_and_log_refl only_time_and_log_trans
    ltac:(repeat split).

Lemma sweep_kills_no_abort l :
  sweep_aborts l = false -> sweep_kills l = killable l.
Proof.
  unfold killable. induction l as [| r l IH]; [reflexivity |].
  destruct r; cbn; intros H; try discriminate; rewrite IH; auto.
Qed.

Lemma sweep_kills_abort l1 l2 :
  sweep_aborts l1 = false ->
  sweep_kills (l1 ++ PsError :: l2) = killable l1
  /\ sweep_aborts (l1 ++ PsError :: l2) = true.
Proof.
  unfold killable. induction l1 as [| r l IH]; [cbn; auto |].
  destruct r; cbn; intros H; try discriminate;
    destruct (IH H) as [-> ->]; auto.
Qed.

Lemma kill_process_on_port_only_time_and_log env z :
  respects only_time_and_log (kill_process_on_port env z).
Proof.
  intros s. rewrite kill_process_on_port_exact.
  destruct (sweep_plan env (sweeps s)); repeat split.
Qed.

(** *** What the pass writes *)

Lemma conn_trace_print z n cs :
  existsb (on_port z) cs = true ->
  In (APrint (MKillingOnPort z n)) (conn_trace z n cs).
Proof.
  induction cs as [| c cs IH]; [discriminate |].
  cbn [existsb conn_trace]. destruct (on_port z c); cbn [orb]; [intros _ | exact IH].
  destruct (kill_resp c); [| now left | now left].
  apply in_or_app. right. cbn. auto.
Qed.

Lemma conn_trace_kill z n cs :
  hd_error (conn_calls z cs) = Some PsKilled ->
  In (APsKill n) (conn_trace z n cs).
Proof.
  induction cs as [| c cs IH]; [discriminate |].
  cbn [conn_calls conn_trace]. destruct (on_port z c); [| exact IH].
  destruct (kill_resp c); try discriminate. intros _.
  apply in_or_app. right. cbn. auto.
Qed.

Lemma conn_trace_only z n cs m :
  In (APsKill m) (conn_trace z n cs) ->
  m = n /\ existsb (on_port z) cs = true.
Proof.
  induction cs as [| c cs IH]; [contradiction |].
  cbn [existsb conn_trace]. destruct (on_port z c); cbn [orb]; [| exact IH].
  destruct (kill_resp c).
  - intros H. apply in_app_or in H. destruct H as [H | H].
    + destruct (IH H) as [-> _]. auto.
    + cbn in H. destruct H as [H | [H | [H | []]]]; try discriminate.
      injection H as ->. auto.
  - intros [H | []]. discriminate.
  - intros [H | []]. discriminate.
Qed.

Lemma conn_trace_kills z n cs :
  List.length (filter is_ps_kill (conn_trace z n cs))
  = sweep_kills (conn_calls z cs)
  /\ filter is_port_error (conn_trace z n cs) = [].
Proof.
  induction cs as [| c cs [IH1 IH2]]; [cbn; auto |].
  cbn [conn_calls conn_trace]. destruct (on_port z c); [| auto].
  destruct (kill_resp c); [| cbn; auto | cbn; auto].
  rewrite !filter_app, length_app, IH1, IH2. cbn. split; [lia | reflexivity].
Qed.

Lemma sweep_trace_kills z l :
  List.length (filter is_ps_kill (sweep_trace z l))
  = sweep_kills (sweep_calls z l)
  /\ filter is_port_error (sweep_trace z l) = [].
Proof.
  induction l as [| p l [IH1 IH2]]; [cbn; auto |].
  cbn [sweep_calls sweep_trace].
  destruct (conn_trace_kills z (ps_pid p) (conns p)) as [C1 C2].
  destruct (conn_calls_shape z (conns p)) as [(Ha & _ & Hk) | (Ha & _ & Hk)];
    destruct (Hk (sweep_calls z l)) as [K1 _]; rewrite Ha, K1.
  - auto.
  - rewrite !filter_app, length_app, IH1, IH2, C1, C2. split; [lia | reflexivity].
Qed.

Lemma sweep_trace_print z l p :
  In p l -> holds_port z p = true ->
  sweep_aborts (sweep_calls z l) = false ->
  In (APrint (MKillingOnPort z (ps_pid p))) (sweep_trace z l).
Proof.
  unfold holds_port. induction l as [| q l IH]; [contradiction |].
  cbn [sweep_calls sweep_trace]. intros Hin Hh Hab.
  destruct (conn_calls_shape z (conns q)) as [(Ha & _ & Hk) | (Ha & _ & Hk)];
    destruct (Hk (sweep_calls z l)) as [_ K2]; rewrite K2 in Hab;
    [discriminate |].
  rewrite Ha. apply in_or_app. destruct Hin as [-> | Hin].
  - right. now apply conn_trace_print.
  - left. now apply IH.
Qed.

Lemma sweep_trace_kill z l p :
  In p l -> first_call z p = Some PsKilled ->
  sweep_aborts (sweep_calls z l) = false ->
  In (APsKill (ps_pid p)) (sweep_trace z l).
Proof.
  unfold first_call. induction l as [| q l IH]; [contradiction |].
  cbn [sweep_calls sweep_trace]. intros Hin Hh Hab.
  destruct (conn_calls_shape z (conns q)) as [(Ha & _ & Hk) | (Ha & _ & Hk)];
    destruct (Hk (sweep_calls z l)) as [_ K2]; rewrite K2 in Hab;
    [discriminate |].
  rewrite Ha. apply in_or_app. destruct Hin as [-> | Hin].
  - right. now apply conn_trace_kill.
  - left. now apply IH.
Qed.

Lemma sweep_trace_only z l m :
  In (APsKill m) (sweep_trace z l) ->
  exists p, In p l /\ ps_pid p = m /\ holds_port z p = true.
Proof.
  unfold holds_port. induction l as [| q l IH]; [contradiction |].
  cbn [sweep_trace]. intros H.
  assert (Hq : In (APsKill m) (conn_trace z (ps_pid q) (conns q)) ->
               exists p, In p (q :: l) /\ ps_pid p = m
                         /\ existsb (on_port z) (conns p) = true).
  { intros Hc. apply conn_trace_only in Hc. destruct Hc as [-> Hc].
    exists q. split; [now left | auto]. }
  destruct (sweep_aborts (conn_calls z (conns q))); [now apply Hq |].
  apply in_app_or in H. destruct H as [H | H]; [| now apply Hq].
  destruct (IH H) as (p & Hin & Hp). exists p. split; [now right | exact Hp].
Qed.

Lemma kill_process_on_port_counts env z s l :
  sweep_plan env (sweeps s) = Holders l ->
  trace (fst (kill_process_on_port env z s))
  = (if sweep_aborts (sweep_calls z l) then [APrint MErrPort] else [])
    ++ sweep_trace z l ++ trace s
  /\ clock (fst (kill_process_on_port env z s))
     = clock s + 1000 * Z.of_nat (sweep_kills (sweep_calls z l))
  /\ ps_kills (fst (kill_process_on_port env z s))
     = (ps_kills s + sweep_kills (sweep_calls z l))%nat
  /\ port_errors (fst (kill_process_on_port env z s))
     = (port_errors s + if sweep_aborts (sweep_calls z l) then 1 else 0)%nat.
Proof.
  intros Hp. rewrite kill_process_on_port_exact, Hp. cbn [fst].
  unfold advanced, ps_kills, port_errors. st_simpl.
  destruct (sweep_trace_kills z l) as [K1 K2].
  split; [now rewrite app_assoc |]. split; [reflexivity |].
  rewrite !filter_app, !length_app, K1, K2.
  destruct (sweep_aborts (sweep_calls z l)); cbn; lia.
Qed.

(** X1: [kill_process_on_port] never raises, whatever psutil does; it leaves
    the handle, the children, the retry counter and the handler's fields as
    they are, and sleeps at most one second for each connection on the port
    that the processes of the pass have. *)
Theorem X1_port_sweep_contained env z s :
  snd (kill_process_on_port env z s) = Ret tt
  /\ only_time_and_log s (fst (kill_process_on_port env z s))
  /\ sweeps (fst (kill_process_on_port env z s)) = S (sweeps s)
  /\ clock s <= clock (fst (kill_process_on_port env z s))
     <= clock s + sweep_time_on z env (sweeps s).
Proof.
  destruct (kill_process_on_port_time env z s) as [Hs Hc].
  pose proof (kill_process_on_port_clock env z s) as Hm.
  pose proof (kill_process_on_port_only_time_and_log env z s) as Ho.
  unfold clock_mono in Hm.
  split; [now rewrite kill_process_on_port_exact |]. auto.
Qed.

(** X2: when no call of [proc.kill()] raises an error other than
    NoSuchProcess, AccessDenied or ZombieProcess, the sweep announces and
    calls [proc.kill()] for every process of the pass that has a connection
    on the port, the signal goes to each of them whose first call succeeds,
    and to no process without a connection on the port.  The calls are one
    for each connection on the port, until one raises for that process; the
    sweep sleeps exactly one second after each call that sent the signal, and
    logs no port error. *)
Theorem X2_port_sweep_kills_all env z s l :
  sweep_plan env (sweeps s) = Holders l ->
  sweep_aborts (sweep_calls z l) = false ->
  (forall p, In p l -> holds_port z p = true ->
     In (APrint (MKillingOnPort z (ps_pid p)))
        (trace (fst (kill_process_on_port env z s))))
  /\ (forall p, In p l -> first_call z p = Some PsKilled ->
        In (APsKill (ps_pid p)) (trace (fst (kill_process_on_port env z s))))
  /\ (forall m, In (APsKill m) (trace (fst (kill_process_on_port env z s))) ->
        In (APsKill m) (trace s)
        \/ exists p, In p l /\ ps_pid p = m /\ holds_port z p = true)
  /\ ps_kills (fst (kill_process_on_port env z s))
     = (ps_kills s + killable (sweep_calls z l))%nat
  /\ clock (fst (kill_process_on_port env z s))
     = clock s + 1000 * Z.of_nat (killable (sweep_calls z l))
  /\ port_errors (fst (kill_process_on_port env z s)) = port_errors s.
Proof.
  intros Hp Ha.
  destruct (kill_process_on_port_counts env z s l Hp) as (Ht & Hc & Hk & He).
  rewrite Ha in Ht, He. cbn [app] in Ht.
  rewrite (sweep_kills_no_abort _ Ha) in Hc, Hk.
  split; [| split; [| split; [| split; [exact Hk | split; [exact Hc | lia]]]]].
  - intros p Hin Hh. rewrite Ht. apply in_or_app. left.
    now apply sweep_trace_print.
  - intros p Hin Hf. rewrite Ht. apply in_or_app. left.
    now apply sweep_trace_kill.
  - intros m Hin. rewrite Ht in Hin. apply in_app_or in Hin.
    destruct Hin as [Hin | Hin]; [right | now left].
    now apply sweep_trace_only.
Qed.

Lemma X2_port_sweep_kills_all_witness :
  ps_kills (fst (kill_process_on_port (env_with_port twice_on_port) port
                   (init 0)))
  = 2%nat
  /\ clock (fst (kill_process_on_port (env_with_port twice_on_port) port
                   (init 0)))
     = 2000
  /\ In (APsKill 4242)
        (trace (fst (kill_process_on_port (env_with_port twice_on_port) port
                       (init 0))))
  /\ ~ In (APsKill 17)
         (trace (fst (kill_process_on_port (env_with_port twice_on_port) port
                        (init 0)))).
Proof.
  destruct (X2_port_sweep_kills_all
              (env_with_port twice_on_port) port (init 0) twice_on_port
              eq_refl eq_refl) as (_ & Hkill & Honly & Hk & Hc & _).
  split; [exact Hk |]. split; [exact Hc |]. split.
  - apply (Hkill (Build_PsProc 4242
                    (Some [Build_Conn port PsKilled; Build_Conn 22 PsKilled;
                           Build_Conn port PsKilled]))); [now left | reflexivity].
  - intros H. destruct (Honly 17%nat H) as [[] | (p & Hin & Hpid & Hh)].
    destruct Hin as [<- | [<- | []]]; cbn in Hpid, Hh; discriminate.
Defined.

(** X3: an error of another kind ends the sweep with one port-error line:
    the calls before it are made as usual, and nothing that would have come
    after it is killed or waited for. *)
Theorem X3_port_sweep_stops_at_error env z s l l1 l2 :
  sweep_plan env (sweeps s) = Holders l ->
  sweep_calls z l = l1 ++ PsError :: l2 ->
  sweep_aborts l1 = false ->
  snd (kill_process_on_port env z s) = Ret tt
  /\ ps_kills (fst (kill_process_on_port env z s))
     = (ps_kills s + killable l1)%nat
  /\ clock (fst (kill_process_on_port env z s))
     = clock s + 1000 * Z.of_nat (killable l1)
  /\ port_errors (fst (kill_process_on_port env z s)) = S (port_errors s).
Proof.
  intros Hp Hl Ha.
  destruct (kill_process_on_port_counts env z s l Hp) as (_ & Hc & Hk & He).
  destruct (sweep_kills_abort l1 l2 Ha) as [Hn Hb].
  rewrite Hl, Hn in Hc, Hk. rewrite Hl, Hb in He.
  split; [now rewrite kill_process_on_port_exact |].
  split; [exact Hk |]. split; [exact Hc | lia].
Qed.

Lemma X3_port_sweep_stops_at_error_witness :
  ps_kills (fst (kill_process_on_port
                   (env_with_port
                      [holder 1 PsKilled; holder 2 PsError; holder 3 PsKilled])
                   port (init 0)))
  = 1%nat
  /\ port_errors (fst (kill_process_on_port
                         (env_with_port
                            [holder 1 PsKilled; holder 2 PsError;
                             holder 3 PsKilled])
                         port (init 0)))
     = 1%nat.
Proof.
  destruct (X3_port_sweep_stops_at_error
              (env_with_port
                 [holder 1 PsKilled; holder 2 PsError; holder 3 PsKilled])
              port (init 0)
              [holder 1 PsKilled; holder 2 PsError; holder 3 PsKilled]
              [PsKilled] [PsKilled] eq_refl eq_refl eq_refl)
    as (_ & Hk & _ & He).
  split; [exact Hk | exact He].
Defined.

(** ** The output thread *)

Lemma log_log a b s : log a (log b s) = log (a ++ b) s.
Proof. unfold log. cbn. now rewrite app_assoc. Qed.

Lemma print_lines_exact reads :
  forall s,
    print_lines reads s
    = (log (server_log reads) s,
       if read_fails reads then Raise OtherError else Ret tt).
Proof.
  unfold server_log.
  induction reads as [| [[| c l] |] rest IH]; intros s;
    try (destruct s; reflexivity).
  cbn [print_lines lines_read read_fails truthy].
  rewrite bind_print, IH. cbn [map rev].
  change (set_trace (APrint (MServerLine (rstrip (c :: l))) :: trace s) s)
    with (log [APrint (MServerLine (rstrip (c :: l)))] s).
  now rewrite log_log.
Qed.

(** [rstrip] takes off a tail of white space, and all of it. *)
Lemma rstrip_spec l :
  exists t,
    l = rstrip l ++ t
    /\ forallb is_space t = true
    /\ (rstrip l = [] \/ is_space (last (rstrip l) 0) = false).
Proof.
  induction l as [| c l (t & E & Ht & Hl)].
  - exists []. cbn. auto.
  - cbn [rstrip]. destruct (rstrip l) as [| d r] eqn:Er.
    + destruct (is_space c) eqn:Ec.
      * exists (c :: l). cbn [app forallb]. rewrite Ec. cbn [andb].
        split; [reflexivity |]. split; [| now left].
        cbn [app] in E. now rewrite E.
      * exists l. cbn [app]. split; [reflexivity |].
        cbn [app] in E. split; [now rewrite E |]. right. exact Ec.
    + exists t. split; [cbn [app]; f_equal; exact E |].
      split; [exact Ht |]. right.
      destruct Hl as [Hl | Hl]; [discriminate |]. exact Hl.
Qed.

(** X4: [monitor_output] does nothing when the manager holds no process;
    otherwise it writes one log line for each line read before the output
    ends (or a read raises), in that order and without its trailing white
    space, logs the error of a read that raises instead of raising it, and
    changes nothing but the log.  Nothing is read after the empty string that
    ends the output, and the test [if line] of line 188 never fails: every
    line the loop hands over is non-empty.  What [rstrip] takes off is a tail
    of Unicode white space, and all of it. *)
Theorem X4_monitor_output reads s :
  monitor_output reads s
  = match process s with
    | None => (s, Ret tt)
    | Some _ =>
        (log ((if read_fails reads then [APrint MErrMonitor] else [])
              ++ server_log reads) s, Ret tt)
    end
  /\ Forall (fun l => truthy l = true) (lines_read reads)
  /\ (forall pre post,
         read_fails (map ReadLine pre ++ ReadLine [] :: post) = false
         /\ lines_read (map ReadLine pre ++ ReadLine [] :: post)
            = lines_read (map ReadLine pre))
  /\ (forall l, exists t,
         l = rstrip l ++ t
         /\ forallb is_space t = true
         /\ (rstrip l = [] \/ is_space (last (rstrip l) 0) = false)).
Proof.
  split; [| split; [| split; [| exact rstrip_spec]]].
  - unfold monitor_output. rewrite bind_get.
    destruct (process s); [| reflexivity].
    unfold try_except. rewrite print_lines_exact.
    destruct (read_fails reads); cbn [any_exception]; [| reflexivity].
    unfold print, emit, modify.
    change (set_trace (APrint MErrMonitor :: trace (log (server_log reads) s))
              (log (server_log reads) s))
      with (log [APrint MErrMonitor] (log (server_log reads) s)).
    now rewrite log_log.
  - induction reads as [| [[| c l] |] rest IH]; cbn [lines_read]; auto.
  - intros pre post.
    induction pre as [| [| c l] pre [IH1 IH2]]; cbn; auto.
    split; [exact IH1 | now rewrite IH2].
Qed.

(** ** The debounce test in a run *)

Lemma handle_keeps_debounce_over env event s s1 o :
  debounce_over s ->
  _handle_file_change env event s = (s1, Ret o) ->
  o <> Debounced /\ debounce_over s1.
Proof.
  unfold debounce_over. intros HJ H. pose proof H as H0.
  rewrite handle_file_change_effect in H0.
  assert (Hnd : decision event s <> Debounced).
  { unfold decision.
    destruct (is_directory event); [discriminate |].
    destruct (negb _); [discriminate |].
    destruct (excluded _); [discriminate |].
    destruct (Z.ltb_spec (clock s - last_reload s) reload_delay); [lia |].
    destruct (pending_restart s); discriminate. }
  destruct (decision event s) eqn:Ed; try congruence;
    try (cbn [effect] in H0; injection H0 as <- <-; split; [discriminate | lia]).
  - cbn [effect] in H0. rewrite bind_print in H0. injection H0 as <- <-.
    split; [discriminate |]. st_simpl. lia.
  - assert (o = Accepted).
    { rewrite effect_accepted in H0.
      destruct (restart_server env (accepted_state event s)) as [s3 [[] | e |]] eqn:E;
        [ rewrite (bind_Ret _ _ _ _ _ E) in H0; injection H0 as _ <-; reflexivity
        | rewrite (bind_Raise _ _ _ _ _ E) in H0; discriminate
        | rewrite bind_unfold, E in H0; discriminate ]. }
    subst o. split; [discriminate |].
    destruct (accepted_result env event s s1 H) as (_ & s3 & E3 & ->).
    pose proof (restart_server_handler env (accepted_state event s)) as (Hl & _).
    pose proof (restart_upto_result env max_retries (accepted_state event s))
      as (Hres & _).
    unfold restart_server in *. rewrite E3 in *. cbn [fst snd] in *.
    destruct (Hres eq_refl) as [_ Hc].
    st_simpl. rewrite Hl. unfold accepted_state in *. st_simpl.
    st_simpl_in Hc. unfold reload_delay. lia.
Qed.

Lemma seen_at_debounce_over t s : debounce_over s -> debounce_over (seen_at t s).
Proof.
  unfold debounce_over. destruct (seen_at_facts t s) as (-> & -> & _). lia.
Qed.










(** * Bursts of events, one restart at most *)

Lemma accepted_hr env e s :
  handler_restarts (fst (restart_server env (accepted_state e s)))
  = S (handler_restarts s).
Proof.
  pose proof (restart_server_upto_hr env max_retries (accepted_state e s)) as H.
  unfold same_handler_restarts in H. unfold restart_server. rewrite H.
  reflexivity.
Qed.

Lemma accepted_step_returns env t e s s3 :
  decision e (seen_at t s) = Accepted ->
  restart_server env (accepted_state e (seen_at t s)) = (s3, Ret tt) ->
  on_change env t e s
  = (set_trace (AResetThread (clock s3 + 1000) :: trace s3)
       (set_reset_at (Some (clock s3 + 1000)) s3), Ret Accepted).
Proof.
  intros Hdec E3. destruct (on_change_before env t e s) as [-> _].
  rewrite handle_file_change_effect, Hdec, effect_accepted.
  rewrite (bind_Ret _ _ _ _ _ E3). reflexivity.
Qed.

Lemma accepted_step_fails env t e s :
  decision e (seen_at t s) = Accepted ->
  snd (restart_server env (accepted_state e (seen_at t s))) <> Ret tt ->
  fst (on_change env t e s)
  = fst (restart_server env (accepted_state e (seen_at t s)))
  /\ forall o, snd (on_change env t e s) <> Ret o.
Proof.
  intros Hdec Hr. destruct (on_change_before env t e s) as [-> _].
  rewrite handle_file_change_effect, Hdec, effect_accepted, bind_unfold.
  destruct (restart_server env (accepted_state e (seen_at t s)))
    as [s3 [[] | x |]]; cbn [fst snd] in *;
    [congruence | split; [reflexivity | discriminate] ..].
Qed.

(** The state of a run is the state of its rest when the first event
    returns. *)
Lemma run_events_fst env t e rest s s1 o :
  on_change env t e s = (s1, Ret o) ->
  fst (run_events env ((t, e) :: rest) s) = fst (run_events env rest s1).
Proof.
  intros E. cbn [run_events]. rewrite (bind_Ret _ _ _ _ _ E), bind_unfold.
  destruct (run_events env rest s1) as [s2 [os | x |]]; reflexivity.
Qed.

Lemma run_events_fst_fails env t e rest s :
  (forall o, snd (on_change env t e s) <> Ret o) ->
  fst (run_events env ((t, e) :: rest) s) = fst (on_change env t e s).
Proof.
  intros H. cbn [run_events]. rewrite bind_unfold.
  destruct (on_change env t e s) as [s1 [o | x |]]; cbn [fst snd] in *;
    [now destruct (H o) | reflexivity | reflexivity].
Qed.

(** An accepted event and what comes less than a debounce interval after
    the moment it is handled. *)
Lemma burst_after_accept env t e rest s :
  decision e (seen_at t s) = Accepted ->
  Forall (fun te => eligible (snd te) = true
                    /\ fst te < Z.max (clock s) t + reload_delay) rest ->
  handler_restarts (fst (run_events env ((t, e) :: rest) s))
  = S (handler_restarts s)
  /\ (snd (restart_server env (accepted_state e (seen_at t s))) = Ret tt ->
      exists s',
        run_events env ((t, e) :: rest) s
        = (s', Ret (Accepted :: repeat LoggedPending (List.length rest)))
        /\ last_reload s' = Z.max (clock s) t
        /\ pending_restart s' = true
        /\ reset_at s'
           = Some (clock (fst (restart_server env
                                 (accepted_state e (seen_at t s)))) + 1000)).
Proof.
  intros Hdec Hall.
  destruct (seen_at_facts t s) as (Sc & Sl & Sp & _ & _ & _).
  set (sa := accepted_state e (seen_at t s)) in *.
  pose proof (accepted_hr env e (seen_at t s)) as Hhr. fold sa in Hhr.
  rewrite seen_at_hr in Hhr.
  assert (Hret :
    snd (restart_server env sa) = Ret tt ->
    exists s',
      run_events env ((t, e) :: rest) s
      = (s', Ret (Accepted :: repeat LoggedPending (List.length rest)))
      /\ last_reload s' = Z.max (clock s) t
      /\ pending_restart s' = true
      /\ reset_at s' = Some (clock (fst (restart_server env sa)) + 1000)).
  { intros Hr.
    pose proof (restart_server_handler env sa) as (Hl & Hp & _).
    pose proof (restart_upto_result env max_retries sa) as (Hres & _).
    fold (restart_server env) in Hres. destruct (Hres Hr) as [_ Hclk].
    destruct (restart_server env sa) as [s3 r3] eqn:E3.
    cbn [fst snd] in *. subst r3.
    pose proof (accepted_step_returns env t e s s3 Hdec E3) as Eo.
    set (s1 := set_trace (AResetThread (clock s3 + 1000) :: trace s3)
                 (set_reset_at (Some (clock s3 + 1000)) s3)) in *.
    assert (Hin : in_flight (Z.max (clock s) t) s1).
    { unfold in_flight, s1. st_simpl.
      change (clock sa) with (clock (seen_at t s)) in Hclk.
      change (last_reload sa) with (clock (seen_at t s)) in Hl.
      change (pending_restart sa) with true in Hp.
      unfold reload_delay. repeat split; try congruence; try lia.
      exists (clock s3 + 1000). split; [reflexivity | lia]. }
    destruct (burst_tail env _ rest s1 Hin Hall)
      as (s' & Er & Hin' & _ & Hr' & _).
    exists s'. cbn [run_events].
    rewrite (bind_Ret _ _ _ _ _ Eo), (bind_Ret _ _ _ _ _ Er).
    destruct Hin' as (Hp' & Hl' & _).
    split; [reflexivity |]. split; [exact Hl' |]. split; [exact Hp' |].
    rewrite Hr'. reflexivity. }
  split; [| exact Hret].
  destruct (restart_server env sa) as [s3 [[] | x |]] eqn:E3.
  - destruct (Hret eq_refl) as (s' & Er & _).
    rewrite Er. cbn [fst].
    rewrite (run_events_count env _ _ _ _ Er). cbn [filter is_accepted].
    rewrite filter_accepted_logged. cbn. lia.
  - destruct (accepted_step_fails env t e s Hdec) as [Ef Hn];
      [fold sa; rewrite E3; discriminate |].
    rewrite (run_events_fst_fails env t e rest s Hn), Ef. fold sa.
    rewrite E3. exact Hhr.
  - destruct (accepted_step_fails env t e s Hdec) as [Ef Hn];
      [fold sa; rewrite E3; discriminate |].
    rewrite (run_events_fst_fails env t e rest s Hn), Ef. fold sa.
    rewrite E3. exact Hhr.
Qed.

(** An eligible event in a state the handler reaches is logged when a
    restart is pending and accepted otherwise. *)
Lemma eligible_outcome e t s :
  debounce_over s -> eligible e = true ->
  decision e (seen_at t s)
  = if pending_restart (seen_at t s) then LoggedPending else Accepted.
Proof.
  intros HJ He. rewrite (decision_eligible _ _ He).
  pose proof (seen_at_debounce_over t s HJ) as HJ'. unfold debounce_over in HJ'.
  destruct (Z.ltb_spec (clock (seen_at t s) - last_reload (seen_at t s))
              reload_delay); [lia | reflexivity].
Qed.

Lemma logged_step env t e s :
  decision e (seen_at t s) = LoggedPending ->
  on_change env t e s
  = (set_trace (APrint (MAdditional (path_name (src_path e)))
                :: trace (seen_at t s)) (seen_at t s), Ret LoggedPending).
Proof.
  intros Hdec. destruct (on_change_before env t e s) as [-> _].
  rewrite handle_file_change_effect, Hdec. reflexivity.
Qed.

Lemma burst_at_most_one env t0 :
  forall evs s,
    debounce_over s ->
    Forall (fun te => eligible (snd te) = true
                      /\ t0 <= fst te < t0 + reload_delay) evs ->
    (handler_restarts (fst (run_events env evs s))
     <= S (handler_restarts s))%nat.
Proof.
  induction evs as [| [t e] rest IH]; intros s HJ Hall; [cbn; lia |].
  inversion Hall as [| ? ? [He Ht] Hall']; subst. cbn [fst snd] in *.
  pose proof (eligible_outcome e t s HJ He) as Hdec.
  destruct (pending_restart (seen_at t s)).
  - pose proof (logged_step env t e s Hdec) as Eo.
    rewrite (run_events_fst env t e rest s _ _ Eo).
    match type of Eo with _ = (?s1, _) =>
      assert (HJ1 : debounce_over s1)
        by (apply (seen_at_debounce_over t s HJ));
      assert (Hh : handler_restarts s1 = handler_restarts s)
        by (unfold handler_restarts; st_simpl; cbn [filter is_handler_restart];
            apply (seen_at_hr t s));
      specialize (IH s1 HJ1 Hall')
    end.
    lia.
  - destruct (burst_after_accept env t e rest s Hdec) as [H _]; [| lia].
    eapply Forall_impl; [| exact Hall']. cbn beta.
    intros te [Hte Hlt]. split; [exact Hte | lia].
Qed.

(** While the flag is set and the [reset_pending] thread is not due, every
    eligible event is logged and none triggers a restart. *)
Lemma pending_burst env d :
  forall evs s,
    debounce_over s ->
    pending_restart s = true -> reset_at s = Some d -> clock s < d ->
    Forall (fun te => eligible (snd te) = true /\ fst te < d) evs ->
    exists s',
      run_events env evs s
      = (s', Ret (repeat LoggedPending (List.length evs)))
      /\ handler_restarts s' = handler_restarts s.
Proof.
  induction evs as [| [t e] rest IH]; intros s HJ Hp Hr Hc Hall.
  - exists s. cbn. auto.
  - inversion Hall as [| ? ? [He Ht] Hall']; subst. cbn [fst snd] in *.
    pose proof (eligible_outcome e t s HJ He) as Hdec.
    destruct (seen_at_facts t s) as (Sc & Sl & Sp & St' & Spd & Hra).
    rewrite Hr in Spd, Hra.
    destruct (Z.leb_spec d (Z.max (clock s) t)); [lia |].
    rewrite Spd, Hp in Hdec.
    pose proof (logged_step env t e s Hdec) as Eo.
    match type of Eo with _ = (?s1, _) =>
      destruct (IH s1) as (s' & Er & Hh); auto;
        [ apply (seen_at_debounce_over t s HJ)
        | st_simpl; congruence
        | st_simpl; lia
        | ]
    end.
    exists s'. cbn [run_events List.length repeat].
    rewrite (bind_Ret _ _ _ _ _ Eo), (bind_Ret _ _ _ _ _ Er).
    split; [reflexivity |]. rewrite Hh.
    unfold handler_restarts. st_simpl. cbn [filter is_handler_restart].
    apply (seen_at_hr t s).
Qed.

(** C3 (as amended): eligible events raised within one debounce interval of
    the first of them, handled by a handler in a state it reaches, trigger one
    restart at most.  They trigger exactly one, by the first event, when no
    restart is pending as that event is handled: if that restart comes back,
    each later event is only logged, and the debounce clock stays at the time
    of the first event and the reset thread at its one wake-up time.  They
    trigger none when a restart is pending and its [reset_pending] thread
    wakes up after the burst: every event is only logged.  Over any queue of
    events the restarts triggered are as many as the events accepted. *)
Theorem C3_burst_one_restart env s t0 e0 rest :
  debounce_over s ->
  eligible e0 = true ->
  Forall (fun te => eligible (snd te) = true
                    /\ t0 <= fst te < t0 + reload_delay) rest ->
  (handler_restarts (fst (run_events env ((t0, e0) :: rest) s))
   <= S (handler_restarts s))%nat
  /\ (pending_restart (seen_at t0 s) = false ->
      decision e0 (seen_at t0 s) = Accepted
      /\ handler_restarts (fst (run_events env ((t0, e0) :: rest) s))
         = S (handler_restarts s)
      /\ (snd (restart_server env (accepted_state e0 (seen_at t0 s))) = Ret tt ->
          exists s',
            run_events env ((t0, e0) :: rest) s
            = (s', Ret (Accepted :: repeat LoggedPending (List.length rest)))
            /\ last_reload s' = Z.max (clock s) t0
            /\ pending_restart s' = true
            /\ reset_at s'
               = Some (clock (fst (restart_server env
                                     (accepted_state e0 (seen_at t0 s))))
                       + 1000)))
  /\ (forall d,
         pending_restart s = true -> reset_at s = Some d ->
         clock s < d -> t0 + reload_delay <= d ->
         exists s',
           run_events env ((t0, e0) :: rest) s
           = (s', Ret (repeat LoggedPending (S (List.length rest))))
           /\ handler_restarts s' = handler_restarts s)
  /\ (forall evs s0 s0' os,
         run_events env evs s0 = (s0', Ret os) ->
         handler_restarts s0'
         = (handler_restarts s0 + List.length (filter is_accepted os))%nat
         /\ (handler_restarts s0' - handler_restarts s0
             <= List.length (filter is_accepted os))%nat).
Proof.
  intros HJ He0 Hall.
  assert (Hall0 : Forall (fun te => eligible (snd te) = true
                                    /\ t0 <= fst te < t0 + reload_delay)
                    ((t0, e0) :: rest)).
  { constructor; [| exact Hall]. cbn. unfold reload_delay. split; [exact He0 | lia]. }
  split; [now apply (burst_at_most_one env t0) |].
  split.
  { intros Hp. pose proof (eligible_outcome e0 t0 s HJ He0) as Hdec.
    rewrite Hp in Hdec. split; [exact Hdec |].
    apply (burst_after_accept env t0 e0 rest s Hdec).
    eapply Forall_impl; [| exact Hall]. cbn beta.
    intros te [Hte Hlt]. split; [exact Hte | lia]. }
  split.
  { intros d Hp Hr Hc Hd.
    apply (pending_burst env d ((t0, e0) :: rest) s HJ Hp Hr Hc).
    eapply Forall_impl; [| exact Hall0]. cbn beta.
    intros te [Hte Hlt]. split; [exact Hte | lia]. }
  intros evs s0 s0' os H. rewrite (run_events_count env _ _ _ _ H).
  split; lia.
Qed.

Lemma C3_burst_one_restart_witness :
  debounce_over serving_state
  /\ exists s',
      run_events env_good ((5000, py_event) :: burst_tail_events) serving_state
      = (s', Ret [Accepted; LoggedPending; LoggedPending])
      /\ last_reload s' = 5000.
Proof.
  assert (HJ : debounce_over serving_state) by (vm_compute; discriminate).
  split; [exact HJ |].
  destruct (C3_burst_one_restart env_good serving_state 5000 py_event
              burst_tail_events HJ eq_refl) as (_ & Hone & _).
  - repeat constructor; vm_compute; congruence.
  - destruct (Hone eq_refl) as (_ & _ & Hret).
    destruct Hret as (s' & Er & Hl & _); [vm_compute; reflexivity |].
    exists s'. split; [exact Er | exact Hl].
Defined.

(** C3, the claim as stated (exactly one restart for every such burst),
    fails: a burst that arrives while the flag of an earlier restart is still
    set is only logged, and no restart is triggered. *)
Lemma C3_burst_without_restart :
  Forall (fun te => eligible (snd te) = true
                    /\ 8200 <= fst te < 8200 + reload_delay) late_burst_events
  /\ snd (run_events env_good late_burst_events after_change_state)
     = Ret [LoggedPending; LoggedPending; LoggedPending]
  /\ handler_restarts
       (fst (run_events env_good late_burst_events after_change_state))
     = handler_restarts after_change_state.
Proof.
  split; [repeat constructor; vm_compute; congruence |].
  split; vm_compute; reflexivity.
Qed.

(** X5: when the events are handled one at a time, starting with the last
    reload two seconds old at least (as for a fresh handler), no event is ever
    dropped by the debounce test of line 49: by the time the handler is back
    from an accepted event the restart has taken its two seconds, so the
    pending flag alone holds back the events that follow. *)
Theorem X5_debounce_never_fires env evs :
  forall s s' os,
    debounce_over s ->
    run_events env evs s = (s', Ret os) ->
    ~ In Debounced os /\ debounce_over s'.
Proof.
  induction evs as [| [t e] evs IH]; intros s s' os HJ H.
  - cbn in H. injection H as <- <-. auto.
  - cbn [run_events] in H. rewrite bind_unfold in H.
    destruct (on_change_before env t e s) as [Eo _].
    destruct (on_change env t e s) as [s1 [o | x |]] eqn:E1; try discriminate.
    rewrite bind_unfold in H.
    destruct (run_events env evs s1) as [s2 [os2 | x |]] eqn:E2; try discriminate.
    injection H as <- <-. symmetry in Eo.
    destruct (handle_keeps_debounce_over env e _ _ _
                (seen_at_debounce_over t s HJ) Eo) as [Ho HJ1].
    destruct (IH _ _ _ HJ1 E2) as [Hn HJ2].
    split; [| exact HJ2].
    intros [Hin | Hin]; [congruence | auto].
Qed.

Lemma X5_debounce_never_fires_witness :
  debounce_over serving_state
  /\ run_events env_good ((5000, py_event) :: burst_tail_events) serving_state
     = (after_burst_state, Ret [Accepted; LoggedPending; LoggedPending])
  /\ ~ In Debounced [Accepted; LoggedPending; LoggedPending]
  /\ debounce_over after_burst_state.
Proof.
  assert (HJ : debounce_over serving_state) by (vm_compute; discriminate).
  assert (Er : run_events env_good ((5000, py_event) :: burst_tail_events)
                 serving_state
               = (after_burst_state, Ret [Accepted; LoggedPending; LoggedPending]))
    by (vm_compute; reflexivity).
  split; [exact HJ |]. split; [exact Er |].
  exact (X5_debounce_never_fires env_good _ _ _ _ HJ Er).
Defined.

(** ** Launches *)

Lemma start_server_counts env s :
  launches (fst (start_server env s)) = S (launches s)
  /\ sweeps (fst (start_server env s)) = S (sweeps s).
Proof.
  rewrite start_server_flat_ok.
  destruct (kill_process_on_port_bound env s) as [Hs _].
  pose proof (kill_process_on_port_only_time_and_log env port s) as (Hl & _).
  destruct (start_flat_clock env (fst (kill_process_on_port env port s)))
    as [_ Hsw].
  rewrite start_flat_launches, Hsw, Hl, Hs. auto.
Qed.

Lemma restart_upto_launches env d :
  forall s,
    (launches s <= launches (fst (restart_server_upto env d s))
     <= launches s + d)%nat
    /\ (sweeps (fst (restart_server_upto env d s)) + launches s
        = sweeps s + launches (fst (restart_server_upto env d s)))%nat
    /\ (snd (restart_server_upto env d s) = Ret tt ->
        (launches s < launches (fst (restart_server_upto env d s)))%nat).
Proof.
  induction d as [| d IH]; intros s.
  { cbn. repeat split; try lia. discriminate. }
  rewrite restart_round_ok. unfold restart_round.
  set (sa := log [APrint MRestarting] s).
  pose proof (kcp_result sa) as Hk.
  pose proof (kill_current_process_still sa) as (_ & _ & Hl1 & _).
  pose proof (kill_current_process_sweeps sa) as Hw1.
  unfold same_sweeps in Hw1.
  destruct (kill_current_process sa) as [s1 r1]. cbn [fst snd] in *.
  change (launches sa) with (launches s) in Hl1.
  change (sweeps sa) with (sweeps s) in Hw1.
  destruct Hk as [-> | [-> | ->]].
  2:{ cbn [fst snd]. repeat split; try lia. discriminate. }
  2:{ cbn [fst snd]. repeat split; try lia. discriminate. }
  destruct (start_server_counts env (settled s1)) as [Hl3 Hw3].
  change (launches (settled s1)) with (launches s1) in Hl3.
  change (sweeps (settled s1)) with (sweeps s1) in Hw3.
  destruct (returns_start_server env (settled s1)) as [b Hb].
  destruct (start_server env (settled s1)) as [s3 r3]. cbn [fst snd] in *.
  subst r3. destruct b.
  - st_simpl. split; [lia |]. split; [lia |]. intros _. lia.
  - rewrite handle_restart_failure_flat_ok. unfold handle_restart_failure_flat.
    cbv zeta.
    destruct (_ <? _)%nat.
    + st_simpl.
      match goal with
      | |- context [restart_server_upto env d ?st] =>
          destruct (IH st) as (B1 & B2 & B3)
      end.
      st_simpl_in B1. st_simpl_in B2. st_simpl_in B3.
      split; [lia |]. split; [lia |].
      intros Hret. specialize (B3 Hret). lia.
    + st_simpl. split; [lia |]. split; [lia |]. intros _. lia.
Qed.

Lemma kcp_calm s : calm s -> snd (kill_current_process s) = Ret tt.
Proof.
  intros Hc. rewrite kcp_flat_ok. unfold kcp_flat.
  destruct (process s) as [p |] eqn:Hp; [| reflexivity].
  destruct (alive p s) eqn:Ha; [| reflexivity].
  now rewrite (Hc p Hp Ha).
Qed.

Lemma kcp_leaves_calm s :
  snd (kill_current_process s) = Ret tt -> calm (fst (kill_current_process s)).
Proof.
  rewrite kcp_flat_ok. unfold kcp_flat, calm.
  destruct (process s) as [p |] eqn:Hp.
  2:{ cbn [fst]. intros _ q Hq. congruence. }
  destruct (alive p s) eqn:Ha.
  2:{ cbn [fst]. intros _ q Hq. rewrite Hp in Hq. injection Hq as <-. congruence. }
  assert (Hreap : forall st, process st = Some p -> In (pid p) (reaped st) ->
            forall q, process st = Some q -> alive q st = true ->
                      on_term (behaviour q) = TermRaises).
  { intros st E Hin q Hq Hal. rewrite E in Hq. injection Hq as <-.
    rewrite (alive_reaped p st Hin) in Hal. discriminate. }
  destruct (on_term (behaviour p)) eqn:Et.
  3:{ cbn [fst]. intros _ q Hq _. cbn in Hq. rewrite Hp in Hq.
      injection Hq as <-. exact Et. }
  all: destruct (graceful_end p (clock s));
    [ intros _; cbn [fst]; apply Hreap; cbn; auto
    | destruct (on_kill (behaviour p));
      [ intros _; cbn [fst]; apply Hreap; cbn; auto
      | discriminate
      | cbv zeta; destruct (natural_death p) as [n |] eqn:En;
        [| discriminate];
        intros _ q Hq Hal; cbn in Hq; rewrite Hp in Hq; injection Hq as <-;
        unfold alive in Hal; rewrite En in Hal; st_simpl_in Hal;
        apply andb_true_iff in Hal; destruct Hal as [_ Hal];
        apply Z.ltb_lt in Hal; lia ] ].
Qed.

Lemma calm_later s s' :
  process s' = process s -> incl (reaped s) (reaped s') -> clock s <= clock s' ->
  calm s -> calm s'.
Proof.
  intros Hp Hr Hc H p E Ha. rewrite Hp in E.
  apply (H p E). now apply (alive_earlier p s s').
Qed.

Lemma start_flat_calm env s0 :
  calm s0 ->
  snd (start_server_flat env s0) = Ret false ->
  calm (fst (start_server_flat env s0)).
Proof.
  intros Hc. unfold start_server_flat. cbv zeta.
  destruct (popen_plan env (launches s0)) as [| b].
  - intros _. apply (calm_later s0); cbn; auto using incl_refl. lia.
  - match goal with |- context [if ?c then _ else _] => destruct c eqn:Ea end;
      [discriminate |].
    intros _ q Hq Hal. cbn in Hq. injection Hq as <-.
    change (alive (Build_Proc (launches s0) (clock s0) b)
              (fst (log [APrint MFailedStart]
                      (set_clock (clock s0 + 3000)
                         (log [ASleep 3000; AMonitorThread (launches s0);
                               APopen (launches s0)
                                 (List.length (live_children s0))]
                            (set_process
                               (Some (Build_Proc (launches s0) (clock s0) b))
                               (set_children
                                  (Build_Proc (launches s0) (clock s0) b
                                   :: children s0)
                                  (set_launches (S (launches s0))
                                     (log [APrint MAvailable; APrint MStarting]
                                        s0)))))), Ret false)) = true) in Hal.
    cbn [fst] in Hal.
    change (alive (Build_Proc (launches s0) (clock s0) b) _ = true)
      with (alive (Build_Proc (launches s0) (clock s0) b)
              (set_clock (clock s0 + 3000)
                 (log [ASleep 3000; AMonitorThread (launches s0);
                       APopen (launches s0) (List.length (live_children s0))]
                    (set_process
                       (Some (Build_Proc (launches s0) (clock s0) b))
                       (set_children
                          (Build_Proc (launches s0) (clock s0) b :: children s0)
                          (set_launches (S (launches s0))
                             (log [APrint MAvailable; APrint MStarting] s0))))))
            = true) in Hal.
    rewrite Ea in Hal. discriminate.
Qed.

(** The rounds after the first find behind the handle a child that has
    exited or one for which [terminate()] raises: only the stop of the first
    round can raise or block. *)
Lemma restart_upto_outcome env d :
  forall s,
    (1 <= d)%nat -> (max_retries <= retry_count s + d)%nat ->
    snd (restart_server_upto env d s)
    = match snd (kill_current_process (log [APrint MRestarting] s)) with
      | Ret _ => Ret tt
      | r => r
      end.
Proof.
  induction d as [| d IH]; intros s Hd Hrc; [lia |].
  rewrite restart_round_ok. unfold restart_round.
  set (sa := log [APrint MRestarting] s).
  pose proof (kcp_leaves_calm sa) as Hcalm.
  pose proof (kill_current_process_retry sa) as Hr1.
  destruct (kill_current_process sa) as [s1 [[] | e |]];
    cbn [fst snd] in *; try reflexivity.
  specialize (Hcalm eq_refl).
  assert (Hc2 : calm (settled s1)).
  { apply (calm_later s1); cbn; auto using incl_refl. lia. }
  rewrite start_server_flat_ok.
  pose proof (kill_process_on_port_only_time_and_log env port (settled s1))
    as (_ & _ & Hre & Hpr & Hrt0 & _).
  pose proof (kill_process_on_port_clock env port (settled s1)) as Hck.
  set (s0 := fst (kill_process_on_port env port (settled s1))) in *.
  assert (Hc0 : calm s0).
  { apply (calm_later (settled s1)); auto.
    rewrite Hre. apply incl_refl. }
  pose proof (start_flat_calm env s0 Hc0) as Hc3.
  destruct (start_flat_retry env s0) as [[E Hz] | [E Hrt]];
    destruct (start_server_flat env s0) as [s3 r3]; cbn [fst snd] in *; subst r3;
    [reflexivity |].
  specialize (Hc3 eq_refl).
  rewrite handle_restart_failure_flat_ok. unfold handle_restart_failure_flat.
  cbv zeta. cbn [retry_count log set_trace].
  assert (Hrc3 : retry_count s3 = retry_count s).
  { rewrite Hrt, Hrt0. cbn. exact Hr1. }
  destruct (Nat.ltb_spec (S (retry_count s3)) max_retries) as [Hlt | Hge];
    [| reflexivity].
  match goal with
  | |- snd (restart_server_upto env d ?st) = _ =>
      rewrite (IH st); [rewrite kcp_calm; [reflexivity |] | |]
  end.
  - apply (calm_later s3); cbn; auto using incl_refl. lia.
  - unfold max_retries in *. lia.
  - cbn. unfold max_retries in *. lia.
Qed.

(** X6: [restart_server] can raise or block only in the stop of the child
    it finds: it raises exactly when [kill_current_process] on entry raises,
    blocks exactly when that call blocks (in the [wait()] of line 162, which
    has no timeout), and returns otherwise; no later round can do either.
    Whatever the outcome, it has made at most three launches and as many port
    sweeps as launches, and one launch at least when it returns. *)
Theorem X6_restart_launches_bounded env s :
  snd (restart_server env s)
  = match snd (kill_current_process (log [APrint MRestarting] s)) with
    | Ret _ => Ret tt
    | r => r
    end
  /\ (launches s <= launches (fst (restart_server env s))
      <= launches s + 3)%nat
  /\ (sweeps (fst (restart_server env s)) + launches s
      = sweeps s + launches (fst (restart_server env s)))%nat
  /\ (snd (restart_server env s) = Ret tt ->
      (launches s < launches (fst (restart_server env s)))%nat).
Proof.
  split.
  - apply (restart_upto_outcome env max_retries s); unfold max_retries; lia.
  - apply (restart_upto_launches env max_retries s).
Qed.

(** X7: [start_server] never raises and makes exactly one launch.  It
    answers [True] only with the child of that launch behind the handle, still
    running, and the retry counter at zero; it answers [False] with the retry
    counter untouched, and then either [Popen] raised and the handle is the old
    one, or the child of that launch is behind the handle and has exited. *)
Theorem X7_start_server_answer env s :
  launches (fst (start_server env s)) = S (launches s)
  /\ ((snd (start_server env s) = Ret true
       /\ retry_count (fst (start_server env s)) = 0%nat
       /\ exists p,
           process (fst (start_server env s)) = Some p
           /\ pid p = launches s
           /\ popen_plan env (launches s) = Spawns (behaviour p)
           /\ alive p (fst (start_server env s)) = true)
      \/ (snd (start_server env s) = Ret false
          /\ retry_count (fst (start_server env s)) = retry_count s
          /\ ((popen_plan env (launches s) = PopenRaises
               /\ process (fst (start_server env s)) = process s)
              \/ exists p,
                  process (fst (start_server env s)) = Some p
                  /\ pid p = launches s
                  /\ popen_plan env (launches s) = Spawns (behaviour p)
                  /\ alive p (fst (start_server env s)) = false))).
Proof.
  split; [apply start_server_counts |].
  rewrite start_server_flat_ok.
  pose proof (kill_process_on_port_only_time_and_log env port s)
    as (Hl & _ & _ & Hp & Hr & _).
  set (s0 := fst (kill_process_on_port env port s)) in *.
  rewrite <- Hl, <- Hp, <- Hr.
  unfold start_server_flat. cbv zeta.
  destruct (popen_plan env (launches s0)) as [| b] eqn:Eb.
  - right. cbn [fst snd]. split; [reflexivity |]. split; [reflexivity |].
    left. split; reflexivity.
  - match goal with |- context [if ?c then _ else _] => destruct c eqn:Ea end.
    + left. cbn [fst snd]. split; [reflexivity |]. split; [reflexivity |].
      eexists. split; [reflexivity |]. split; [reflexivity |].
      split; [reflexivity | exact Ea].
    + right. cbn [fst snd]. split; [reflexivity |]. split; [reflexivity |].
      right. eexists. split; [reflexivity |]. split; [reflexivity |].
      split; [reflexivity | exact Ea].
Qed.

(** ** The filter, both ways *)

Lemma eligible_decision event s :
  is_ignored (decision event s) = negb (eligible event).
Proof.
  unfold decision, eligible.
  destruct (is_directory event); [reflexivity |].
  destruct (recognized (src_path event)); [| reflexivity].
  destruct (excluded (src_path event)); [reflexivity |].
  cbn [negb andb].
  destruct (_ <? _); [reflexivity |].
  destruct (pending_restart s); reflexivity.
Qed.

Lemma effect_outcome env event o s s' o' :
  effect env o event s = (s', Ret o') -> o' = o.
Proof.
  destruct o; cbn [effect];
    try (intros H; injection H as _ H; congruence).
  change (effect env Accepted event s = (s', Ret o') -> o' = Accepted).
  rewrite effect_accepted. intros H.
  destruct (restart_server env (accepted_state event s))
    as [s3 [[] | e |]] eqn:E.
  - rewrite (bind_Ret _ _ _ _ _ E) in H.
    cbv [start_reset_pending bind get modify emit ret] in H.
    injection H as _ H. congruence.
  - rewrite (bind_Raise _ _ _ _ _ E) in H. discriminate.
  - unfold bind in H. rewrite E in H. discriminate.
Qed.

Lemma effect_ignored env event o s :
  is_ignored o = true -> effect env o event s = (s, Ret o).
Proof. destruct o; try discriminate; reflexivity. Qed.

(** X8: the handler returns an event at one of its first three [return]s
    exactly when the event is a directory event, or its path has no watched
    extension, or its path is excluded; it then leaves the state as it was.
    Only an event that passes all three can be debounced, logged or
    accepted. *)
Theorem X8_filter_both_ways env event s :
  (eligible event = false <->
   exists o, _handle_file_change env event s = (s, Ret o)
             /\ is_ignored o = true)
  /\ (eligible event = true <->
      forall s' o, _handle_file_change env event s = (s', Ret o) ->
                   o = Debounced \/ o = LoggedPending \/ o = Accepted).
Proof.
  rewrite handle_file_change_effect.
  pose proof (eligible_decision event s) as Hd.
  split; split.
  - intros He. rewrite He in Hd. exists (decision event s).
    split; [apply effect_ignored |]; exact Hd.
  - intros (o & Ho & Hi). apply effect_outcome in Ho. subst o.
    rewrite Hi in Hd. now destruct (eligible event).
  - intros He s' o Ho. apply effect_outcome in Ho. subst o.
    rewrite He in Hd. destruct (decision event s); auto; discriminate.
  - intros Hall. destruct (eligible event); [reflexivity |].
    specialize (Hall s (decision event s) (effect_ignored _ _ _ _ Hd)).
    destruct (decision event s); try discriminate;
      destruct Hall as [? | [? | ?]]; discriminate.
Qed.

(** X9: the [endswith('.pyc')] test of line 45 never decides: a path that
    is past line 41 ends in [.py] or [.css], so it does not end in [.pyc].
    The third [return] is taken exactly by a non-directory event with a
    watched extension whose path contains [__pycache__]. *)
Theorem X9_pyc_test_never_decides env event s :
  (recognized (src_path event) = true ->
   excluded (src_path event) = contains "__pycache__" (src_path event))
  /\ (snd (_handle_file_change env event s) = Ret IgnoredExcluded <->
      is_directory event = false
      /\ recognized (src_path event) = true
      /\ contains "__pycache__" (src_path event) = true).
Proof.
  assert (Hpyc : recognized (src_path event) = true ->
                 excluded (src_path event)
                 = contains "__pycache__" (src_path event)).
  { intros Hr. unfold excluded.
    destruct (endswith (src_path event) ".pyc") eqn:E.
    - apply pyc_not_recognized in E. congruence.
    - apply orb_false_r. }
  split; [exact Hpyc |].
  rewrite handle_file_change_effect. split.
  - intros H.
    destruct (effect env (decision event s) event s) as [s' r] eqn:E.
    cbn [snd] in H. subst r. apply effect_outcome in E.
    unfold decision in E.
    destruct (is_directory event); [discriminate |].
    destruct (recognized (src_path event)) eqn:Er; [| discriminate].
    cbn [negb] in E. rewrite (Hpyc eq_refl) in E.
    destruct (contains _ _); [auto |].
    destruct (_ <? _); [discriminate |].
    destruct (pending_restart s); discriminate.
  - intros (Hdir & Hr & Hc). unfold decision.
    rewrite Hdir, Hr. cbn [negb]. rewrite (Hpyc Hr), Hc. reflexivity.
Qed.

(** * [main], from the launch to the exit status *)

Lemma start_flat_result env s0 :
  reaped_pid (launches s0) s0 = false ->
  snd (start_server_flat env s0) = Ret (negb (launch_fails env (launches s0))).
Proof.
  intros Hr. unfold start_server_flat, launch_fails. cbv zeta.
  destruct (popen_plan env (launches s0)) as [| b]; [reflexivity |].
  assert (Ea : alive (Build_Proc (launches s0) (clock s0) b)
                 (set_clock (clock s0 + 3000)
                    (log [ASleep 3000; AMonitorThread (launches s0);
                          APopen (launches s0) (List.length (live_children s0))]
                       (set_process
                          (Some (Build_Proc (launches s0) (clock s0) b))
                          (set_children
                             (Build_Proc (launches s0) (clock s0) b
                              :: children s0)
                             (set_launches (S (launches s0))
                                (log [APrint MAvailable; APrint MStarting]
                                   s0))))))
               = negb match lifetime b with
                      | Some d => Z.of_nat d <=? 3000
                      | None => false
                      end).
  { unfold alive, natural_death, reaped_pid in *. st_simpl. cbn [pid spawned_at behaviour].
    rewrite Hr. cbn [negb andb].
    destruct (lifetime b) as [d |]; [| reflexivity].
    destruct (Z.leb_spec (Z.of_nat d) 3000); destruct (Z.ltb_spec (clock s0 + 3000) (clock s0 + Z.of_nat d));
      try reflexivity; lia. }
  rewrite Ea. destruct (negb _); reflexivity.
Qed.

Lemma run_events_Inv env :
  cooperative env ->
  forall evs s,
    Inv s -> current_safe s ->
    (exists os, snd (run_events env evs s) = Ret os)
    /\ Inv (fst (run_events env evs s))
    /\ current_safe (fst (run_events env evs s)).
Proof.
  intros He. induction evs as [| [t e] evs IH]; intros s HI Hs.
  - cbn. eauto.
  - cbn [run_events].
    destruct (on_change_Inv env t e s He HI Hs) as ([o Ho] & HI' & Hs').
    destruct (on_change env t e s) as [s1 r1] eqn:E.
    cbn [fst snd] in *. subst r1. rewrite (bind_Ret _ _ _ _ _ E).
    destruct (IH s1 HI' Hs') as ([os Hos] & HI2 & Hs2).
    destruct (run_events env evs s1) as [s2 r2] eqn:E2.
    cbn [fst snd] in *. subst r2. rewrite (bind_Ret _ _ _ _ _ E2).
    cbn. eauto.
Qed.

Lemma kcp_trace_extends s :
  exists l, trace (fst (kill_current_process s)) = l ++ trace s.
Proof.
  rewrite kcp_flat_ok. unfold kcp_flat.
  destruct (process s) as [p |]; [| exists []; reflexivity].
  destruct (alive p s); [| exists []; reflexivity].
  destruct (on_term (behaviour p));
    try (eexists; reflexivity);
    destruct (graceful_end p (clock s));
    try (eexists; reflexivity);
    destruct (on_kill (behaviour p)); cbv zeta;
    try destruct (natural_death p); eexists; reflexivity.
Qed.

(** X10: in an environment whose children can be signalled, and when no
    watched file changes while the first launch is under way, [main] ends with
    exit status 1 when the first launch fails and with exit status 0
    otherwise, whatever changes the watcher reports after the launch; in both
    cases the observer has been stopped, [stop_server] has written its last
    line and no child of the manager runs. *)
Theorem X10_main_exit_status env evs t0 :
  cooperative env ->
  exists s',
    main env evs (init t0) = (s', Ret (if launch_fails env 0 then 1 else 0))
    /\ none_alive s'
    /\ (exists tr, trace s' = APrint MStopped :: tr)
    /\ In AObserverStop (trace s').
Proof.
  intros He. unfold main. rewrite bind_emit.
  set (sa := set_trace (AObserverStart :: trace (init t0)) (init t0)).
  assert (HIa : Inv sa) by (subst sa; inv_quiet (Inv_init t0)).
  assert (Hna : none_alive sa) by (intros p H; contradiction).
  assert (Hsa : current_safe sa) by (intros p H; discriminate).
  destruct (start_server_Inv env sa HIa Hna) as (HI1 & Hn1 & Hs1 & _).
  specialize (Hs1 He Hsa).
  assert (Hres : snd (start_server env sa) = Ret (negb (launch_fails env 0))).
  { rewrite start_server_flat_ok.
    pose proof (kill_process_on_port_only_time_and_log env port sa)
      as (Hl & _ & Hr & _).
    change 0%nat with (launches sa). rewrite <- Hl.
    apply start_flat_result. unfold reaped_pid. rewrite Hr. reflexivity. }
  unfold finally, try_except.
  destruct (start_server env sa) as [s1 r1] eqn:E. cbn [fst snd] in *. subst r1.
  rewrite (bind_Ret _ _ _ _ _ E).
  assert (Hstop : forall st, Inv st -> current_safe st ->
            exists s', (emit AObserverStop ;; stop_server) st = (s', Ret tt)
                       /\ none_alive s'
                       /\ (exists tr, trace s' = APrint MStopped :: tr)
                       /\ In AObserverStop (trace s')).
  { intros st HI Hs. rewrite bind_emit.
    set (sb := set_trace (AObserverStop :: trace st) st).
    assert (HIb : Inv sb) by (subst sb; inv_quiet HI).
    assert (Hsb : current_safe sb) by (apply (current_safe_same st); auto).
    destruct (stop_server_Inv sb HIb Hsb) as (Hr & _ & _ & Hn).
    pose proof Hr as Hr'.
    assert (Htr : exists tr, trace (fst (stop_server sb)) = APrint MStopped :: tr
                             /\ In AObserverStop tr).
    { clear Hn. unfold stop_server in Hr |- *. rewrite bind_print in Hr |- *.
      pose proof (kcp_trace_extends
                    (set_trace (APrint MStopServer :: trace sb) sb)) as [l Hl].
      unfold bind in Hr |- *.
      destruct (kill_current_process _) as [s2 [[] | e |]]; cbn [fst snd] in *.
      - cbn. eexists. split; [reflexivity |]. rewrite Hl.
        apply in_or_app. right. cbn. auto.
      - cbn in Hr. discriminate.
      - cbn in Hr. discriminate. }
    destruct (stop_server sb) as [s' r'] eqn:Es. cbn [fst snd] in *.
    rewrite Hr'. exists s'. split; [reflexivity |]. split; [exact Hn |].
    destruct Htr as (tr & Ht & Hin). split; [eauto |].
    rewrite Ht. right. exact Hin. }
  destruct (launch_fails env 0); cbn [negb].
  - rewrite bind_print. cbv beta iota delta [ret].
    match goal with
    | |- context [bind (bind (emit AObserverStop) _) _ ?st] =>
        destruct (Hstop st) as (s' & Es & Hn & Ht & Hin)
    end.
    { inv_quiet HI1. }
    { apply (current_safe_same s1); auto. }
    rewrite (bind_Ret _ _ _ _ _ Es). exists s'. auto.
  - rewrite bind_print.
    set (sr := set_trace (APrint MRunning :: trace s1) s1).
    assert (HIr : Inv sr) by (subst sr; inv_quiet HI1).
    assert (Hsr : current_safe sr) by (apply (current_safe_same s1); auto).
    rewrite bind_get.
    destruct (run_events_Inv env He (since (clock sr) evs) sr HIr Hsr)
      as ([os Hos] & HI2 & Hs2).
    destruct (run_events env (since (clock sr) evs) sr) as [s2 r2] eqn:E2.
    cbn [fst snd] in *. subst r2.
    assert (Etry : try_except (run_events env (since (clock sr) evs) ;; ret tt)
                     any_exception (fun _ => ret tt) sr = (s2, Ret tt)).
    { unfold try_except. rewrite (bind_Ret _ _ _ _ _ E2). reflexivity. }
    rewrite (bind_Ret _ _ _ _ _ Etry).
    rewrite bind_print. cbv beta iota delta [ret].
    match goal with
    | |- context [bind (bind (emit AObserverStop) _) _ ?st] =>
        destruct (Hstop st) as (s' & Es & Hn & Ht & Hin)
    end.
    { inv_quiet HI2. }
    { apply (current_safe_same s2); auto. }
    rewrite (bind_Ret _ _ _ _ _ Es). exists s'. auto.
Qed.

Lemma X10_main_exit_status_witness :
  cooperative env_good
  /\ exists s',
      main env_good [(5000%nat, py_event)] (init 0)
      = (s', Ret (if launch_fails env_good 0 then 1 else 0))
      /\ none_alive s'
      /\ (exists tr, trace s' = APrint MStopped :: tr)
      /\ In AObserverStop (trace s').
Proof.
  split; [exact cooperative_env_good |].
  apply (X10_main_exit_status env_good [(5000%nat, py_event)] 0).
  exact cooperative_env_good.
Defined.

(** * A restart that succeeds *)

Lemma kcp_reaped s :
  reaped (fst (kill_current_process s)) = reaped s
  \/ exists p, process s = Some p
               /\ reaped (fst (kill_current_process s)) = pid p :: reaped s.
Proof.
  rewrite kcp_flat_ok. unfold kcp_flat.
  destruct (process s) as [p |]; [| now left].
  destruct (alive p s); [| now left].
  destruct (on_term (behaviour p)); try (now left);
    destruct (graceful_end p (clock s));
    try (right; exists p; split; reflexivity);
    destruct (on_kill (behaviour p));
    try (now left);
    try (cbv zeta; destruct (natural_death p); now left);
    right; exists p; split; reflexivity.
Qed.

Lemma known_pids_fresh s :
  known_pids s -> reaped_pid (launches s) s = false.
Proof.
  intros [_ Hr]. unfold reaped_pid.
  destruct (existsb (Nat.eqb (launches s)) (reaped s)) eqn:E; [| reflexivity].
  apply existsb_exists in E. destruct E as (n & Hn & En).
  apply Nat.eqb_eq in En. subst n. specialize (Hr _ Hn). lia.
Qed.

Lemma kcp_known_pids s :
  known_pids s -> known_pids (fst (kill_current_process s)).
Proof.
  intros [Hp Hr].
  pose proof (kill_current_process_still s) as (_ & Epr & El & _).
  split.
  - intros p E. rewrite Epr in E. rewrite El. auto.
  - intros n Hn. rewrite El.
    destruct (kcp_reaped s) as [E | (p & Ep & E)]; rewrite E in Hn; auto.
    destruct Hn as [<- | Hn]; auto.
Qed.

Lemma short_list_is {A} (x : A) l :
  (List.length l <= 1)%nat -> In x l -> l = [x].
Proof.
  destruct l as [| y [| z l]]; cbn; intros Hl Hin.
  - contradiction.
  - destruct Hin as [-> | []]. reflexivity.
  - lia.
Qed.

Lemma start_server_succeeds env s :
  Inv s -> none_alive s -> known_pids s ->
  launch_fails env (launches s) = false ->
  exists s3 p',
    start_server env s = (s3, Ret true)
    /\ launches s3 = S (launches s)
    /\ process s3 = Some p'
    /\ pid p' = launches s
    /\ popen_plan env (launches s) = Spawns (behaviour p')
    /\ live_children s3 = [p']
    /\ retry_count s3 = 0%nat
    /\ (exists tr, trace s3 = APrint MStarted :: tr).
Proof.
  intros HI Hn Hk Hf.
  pose proof (start_server_Inv env s HI Hn) as (HI3 & _).
  pose proof (known_pids_fresh s Hk) as Hfresh.
  rewrite start_server_flat_ok in *.
  pose proof (kill_process_on_port_only_time_and_log env port s)
    as (Hl & _ & Hr & _).
  set (s0 := fst (kill_process_on_port env port s)) in *.
  assert (Hfresh0 : reaped_pid (launches s0) s0 = false)
    by (unfold reaped_pid in *; now rewrite Hl, Hr).
  pose proof (start_flat_result env s0 Hfresh0) as Hres.
  assert (Hf0 : launch_fails env (launches s0) = false)
    by (rewrite Hl; exact Hf).
  rewrite Hf0 in Hres. cbn [negb] in Hres.
  rewrite <- Hl.
  unfold start_server_flat in *. cbv zeta in *.
  destruct (popen_plan env (launches s0)) as [| b]; [discriminate |].
  match goal with
  | |- context [if ?c then _ else _] => destruct c eqn:Ea
  end; [| discriminate].
  cbn [fst snd] in *.
  eexists. exists (Build_Proc (launches s0) (clock s0) b).
  split; [reflexivity |]. split; [reflexivity |]. split; [reflexivity |].
  split; [reflexivity |]. split; [reflexivity |].
  split; [| split; [reflexivity | eexists; reflexivity]].
  apply short_list_is; [apply (at_most_one_live _ HI3) |].
  unfold live_children. apply filter_In. split; [cbn; auto | exact Ea].
Qed.

(** X11: a restart whose first launch succeeds.  With the invariant, a
    child behind the handle that is gone or can be signalled, and the next
    child number unused, [restart_server] comes back after one launch; the
    new child is behind the handle and is the one child that runs, the retry
    counter is zero and the last line written is the one of a successful
    restart. *)
Theorem X11_restart_replaces_child env s :
  Inv s -> stoppable s -> known_pids s ->
  launch_fails env (launches s) = false ->
  exists s' p',
    restart_server env s = (s', Ret tt)
    /\ launches s' = S (launches s)
    /\ process s' = Some p'
    /\ pid p' = launches s
    /\ popen_plan env (launches s) = Spawns (behaviour p')
    /\ live_children s' = [p']
    /\ retry_count s' = 0%nat
    /\ (exists tr, trace s' = APrint MRestarted :: tr).
Proof.
  intros HI Hst Hk Hf.
  unfold restart_server, max_retries. rewrite restart_round_ok.
  unfold restart_round.
  set (sa := log [APrint MRestarting] s).
  assert (HIa : Inv sa) by (subst sa; inv_quiet HI).
  assert (Hsta : stoppable sa).
  { apply (stoppable_later s); cbn; auto using incl_refl. lia. }
  assert (Hka : known_pids sa) by exact Hk.
  destruct (kcp_stoppable sa Hsta) as [Hr Hd].
  pose proof (kill_current_process_still sa) as Hstill.
  pose proof (kill_current_process_clock sa) as Hc.
  pose proof (Inv_still _ _ Hstill Hc HIa) as HI1.
  pose proof (kcp_known_pids sa Hka) as Hk1.
  pose proof Hstill as (_ & _ & Hl1 & _).
  destruct (kill_current_process sa) as [s1 r1]. cbn [fst snd] in *. subst r1.
  assert (HI2 : Inv (settled s1)) by inv_quiet HI1.
  assert (Hd2 : current_dead (settled s1)).
  { apply (current_dead_later s1); cbn; auto using incl_refl. lia. }
  pose proof (Inv_dead_none_alive _ HI2 Hd2) as Hn2.
  assert (Hk2 : known_pids (settled s1)) by exact Hk1.
  assert (Hf2 : launch_fails env (launches (settled s1)) = false).
  { change (launches (settled s1)) with (launches s1). now rewrite Hl1. }
  destruct (start_server_succeeds env (settled s1) HI2 Hn2 Hk2 Hf2)
    as (s3 & p' & E & Hl3 & Hp3 & Hpid & Hpl & Hlive & Hrc & _).
  change (launches (settled s1)) with (launches s1) in *.
  change (launches sa) with (launches s) in Hl1. rewrite Hl1 in *.
  rewrite E. exists (log [APrint MRestarted] s3), p'.
  split; [reflexivity |]. split; [exact Hl3 |]. split; [exact Hp3 |].
  split; [exact Hpid |]. split; [exact Hpl |]. split; [exact Hlive |].
  split; [exact Hrc |]. eexists; reflexivity.
Qed.

Lemma Inv_serving : Inv serving_state.
Proof.
  apply (start_server_Inv env_good (init 0) (Inv_init 0) (none_alive_init 0)).
Qed.

Lemma known_pids_serving : known_pids serving_state.
Proof.
  split.
  - intros p H. vm_compute in H. injection H as <-. cbn. lia.
  - intros n H. vm_compute in H. contradiction.
Qed.

Lemma X11_restart_replaces_child_witness :
  Inv serving_state /\ stoppable serving_state /\ known_pids serving_state
  /\ launch_fails env_good (launches serving_state) = false
  /\ exists s' p',
      restart_server env_good serving_state = (s', Ret tt)
      /\ launches s' = S (launches serving_state)
      /\ process s' = Some p'
      /\ pid p' = launches serving_state
      /\ popen_plan env_good (launches serving_state) = Spawns (behaviour p')
      /\ live_children s' = [p']
      /\ retry_count s' = 0%nat
      /\ (exists tr, trace s' = APrint MRestarted :: tr).
Proof.
  assert (Hs : stoppable serving_state) by (right; exact current_safe_serving).
  assert (Hf : launch_fails env_good (launches serving_state) = false)
    by reflexivity.
  split; [exact Inv_serving |]. split; [exact Hs |].
  split; [exact known_pids_serving |]. split; [exact Hf |].
  exact (X11_restart_replaces_child env_good serving_state
           Inv_serving Hs known_pids_serving Hf).
Defined.

(** * What [kill_current_process] leaves behind *)

Lemma graceful_end_none_alive p s :
  alive p s = true ->
  graceful_end p (clock s) = None ->
  alive p (set_clock (clock s + 5000) s) = true.
Proof.
  unfold alive, graceful_end, exit_time, reaped_pid. st_simpl.
  intros Ha Hg. apply andb_true_iff in Ha. destruct Ha as [Hr Hn].
  rewrite Hr. cbn [andb].
  destruct (natural_death p) as [n |]; [| reflexivity].
  apply Z.ltb_lt in Hn. apply Z.ltb_lt.
  destruct (on_term (behaviour p)) as [d | |].
  - destruct (Z.leb_spec (Z.min n (clock s + Z.of_nat d)) (clock s + 5000));
      [discriminate | lia].
  - destruct (Z.leb_spec n (clock s + 5000)); [discriminate | lia].
  - destruct (Z.leb_spec n (clock s + 5000)); [discriminate | lia].
Qed.

(** X12: [kill_current_process] never clears the handle and ends in one of
    four ways.  It returns with the child behind the handle gone; or it
    returns having swallowed an error of [terminate()], with that child still
    running and only two log lines written; or the forced kill raises, five
    seconds after the call, with that child still running; or the forced kill
    is sent to a child that neither goes on it nor ever exits by itself, and
    the call blocks for good in the [wait()] of line 162, five seconds after
    it was made.  When it does come back, that is after the five seconds and
    what the child needs to be gone, at the latest. *)
Theorem X12_stop_four_ways s :
  process (fst (kill_current_process s)) = process s
  /\ clock s <= clock (fst (kill_current_process s)) <= clock s + kill_cost s
  /\ ((snd (kill_current_process s) = Ret tt
       /\ current_dead (fst (kill_current_process s)))
      \/ (exists p,
             process s = Some p
             /\ on_term (behaviour p) = TermRaises
             /\ kill_current_process s
                = (log [APrint MErrStopping; APrint MStopping] s, Ret tt)
             /\ alive p (fst (kill_current_process s)) = true)
      \/ (exists p,
             process s = Some p
             /\ on_kill (behaviour p) = KillRaises
             /\ snd (kill_current_process s) = Raise OSError
             /\ clock (fst (kill_current_process s)) = clock s + 5000
             /\ reaped (fst (kill_current_process s)) = reaped s
             /\ alive p (fst (kill_current_process s)) = true)
      \/ (exists p,
             process s = Some p
             /\ on_kill (behaviour p) = KillHangs
             /\ natural_death p = None
             /\ snd (kill_current_process s) = Diverge
             /\ clock (fst (kill_current_process s)) = clock s + 5000
             /\ In (AKill (pid p)) (trace (fst (kill_current_process s)))
             /\ alive p (fst (kill_current_process s)) = true)).
Proof.
  pose proof (kill_current_process_still s) as (_ & Hp & _).
  pose proof (kill_current_process_clock s) as Hc. unfold clock_mono in Hc.
  pose proof (kcp_clock_bound s) as Hb.
  split; [exact Hp |]. split; [lia |]. clear Hp Hc Hb.
  rewrite kcp_flat_ok. unfold kcp_flat, current_dead.
  destruct (process s) as [p |] eqn:Ep.
  2:{ left. split; [reflexivity |]. cbn [fst]. intros q Hq. congruence. }
  destruct (alive p s) eqn:Ha.
  2:{ left. split; [reflexivity |]. cbn [fst]. intros q Hq.
      rewrite Ep in Hq. injection Hq as <-. exact Ha. }
  assert (Hdead : forall st, process st = Some p -> In (pid p) (reaped st) ->
                             forall q, process st = Some q -> alive q st = false).
  { intros st E Hin q Hq. rewrite E in Hq. injection Hq as <-.
    now apply alive_reaped. }
  assert (Hrest :
    on_term (behaviour p) <> TermRaises ->
    let waited :=
      [AWait (pid p) (Some 5000); ATerminate (pid p); APrint MStopping] in
    let r :=
      match graceful_end p (clock s) with
      | Some e =>
          (set_clock e (set_reaped (pid p :: reaped s) (log waited s)), Ret tt)
      | None =>
          match on_kill (behaviour p) with
          | KillRaises =>
              (set_clock (clock s + 5000) (log (APrint MForceKill :: waited) s),
               Raise OSError)
          | KillExits d =>
              (set_clock (exit_time p (clock s + 5000 + Z.of_nat d))
                 (set_reaped (pid p :: reaped s)
                    (log (AWait (pid p) None :: AKill (pid p)
                          :: APrint MForceKill :: waited) s)),
               Ret tt)
          | KillHangs =>
              let s1 :=
                log (AWait (pid p) None :: AKill (pid p)
                     :: APrint MForceKill :: waited) s in
              match natural_death p with
              | Some n => (set_clock n s1, Ret tt)
              | None => (set_clock (clock s + 5000) s1, Diverge)
              end
          end
      end in
    (snd r = Ret tt
     /\ (forall q, process (fst r) = Some q -> alive q (fst r) = false))
    \/ (exists p0,
           Some p = Some p0
           /\ on_term (behaviour p0) = TermRaises
           /\ r = (log [APrint MErrStopping; APrint MStopping] s, Ret tt)
           /\ alive p0 (fst r) = true)
    \/ (exists p0,
           Some p = Some p0
           /\ on_kill (behaviour p0) = KillRaises
           /\ snd r = Raise OSError
           /\ clock (fst r) = clock s + 5000
           /\ reaped (fst r) = reaped s
           /\ alive p0 (fst r) = true)
    \/ (exists p0,
           Some p = Some p0
           /\ on_kill (behaviour p0) = KillHangs
           /\ natural_death p0 = None
           /\ snd r = Diverge
           /\ clock (fst r) = clock s + 5000
           /\ In (AKill (pid p0)) (trace (fst r))
           /\ alive p0 (fst r) = true)).
  { intros _. cbv zeta.
    destruct (graceful_end p (clock s)) eqn:Eg.
    { left. split; [reflexivity |]. cbn [fst]. apply Hdead; cbn; auto. }
    pose proof (graceful_end_none_alive p s Ha Eg) as Hal.
    destruct (on_kill (behaviour p)) eqn:Ek.
    - left. split; [reflexivity |]. cbn [fst]. apply Hdead; cbn; auto.
    - right. right. left. exists p.
      split; [reflexivity |]. split; [exact Ek |].
      split; [reflexivity |]. split; [reflexivity |].
      split; [reflexivity |]. cbn [fst]. rewrite <- Hal. reflexivity.
    - destruct (natural_death p) as [n |] eqn:En.
      + left. split; [reflexivity |]. cbn [fst]. intros q Hq.
        cbn in Hq. rewrite Ep in Hq. injection Hq as <-.
        unfold alive. rewrite En. st_simpl. rewrite Z.ltb_irrefl.
        apply andb_false_r.
      + right. right. right. exists p.
        split; [reflexivity |]. split; [exact Ek |]. split; [exact En |].
        split; [reflexivity |]. split; [reflexivity |].
        split; [cbn; auto |]. cbn [fst]. rewrite <- Hal. reflexivity. }
  destruct (on_term (behaviour p)) eqn:Et.
  - apply Hrest. discriminate.
  - apply Hrest. discriminate.
  - right. left. exists p.
    repeat split; first [exact Et | exact Ha | reflexivity].
Qed.

(** * A restart that raises inside the handler *)

Lemma seen_at_no_thread t s :
  reset_at s = None -> seen_at t s = set_clock (Z.max (clock s) t) s.
Proof.
  intros H. unfold seen_at, before_handler, reset_pending.
  cbv [bind modify get ret]. cbn [reset_at set_clock]. rewrite H. reflexivity.
Qed.

Lemma stuck_step env t event s :
  stuck s ->
  exists s1 o,
    on_change env t event s = (s1, Ret o)
    /\ o <> Accepted
    /\ stuck s1
    /\ launches s1 = launches s
    /\ process s1 = process s.
Proof.
  intros [Hp Hr]. destruct (on_change_before env t event s) as [-> _].
  rewrite (seen_at_no_thread t s Hr), handle_file_change_effect.
  unfold decision. st_simpl. rewrite Hp.
  destruct (is_directory event);
    [eexists; eexists; split; [reflexivity |];
     repeat split; auto; discriminate |].
  destruct (negb _);
    [eexists; eexists; split; [reflexivity |];
     repeat split; auto; discriminate |].
  destruct (excluded _);
    [eexists; eexists; split; [reflexivity |];
     repeat split; auto; discriminate |].
  destruct (_ <? _);
    eexists; eexists; (split; [reflexivity |]);
    repeat split; auto; discriminate.
Qed.

Lemma stuck_run env evs :
  forall s,
    stuck s ->
    exists s' os,
      run_events env evs s = (s', Ret os)
      /\ ~ In Accepted os
      /\ stuck s'
      /\ launches s' = launches s
      /\ process s' = process s.
Proof.
  induction evs as [| [t e] evs IH]; intros s Hs.
  - exists s, []. split; [reflexivity |]. split; [intros [] |].
    split; [exact Hs |]. split; reflexivity.
  - destruct (stuck_step env t e s Hs) as (s1 & o & E1 & Ho & Hs1 & Hl1 & Hp1).
    destruct (IH s1 Hs1) as (s2 & os & E2 & Hos & Hs2 & Hl2 & Hp2).
    exists s2, (o :: os). cbn [run_events].
    rewrite (bind_Ret _ _ _ _ _ E1), (bind_Ret _ _ _ _ _ E2).
    split; [reflexivity |]. split.
    + intros [H | H]; [congruence | auto].
    + split; [exact Hs2 |]. split; congruence.
Qed.

(** X13: when [restart_server] raises inside the handler (the forced kill
    failed), the handler raises that OSError with the pending flag set and no
    [reset_pending] thread started.  A handler left in that state accepts no
    event any more: whatever comes is ignored, debounced or logged as an
    additional change, and no launch is made. *)
Theorem X13_failed_restart_blocks_handler env event s e :
  (pending_restart s = false -> reset_at s = None) ->
  snd (_handle_file_change env event s) = Raise e ->
  e = OSError
  /\ stuck (fst (_handle_file_change env event s))
  /\ forall env' evs,
       exists s' os,
         run_events env' evs (fst (_handle_file_change env event s))
         = (s', Ret os)
         /\ ~ In Accepted os
         /\ stuck s'
         /\ launches s' = launches (fst (_handle_file_change env event s))
         /\ process s' = process (fst (_handle_file_change env event s)).
Proof.
  intros Hc H.
  assert (Hst : e = OSError /\ stuck (fst (_handle_file_change env event s))).
  { rewrite handle_file_change_effect in *.
    assert (Ed : decision event s = Accepted).
    { destruct (decision event s); try reflexivity;
        cbn [effect] in H; discriminate. }
    assert (Hpf : pending_restart s = false).
    { unfold decision in Ed.
      destruct (is_directory event); [discriminate |].
      destruct (negb _); [discriminate |].
      destruct (excluded _); [discriminate |].
      destruct (_ <? _); [discriminate |].
      destruct (pending_restart s); [discriminate | reflexivity]. }
    rewrite Ed, effect_accepted in *.
    pose proof (restart_server_handler env (accepted_state event s))
      as (_ & Hp & Hr).
    destruct (restart_upto_result env max_retries (accepted_state event s))
      as (_ & Herr).
    fold (restart_server env) in Herr.
    destruct (restart_server env (accepted_state event s))
      as [s3 [[] | x |]] eqn:E; cbn [fst snd] in *.
    - rewrite (bind_Ret _ _ _ _ _ E) in H.
      cbv [start_reset_pending bind get modify emit ret] in H. discriminate.
    - rewrite (bind_Raise _ _ _ _ _ E) in *. cbn [fst snd] in *.
      injection H as ->. split; [now apply Herr |].
      split; [rewrite Hp; reflexivity |].
      rewrite Hr. cbn. now apply Hc.
    - unfold bind in H. rewrite E in H. discriminate. }
  destruct Hst as [He Hs]. split; [exact He |]. split; [exact Hs |].
  intros env' evs. now apply stuck_run.
Qed.

Lemma X13_failed_restart_blocks_handler_witness :
  snd (_handle_file_change env_unkillable py_event unkillable_state)
  = Raise OSError
  /\ stuck (fst (_handle_file_change env_unkillable py_event unkillable_state))
  /\ exists s' os,
      run_events env_good [(20000, py_event)]
        (fst (_handle_file_change env_unkillable py_event unkillable_state))
      = (s', Ret os)
      /\ ~ In Accepted os.
Proof.
  assert (Hr : snd (_handle_file_change env_unkillable py_event
                      unkillable_state) = Raise OSError)
    by (vm_compute; reflexivity).
  destruct (X13_failed_restart_blocks_handler env_unkillable py_event
              unkillable_state OSError (fun _ => eq_refl) Hr)
    as (_ & Hs & Hrun).
  split; [exact Hr |]. split; [exact Hs |].
  destruct (Hrun env_good [(20000, py_event)]) as (s' & os & E & Hn & _).
  exists s', os. split; [exact E | exact Hn].
Defined.
